(** * emonHub: reconciliation, fan-out and shutdown of [EmonHub]

    A shallow embedding of [src/emonhub.py] (class [EmonHub]) and the
    properties of its settings reconciliation ([_update_settings]), of the
    fan-out pass of [run] and of the shutdown sequence ([close]).

    The hub is a Python object whose methods mutate its attributes and may
    raise.  It is embedded as a record [EmonHub] threaded through a small
    state-and-exception monad [M]; a raised exception carries the state
    reached when it was raised, because Python does not roll attributes
    back.  Python dictionaries are [gmap]s with [string] keys; their
    iteration order is the (fixed) order of [map_to_list].

    The listener and dispatcher classes live in the modules
    [emonhub_listener] and [emonhub_dispatcher], which the hub only uses
    through [getattr(module, type)(...)], [set], [run], [read], [close] and
    a few attributes.  They are the fields of the class [Components]. *)

From Stdlib Require Import ZArith.
From stdpp Require Import base option list strings gmap fin_maps.

#[local] Set Warnings "-clear-no-such-hyp".

Open Scope string_scope.
Open Scope list_scope.
Open Scope nat_scope.

(** ** Settings *)

(** A value of a settings dictionary: a string, or a list of strings. *)
Inductive pyval :=
| PStr (s : string)
| PList (l : list string).

#[global] Instance pyval_eq_dec : EqDecision pyval.
Proof. solve_decision. Defined.

(** One component descriptor, [settings['dispatchers'][name]] or
    [settings['listeners'][name]]: a dictionary whose keys ['type'],
    ['init_settings'] and ['runtime_settings'] may each be missing. *)
Record descriptor := Descriptor {
  desc_type : option string;
  desc_init_settings : option (gmap string pyval);
  desc_runtime_settings : option (gmap string pyval)
}.

(** The settings handed to [_update_settings].  [settings['hub']['loglevel']],
    [settings['dispatchers']] and [settings['listeners']] are read
    unconditionally; ['nodes'] is tested with [in]. *)
Record Settings := {
  hub_loglevel : string;
  dispatchers : gmap string descriptor;
  listeners : gmap string descriptor;
  nodes : option (gmap string (gmap string pyval))
}.

(** ** Objects held by the hub *)

(** Python objects have an identity; [id] is the allocation number of the
    object.  Value records read from a listener are referred to by that
    number (a reference into [heap] below). *)

Module Dispatcher.
(** The attributes of a dispatcher object that the hub touches. *)
Record t := mk {
  id : nat;
  cls : string;
  init_settings : gmap string pyval;
  _settings : gmap string pyval;
  _data_buffer : list nat;            (* buffer._data_buffer *)
  stop : bool
}.
Definition with_settings (s : gmap string pyval) (d : t) : t :=
  mk (id d) (cls d) (init_settings d) s (_data_buffer d) (stop d).
Definition with_data_buffer (b : list nat) (d : t) : t :=
  mk (id d) (cls d) (init_settings d) (_settings d) b (stop d).
Definition with_stop (b : bool) (d : t) : t :=
  mk (id d) (cls d) (init_settings d) (_settings d) (_data_buffer d) b.
End Dispatcher.

Module Listener.
(** The attributes of a listener object that the hub touches.  [source]
    is what the next calls of [read] will return: a complete frame, or
    [None] when no complete frame is available. *)
Record t := mk {
  id : nat;
  cls : string;
  name : option string;
  init_settings : gmap string pyval;
  _settings : gmap string pyval;
  source : list (option (list Z))
}.
Definition with_settings (s : gmap string pyval) (l : t) : t :=
  mk (id l) (cls l) (name l) (init_settings l) s (source l).
Definition with_name (n : string) (l : t) : t :=
  mk (id l) (cls l) (Some n) (init_settings l) (_settings l) (source l).
Definition with_source (src : list (option (list Z))) (l : t) : t :=
  mk (id l) (cls l) (name l) (init_settings l) (_settings l) src.
(** Modelled from the spec: [read() -> ValueRecord or none] of the
    listener classes (module [emonhub_listener], not part of the hub). *)
Definition read (l : t) : option (list Z) * t :=
  match source l with
  | [] => (None, l)
  | v :: src => (v, with_source src l)
  end.
End Listener.

(** A [Queue.Queue(0)] object: its identity and the references put on it,
    oldest first. *)
Record Queue := mkQueue {
  q_id : nat;
  q_items : list nat
}.

Definition put (values : nat) (q : Queue) : Queue :=
  mkQueue (q_id q) (q_items q ++ [values]).

(** What the hub does to the outside world, most recent first. *)
Inductive event :=
| log_info (msg : string)
| log_error (msg : string)
| log_debug (msg : string)
| dispatcher_stop (id : nat)          (* d.stop = True *)
| listener_close (id : nat)           (* l.close() *)
| listener_run (id : nat)             (* l.run() *)
| listener_read (id : nat) (values : option nat)
| interface_run
| sleep
| logging_shutdown.

#[global] Instance event_eq_dec : EqDecision event.
Proof. solve_decision. Defined.

(** ** The hub *)

Record EmonHub := mkHub {
  _exit : bool;
  _log_level : nat;                                (* self._log.getEffectiveLevel() *)
  _dispatchers : gmap string Dispatcher.t;
  _listeners : gmap string Listener.t;
  _queue : gmap string Queue;
  temp_buffer : gmap string (list nat);
  nodelist : gmap string (gmap string pyval);      (* ehc.nodelist *)
  heap : gmap nat (list Z);                        (* value records, by reference *)
  next_id : nat;                                   (* next object identity *)
  trace : list event
}.

Definition set_exit (b : bool) (h : EmonHub) : EmonHub :=
  mkHub b (_log_level h) (_dispatchers h) (_listeners h) (_queue h)
        (temp_buffer h) (nodelist h) (heap h) (next_id h) (trace h).
Definition set_log_level (n : nat) (h : EmonHub) : EmonHub :=
  mkHub (_exit h) n (_dispatchers h) (_listeners h) (_queue h)
        (temp_buffer h) (nodelist h) (heap h) (next_id h) (trace h).
Definition upd_dispatchers (f : gmap string Dispatcher.t → gmap string Dispatcher.t)
    (h : EmonHub) : EmonHub :=
  mkHub (_exit h) (_log_level h) (f (_dispatchers h)) (_listeners h) (_queue h)
        (temp_buffer h) (nodelist h) (heap h) (next_id h) (trace h).
Definition upd_listeners (f : gmap string Listener.t → gmap string Listener.t)
    (h : EmonHub) : EmonHub :=
  mkHub (_exit h) (_log_level h) (_dispatchers h) (f (_listeners h)) (_queue h)
        (temp_buffer h) (nodelist h) (heap h) (next_id h) (trace h).
Definition upd_queue (f : gmap string Queue → gmap string Queue)
    (h : EmonHub) : EmonHub :=
  mkHub (_exit h) (_log_level h) (_dispatchers h) (_listeners h) (f (_queue h))
        (temp_buffer h) (nodelist h) (heap h) (next_id h) (trace h).
Definition upd_temp_buffer (f : gmap string (list nat) → gmap string (list nat))
    (h : EmonHub) : EmonHub :=
  mkHub (_exit h) (_log_level h) (_dispatchers h) (_listeners h) (_queue h)
        (f (temp_buffer h)) (nodelist h) (heap h) (next_id h) (trace h).
Definition set_nodelist (n : gmap string (gmap string pyval)) (h : EmonHub) : EmonHub :=
  mkHub (_exit h) (_log_level h) (_dispatchers h) (_listeners h) (_queue h)
        (temp_buffer h) n (heap h) (next_id h) (trace h).
Definition upd_heap (f : gmap nat (list Z) → gmap nat (list Z)) (h : EmonHub) : EmonHub :=
  mkHub (_exit h) (_log_level h) (_dispatchers h) (_listeners h) (_queue h)
        (temp_buffer h) (nodelist h) (f (heap h)) (next_id h) (trace h).
Definition set_next_id (n : nat) (h : EmonHub) : EmonHub :=
  mkHub (_exit h) (_log_level h) (_dispatchers h) (_listeners h) (_queue h)
        (temp_buffer h) (nodelist h) (heap h) n (trace h).
Definition upd_trace (f : list event → list event) (h : EmonHub) : EmonHub :=
  mkHub (_exit h) (_log_level h) (_dispatchers h) (_listeners h) (_queue h)
        (temp_buffer h) (nodelist h) (heap h) (next_id h) (f (trace h)).

(** ** Exceptions and the hub monad *)

Inductive exn :=
| KeyError (key : string)
| AttributeError (attr : string)
| EmonHubDispatcherInitError (msg : string)
| EmonHubListenerInitError (msg : string)
| ValueError (msg : string).

Inductive outcome (A : Type) :=
| Ok (a : A) (h : EmonHub)
| Raise (e : exn) (h : EmonHub).
Arguments Ok {A} a h.
Arguments Raise {A} e h.

(** The hub as it is when the call returns or raises. *)
Definition state_of {A} (o : outcome A) : EmonHub :=
  match o with Ok _ h => h | Raise _ h => h end.

Definition M (A : Type) : Type := EmonHub → outcome A.

#[global] Instance M_ret : MRet M := λ A a h, Ok a h.
#[global] Instance M_bind : MBind M := λ A B f m h,
  match m h with
  | Ok a h' => f a h'
  | Raise e h' => Raise e h'
  end.

#[global] Instance M_fmap : FMap M := λ A B f m h,
  match m h with
  | Ok a h' => Ok (f a) h'
  | Raise e h' => Raise e h'
  end.

Definition raise {A} (e : exn) : M A := λ h, Raise e h.
Definition gets {A} (f : EmonHub → A) : M A := λ h, Ok (f h) h.
Definition modify (f : EmonHub → EmonHub) : M unit := λ h, Ok tt (f h).
Definition emit (e : event) : M unit := modify (upd_trace (cons e)).

(** [try: body  except <handled>: handler]; an exception the handler does
    not name propagates. *)
Definition try_except {A} (body : M A) (handler : exn → option (M A)) : M A := λ h,
  match body h with
  | Ok a h' => Ok a h'
  | Raise e h' =>
      match handler e with
      | Some k => k h'
      | None => Raise e h'
      end
  end.

(** [for x in xs: body x] *)
Fixpoint for_ {A} (xs : list A) (body : A → M unit) : M unit :=
  match xs with
  | [] => mret tt
  | x :: xs' => body x ;; for_ xs' body
  end.

(** [d[key]] on a dictionary. *)
Definition getitem {V} (d : gmap string V) (key : string) : M V :=
  match d !! key with
  | Some v => mret v
  | None => raise (KeyError key)
  end.

(** [d[key]] on a descriptor, whose three keys are record fields. *)
Definition getkey {V} (key : string) (field : option V) : M V :=
  match field with
  | Some v => mret v
  | None => raise (KeyError key)
  end.

(** Allocation of a Python object: the next identity. *)
Definition fresh : M nat := λ h, Ok (next_id h) (set_next_id (S (next_id h)) h).

(** ** The steps of the main thread, and [SIGINT]

    The handler of the hub runs in the main thread, between two of its
    steps, wherever the signal finds it. *)

Definition _sigint_handler : M unit :=
  emit (log_debug "SIGINT received.") ;;
  modify (set_exit true).

(** Code as a sequence of steps: [Do m k] is the step [m], an operation of
    the hub monad, followed by [k] on its result; [Try] is a [try] block
    with the exceptions its [except] clause names and the clause. *)
Inductive Prog : Type → Type :=
| Ret {A} (a : A) : Prog A
| Do {A B} (m : M B) (k : B → Prog A) : Prog A
| Try {A B} (body : Prog B) (handles : exn → bool) (handler : exn → Prog B)
      (k : B → Prog A) : Prog A.

Fixpoint prog_bind {A B} (p : Prog A) : (A → Prog B) → Prog B :=
  match p in Prog A return (A → Prog B) → Prog B with
  | Ret a => λ f, f a
  | Do m k => λ f, Do m (λ b, prog_bind (k b) f)
  | Try body handles handler k =>
      λ f, Try body handles handler (λ b, prog_bind (k b) f)
  end.

#[global] Instance Prog_ret : MRet Prog := @Ret.
#[global] Instance Prog_bind : MBind Prog := λ A B f p, prog_bind p f.
#[global] Instance Prog_fmap : FMap Prog := λ A B g p, prog_bind p (λ a, Ret (g a)).

(** The steps run one after the other, without a signal. *)
Fixpoint exec {A} (p : Prog A) : M A :=
  match p with
  | Ret a => mret a
  | Do m k => b ← m; exec (k b)
  | Try body handles handler k =>
      b ← try_except (exec body)
             (λ e, if handles e then Some (exec (handler e)) else None);
      exec (k b)
  end.

(** The signal is due after [c] more steps: before a step, the handler
    runs if it is due now. *)
Definition arrive (c : option nat) (h : EmonHub) : EmonHub * option nat :=
  match c with
  | Some 0 => (state_of (_sigint_handler h), None)
  | Some (S k) => (h, Some k)
  | None => (h, None)
  end.

(** The steps run with the signal due after [c] of them; the result says
    whether it is still due. *)
Fixpoint exec_sig {A} (p : Prog A) (c : option nat) (h : EmonHub)
    : outcome A * option nat :=
  match p with
  | Ret a => (Ok a h, c)
  | Do m k =>
      let '(h0, c0) := arrive c h in
      match m h0 with
      | Ok b h' => exec_sig (k b) c0 h'
      | Raise e h' => (Raise e h', c0)
      end
  | Try body handles handler k =>
      match exec_sig body c h with
      | (Ok b h', c') => exec_sig (k b) c' h'
      | (Raise e h', c') =>
          if handles e then
            match exec_sig (handler e) c' h' with
            | (Ok b h'', c'') => exec_sig (k b) c'' h''
            | (Raise e' h'', c'') => (Raise e' h'', c'')
            end
          else (Raise e h', c')
      end
  end.

(** [p] with the signal arriving after [k] of its steps, and in its last
    step when it has fewer.  An exception raised before the signal arrives
    ends [p] without it. *)
Definition interrupted_at (k : nat) (p : Prog unit) : M unit := λ h,
  match exec_sig p (Some k) h with
  | (Ok _ h', Some _) => _sigint_handler h'
  | (o, _) => o
  end.

(** Every step of [p] has the property [P]. *)
Fixpoint all_steps (P : ∀ B, M B → Prop) {A} (p : Prog A) : Prop :=
  match p with
  | Ret _ => True
  | Do m k => P _ m ∧ ∀ b, all_steps P (k b)
  | Try body _ handler k =>
      all_steps P body ∧ (∀ e, all_steps P (handler e)) ∧ ∀ b, all_steps P (k b)
  end.

(** ** The modules the hub imports *)

(** The modules [emonhub_dispatcher] ([ehd]), [emonhub_listener] ([ehl])
    and [logging] as the hub uses them.

    [ehd ty] is [getattr(ehd, ty)]: [None] when the module has no such
    attribute.  The class is called with the name, the queue and the
    [init_settings]; the call raises, or builds an object, of which the
    result gives the initial [_settings] and the initial buffer.
    [ehd_set cls current kwargs] is what [set] called with the keyword
    arguments [kwargs] leaves in [_settings].  [ehl] and [ehl_set] are the same for listeners; a new
    listener also comes with the frames its source will deliver.

    An instance says what a class call does for the duration of one
    reconcile tick; the hub calls the class again in every tick that finds
    no component under the name, and nothing makes the call return the same
    then, so a property that spans two ticks takes an instance for each.

    [logging_getattr level] is [getattr(logging, level)]: [None] when the
    module has no such attribute, [Some (Some n)] for an attribute that is
    the integer [n] (the level constants), [Some None] for any other
    attribute (the function [logging.debug], say).
    [logging_setLevel level] is the effective level of the logger after
    [self._log.setLevel(level)] with the string [level]: [None] when
    [setLevel] does not know the name and raises
    [ValueError("Unknown level: %r" % level)].

    Modelled from the spec: [set] of the component classes, a hot-apply of
    the runtime settings that does not raise into the hub. *)
Class Components := {
  ehd : string → option (string → gmap string pyval →
                         exn + (gmap string pyval * list nat));
  ehd_set : string → gmap string pyval → gmap string pyval → gmap string pyval;
  ehl : string → option (gmap string pyval →
                         exn + (gmap string pyval * list (option (list Z))));
  ehl_set : string → gmap string pyval → gmap string pyval → gmap string pyval;
  logging_getattr : string → option (option nat);
  logging_setLevel : string → option nat
}.

(** The result of calling a class. *)
Definition call {A} (r : exn + A) : M A :=
  match r with
  | inl e => raise e
  | inr a => mret a
  end.

(** The spellings of ['pause'] that stop the input of a dispatcher
    ([run], the list literal of the fan-out loop). *)
Definition pause_in : list pyval :=
  [PStr "i"; PStr "I"; PStr "in"; PStr "In"; PStr "IN";
   PStr "t"; PStr "T"; PStr "true"; PStr "True"; PStr "TRUE"].

(** ['pause' in s and s['pause'] in [...]] *)
Definition paused (s : gmap string pyval) : bool :=
  bool_decide (is_Some (s !! "pause")) &&
  match s !! "pause" with
  | Some v => bool_decide (v ∈ pause_in)
  | None => false
  end.

Section hub.
Context `{Components}.

(** Only [AttributeError] is caught: the [ValueError] of [setLevel]
    escapes. *)
Definition _set_logging_level (level : string) : M unit :=
  match logging_getattr level with
  | None => emit (log_error ("Logging level " +:+ level +:+ " invalid"))
  | Some loglevel =>
      current ← gets _log_level;
      if decide (loglevel ≠ Some current) then
        match logging_setLevel level with
        | Some n => modify (set_log_level n)
        | None => raise (ValueError ("Unknown level: '" +:+ level +:+ "'"))
        end ;;
        emit (log_info ("Logging level set to " +:+ level))
      else mret tt
  end.

Definition dispatcher_at (name : string) : M Dispatcher.t :=
  ds ← gets _dispatchers; getitem ds name.

Definition listener_at (name : string) : M Listener.t :=
  ls ← gets _listeners; getitem ls name.

Definition queue_at (name : string) : M Queue :=
  qs ← gets _queue; getitem qs name.

(** [self._dispatchers[name].stop = True] *)
Definition set_stop (name : string) : M unit :=
  d ← dispatcher_at name;
  modify (upd_dispatchers (<[name := Dispatcher.with_stop true d]>)) ;;
  emit (dispatcher_stop (Dispatcher.id d)).

(** Lines 144-146. *)
Definition delete_dispatcher (name : string) : M unit :=
  emit (log_info ("Deleting dispatcher '" +:+ name +:+ "'")) ;;
  set_stop name ;;
  modify (upd_dispatchers (delete name)).

(** Body of the first dispatcher loop, lines 135-146. *)
Definition check_dispatcher (settings : Settings) (name : string) : M unit :=
  d ← dispatcher_at name;
  dis ← getitem (dispatchers settings) name;
  init ← getkey "init_settings" (desc_init_settings dis);
  if decide (Dispatcher.init_settings d ≠ init) then
    (if decide (Dispatcher._data_buffer d ≠ []) then
       modify (upd_temp_buffer (<[name := Dispatcher._data_buffer d]>))
     else mret tt) ;;
    delete_dispatcher name
  else if bool_decide (is_Some (dispatchers settings !! name))
          && bool_decide (is_Some (desc_type dis)) then
    mret tt
  else delete_dispatcher name.

(** [self._dispatchers[name].set] on [dis['runtime_settings']], line 170. *)
Definition set_dispatcher (name : string) (dis : descriptor) : M unit :=
  d ← dispatcher_at name;
  runtime ← getkey "runtime_settings" (desc_runtime_settings dis);
  modify (upd_dispatchers (<[name :=
    Dispatcher.with_settings
      (ehd_set (Dispatcher.cls d) (Dispatcher._settings d) runtime) d]>)).

(** The [try] block of lines 150-162, after the test of ['type']. *)
Definition build_dispatcher (name ty : string) (dis : descriptor) : M Dispatcher.t :=
  emit (log_info ("Creating " +:+ ty +:+ " '" +:+ name +:+ "' ")) ;;
  qid ← fresh;
  modify (upd_queue (<[name := mkQueue qid []]>)) ;;
  class ← match ehd ty with
          | Some class => mret class
          | None => raise (AttributeError ty)
          end;
  _ ← queue_at name;
  init ← getkey "init_settings" (desc_init_settings dis);
  '(s, b) ← call (class name init);
  id ← fresh;
  let dispatcher := Dispatcher.mk id ty init s b false in
  backup ← gets temp_buffer;
  match backup !! name with
  | Some saved =>
      modify (upd_temp_buffer (delete name)) ;;
      mret (Dispatcher.with_data_buffer saved dispatcher)
  | None => mret dispatcher
  end.

(** Body of the second dispatcher loop, lines 148-170. *)
Definition create_dispatcher (name : string) (dis : descriptor) : M unit :=
  ds ← gets _dispatchers;
  match ds !! name with
  | None =>
      match desc_type dis with
      | None => mret tt
      | Some ty =>
          built ← try_except (Some <$> build_dispatcher name ty dis)
                   (λ e, match e with
                         | EmonHubDispatcherInitError msg =>
                             Some (emit (log_error ("Failed to create '" +:+ name
                                                    +:+ "' dispatcher: " +:+ msg)) ;;
                                   mret None)
                         | _ => None
                         end);
          match built with
          | None => mret tt
          | Some dispatcher =>
              modify (upd_dispatchers (<[name := dispatcher]>)) ;;
              set_dispatcher name dis
          end
      end
  | Some _ => set_dispatcher name dis
  end.

(** Lines 181-183. *)
Definition delete_listener (name : string) : M unit :=
  l ← listener_at name;
  emit (listener_close (Listener.id l)) ;;
  emit (log_info ("Deleting listener '" +:+ name +:+ "' ")) ;;
  modify (upd_listeners (delete name)).

(** Body of the first listener loop, lines 174-183. *)
Definition check_listener (settings : Settings) (name : string) : M unit :=
  l ← listener_at name;
  lis ← getitem (listeners settings) name;
  init ← getkey "init_settings" (desc_init_settings lis);
  if decide (Listener.init_settings l ≠ init) then
    delete_listener name
  else if bool_decide (is_Some (listeners settings !! name))
          && bool_decide (is_Some (desc_type lis)) then
    mret tt
  else delete_listener name.

(** [self._listeners[name].set] on [lis['runtime_settings']], line 202. *)
Definition set_listener (name : string) (lis : descriptor) : M unit :=
  l ← listener_at name;
  runtime ← getkey "runtime_settings" (desc_runtime_settings lis);
  modify (upd_listeners (<[name :=
    Listener.with_settings
      (ehl_set (Listener.cls l) (Listener._settings l) runtime) l]>)).

(** The [try] block of lines 187-193, after the test of ['type']. *)
Definition build_listener (name ty : string) (lis : descriptor) : M Listener.t :=
  emit (log_info ("Creating " +:+ ty +:+ " '" +:+ name +:+ "' ")) ;;
  class ← match ehl ty with
          | Some class => mret class
          | None => raise (AttributeError ty)
          end;
  init ← getkey "init_settings" (desc_init_settings lis);
  '(s, src) ← call (class init);
  id ← fresh;
  mret (Listener.mk id ty None init s src).

(** Body of the second listener loop, lines 185-202. *)
Definition create_listener (name : string) (lis : descriptor) : M unit :=
  ls ← gets _listeners;
  match ls !! name with
  | None =>
      match desc_type lis with
      | None => mret tt
      | Some ty =>
          built ← try_except (Some <$> build_listener name ty lis)
                   (λ e, match e with
                         | EmonHubListenerInitError msg =>
                             Some (emit (log_error ("Failed to create '" +:+ name
                                                    +:+ "' listener: " +:+ msg)) ;;
                                   mret None)
                         | _ => None
                         end);
          match built with
          | None => mret tt
          | Some listener =>
              modify (upd_listeners (<[name := Listener.with_name name listener]>)) ;;
              set_listener name lis
          end
      end
  | Some _ => set_listener name lis
  end.

(** The names a [for name in d.keys()] loop visits. *)
Definition keys {V} (d : gmap string V) : list string := (map_to_list d).*1.

Definition _update_settings (settings : Settings) : M unit :=
  _set_logging_level (hub_loglevel settings) ;;
  modify (upd_temp_buffer (λ _, ∅)) ;;
  (* Dispatchers *)
  names ← gets (λ h, keys (_dispatchers h));
  for_ names (check_dispatcher settings) ;;
  for_ (map_to_list (dispatchers settings))
       (λ item, create_dispatcher item.1 item.2) ;;
  (* Listeners *)
  names ← gets (λ h, keys (_listeners h));
  for_ names (check_listener settings) ;;
  for_ (map_to_list (listeners settings))
       (λ item, create_listener item.1 item.2) ;;
  match nodes settings with
  | Some n => modify (set_nodelist n)
  | None => mret tt
  end.

(** The object that [EmonHub(interface)] makes and hands to [__init__]
    has none of the attributes yet: the tables are taken as empty.  The
    logger, the table [ehc.nodelist], the value records and the object
    identities are not the hub's own and stay. *)
Definition new_object (h : EmonHub) : EmonHub :=
  mkHub (_exit h) (_log_level h) ∅ ∅ ∅ ∅ (nodelist h) (heap h) (next_id h) (trace h).

(** [EmonHub.__init__], given the level of the logger and the table
    [ehc.nodelist] at that time. *)
Definition new_hub (level : nat) (table : gmap string (gmap string pyval)) : EmonHub :=
  mkHub false level ∅ ∅ ∅ ∅ table ∅ 0 [].

Definition __init__ (settings : Settings) : M unit :=
  modify new_object ;;
  modify (set_exit false) ;;
  _set_logging_level (hub_loglevel settings) ;;
  emit (log_info "EmonHub Pre-Release Development Version") ;;
  emit (log_info "Opening hub...") ;;
  modify (upd_dispatchers (λ _, ∅)) ;;
  modify (upd_listeners (λ _, ∅)) ;;
  modify (upd_queue (λ _, ∅)) ;;
  _update_settings settings.

(** ** The main loop *)

(** Lines 94-100: the loop over the dispatchers for one value record;
    [values] is the reference of the record. *)
Definition fan_out_one (values : nat) (name : string) : M unit :=
  d ← dispatcher_at name;
  if paused (Dispatcher._settings d) then mret tt
  else
    q ← queue_at name;
    modify (upd_queue (<[name := put values q]>)).

Definition fan_out (values : nat) : M unit :=
  names ← gets (λ h, keys (_dispatchers h));
  for_ names (fan_out_one values).

(** Lines 87-100: one listener of the loop over the listeners.  The
    record that [read] returns is a new object. *)
Definition poll (name : string) : M unit :=
  l ← listener_at name;
  emit (listener_run (Listener.id l)) ;;
  let '(values, l') := Listener.read l in
  modify (upd_listeners (<[name := l']>)) ;;
  match values with
  | None => emit (listener_read (Listener.id l) None)
  | Some v =>
      r ← fresh;
      modify (upd_heap (<[r := v]>)) ;;
      emit (listener_read (Listener.id l) (Some r)) ;;
      fan_out r
  end.

(** Lines 86-100: the loop over the listeners. *)
Definition poll_all (names : list string) : M unit :=
  for_ names poll.

End hub.

(** The code of an iteration of the main loop once more, definition for
    definition as above, with every operation of the hub monad a step of
    its own, so that the signal can arrive between any two of them. *)
Module Steps.

Definition atomic {A} (m : M A) : Prog A := Do m Ret.
Definition raise {A} (e : exn) : Prog A := atomic (raise e).
Definition gets {A} (f : EmonHub → A) : Prog A := atomic (gets f).
Definition modify (f : EmonHub → EmonHub) : Prog unit := atomic (modify f).
Definition emit (e : event) : Prog unit := atomic (emit e).
Definition fresh : Prog nat := atomic fresh.
Definition getitem {V} (d : gmap string V) (key : string) : Prog V :=
  atomic (getitem d key).
Definition getkey {V} (key : string) (field : option V) : Prog V :=
  atomic (getkey key field).
Definition call {A} (r : exn + A) : Prog A := atomic (call r).

Fixpoint for_ {A} (xs : list A) (body : A → Prog unit) : Prog unit :=
  match xs with
  | [] => mret tt
  | x :: xs' => body x ;; for_ xs' body
  end.

(** The [try] block with the clause that [handler] gives for the
    exceptions it names; [body] stands in where there is no clause, and is
    not run there. *)
Definition try_except {A} (body : Prog A) (handler : exn → option (Prog A)) : Prog A :=
  Try body (λ e, if handler e is Some _ then true else false)
      (λ e, default body (handler e)) Ret.

Section hub.
Context `{Components}.

Definition _set_logging_level (level : string) : Prog unit :=
  match logging_getattr level with
  | None => emit (log_error ("Logging level " +:+ level +:+ " invalid"))
  | Some loglevel =>
      current ← gets _log_level;
      if decide (loglevel ≠ Some current) then
        match logging_setLevel level with
        | Some n => modify (set_log_level n)
        | None => raise (ValueError ("Unknown level: '" +:+ level +:+ "'"))
        end ;;
        emit (log_info ("Logging level set to " +:+ level))
      else mret tt
  end.

Definition dispatcher_at (name : string) : Prog Dispatcher.t :=
  ds ← gets _dispatchers; getitem ds name.

Definition listener_at (name : string) : Prog Listener.t :=
  ls ← gets _listeners; getitem ls name.

Definition queue_at (name : string) : Prog Queue :=
  qs ← gets _queue; getitem qs name.

Definition set_stop (name : string) : Prog unit :=
  d ← dispatcher_at name;
  modify (upd_dispatchers (<[name := Dispatcher.with_stop true d]>)) ;;
  emit (dispatcher_stop (Dispatcher.id d)).

Definition delete_dispatcher (name : string) : Prog unit :=
  emit (log_info ("Deleting dispatcher '" +:+ name +:+ "'")) ;;
  set_stop name ;;
  modify (upd_dispatchers (delete name)).

Definition check_dispatcher (settings : Settings) (name : string) : Prog unit :=
  d ← dispatcher_at name;
  dis ← getitem (dispatchers settings) name;
  init ← getkey "init_settings" (desc_init_settings dis);
  if decide (Dispatcher.init_settings d ≠ init) then
    (if decide (Dispatcher._data_buffer d ≠ []) then
       modify (upd_temp_buffer (<[name := Dispatcher._data_buffer d]>))
     else mret tt) ;;
    delete_dispatcher name
  else if bool_decide (is_Some (dispatchers settings !! name))
          && bool_decide (is_Some (desc_type dis)) then
    mret tt
  else delete_dispatcher name.

Definition set_dispatcher (name : string) (dis : descriptor) : Prog unit :=
  d ← dispatcher_at name;
  runtime ← getkey "runtime_settings" (desc_runtime_settings dis);
  modify (upd_dispatchers (<[name :=
    Dispatcher.with_settings
      (ehd_set (Dispatcher.cls d) (Dispatcher._settings d) runtime) d]>)).

Definition build_dispatcher (name ty : string) (dis : descriptor) : Prog Dispatcher.t :=
  emit (log_info ("Creating " +:+ ty +:+ " '" +:+ name +:+ "' ")) ;;
  qid ← fresh;
  modify (upd_queue (<[name := mkQueue qid []]>)) ;;
  class ← match ehd ty with
          | Some class => mret class
          | None => raise (AttributeError ty)
          end;
  _ ← queue_at name;
  init ← getkey "init_settings" (desc_init_settings dis);
  '(s, b) ← call (class name init);
  id ← fresh;
  let dispatcher := Dispatcher.mk id ty init s b false in
  backup ← gets temp_buffer;
  match backup !! name with
  | Some saved =>
      modify (upd_temp_buffer (delete name)) ;;
      mret (Dispatcher.with_data_buffer saved dispatcher)
  | None => mret dispatcher
  end.

Definition create_dispatcher (name : string) (dis : descriptor) : Prog unit :=
  ds ← gets _dispatchers;
  match ds !! name with
  | None =>
      match desc_type dis with
      | None => mret tt
      | Some ty =>
          built ← try_except (Some <$> build_dispatcher name ty dis)
                   (λ e, match e with
                         | EmonHubDispatcherInitError msg =>
                             Some (emit (log_error ("Failed to create '" +:+ name
                                                    +:+ "' dispatcher: " +:+ msg)) ;;
                                   mret None)
                         | _ => None
                         end);
          match built with
          | None => mret tt
          | Some dispatcher =>
              modify (upd_dispatchers (<[name := dispatcher]>)) ;;
              set_dispatcher name dis
          end
      end
  | Some _ => set_dispatcher name dis
  end.

Definition delete_listener (name : string) : Prog unit :=
  l ← listener_at name;
  emit (listener_close (Listener.id l)) ;;
  emit (log_info ("Deleting listener '" +:+ name +:+ "' ")) ;;
  modify (upd_listeners (delete name)).

Definition check_listener (settings : Settings) (name : string) : Prog unit :=
  l ← listener_at name;
  lis ← getitem (listeners settings) name;
  init ← getkey "init_settings" (desc_init_settings lis);
  if decide (Listener.init_settings l ≠ init) then
    delete_listener name
  else if bool_decide (is_Some (listeners settings !! name))
          && bool_decide (is_Some (desc_type lis)) then
    mret tt
  else delete_listener name.

Definition set_listener (name : string) (lis : descriptor) : Prog unit :=
  l ← listener_at name;
  runtime ← getkey "runtime_settings" (desc_runtime_settings lis);
  modify (upd_listeners (<[name :=
    Listener.with_settings
      (ehl_set (Listener.cls l) (Listener._settings l) runtime) l]>)).

Definition build_listener (name ty : string) (lis : descriptor) : Prog Listener.t :=
  emit (log_info ("Creating " +:+ ty +:+ " '" +:+ name +:+ "' ")) ;;
  class ← match ehl ty with
          | Some class => mret class
          | None => raise (AttributeError ty)
          end;
  init ← getkey "init_settings" (desc_init_settings lis);
  '(s, src) ← call (class init);
  id ← fresh;
  mret (Listener.mk id ty None init s src).

Definition create_listener (name : string) (lis : descriptor) : Prog unit :=
  ls ← gets _listeners;
  match ls !! name with
  | None =>
      match desc_type lis with
      | None => mret tt
      | Some ty =>
          built ← try_except (Some <$> build_listener name ty lis)
                   (λ e, match e with
                         | EmonHubListenerInitError msg =>
                             Some (emit (log_error ("Failed to create '" +:+ name
                                                    +:+ "' listener: " +:+ msg)) ;;
                                   mret None)
                         | _ => None
                         end);
          match built with
          | None => mret tt
          | Some listener =>
              modify (upd_listeners (<[name := Listener.with_name name listener]>)) ;;
              set_listener name lis
          end
      end
  | Some _ => set_listener name lis
  end.

Definition _update_settings (settings : Settings) : Prog unit :=
  _set_logging_level (hub_loglevel settings) ;;
  modify (upd_temp_buffer (λ _, ∅)) ;;

  names ← gets (λ h, keys (_dispatchers h));
  for_ names (check_dispatcher settings) ;;
  for_ (map_to_list (dispatchers settings))
       (λ item, create_dispatcher item.1 item.2) ;;

  names ← gets (λ h, keys (_listeners h));
  for_ names (check_listener settings) ;;
  for_ (map_to_list (listeners settings))
       (λ item, create_listener item.1 item.2) ;;
  match nodes settings with
  | Some n => modify (set_nodelist n)
  | None => mret tt
  end.

Definition fan_out_one (values : nat) (name : string) : Prog unit :=
  d ← dispatcher_at name;
  if paused (Dispatcher._settings d) then mret tt
  else
    q ← queue_at name;
    modify (upd_queue (<[name := put values q]>)).

Definition fan_out (values : nat) : Prog unit :=
  names ← gets (λ h, keys (_dispatchers h));
  for_ names (fan_out_one values).

Definition poll (name : string) : Prog unit :=
  l ← listener_at name;
  emit (listener_run (Listener.id l)) ;;
  let '(values, l') := Listener.read l in
  modify (upd_listeners (<[name := l']>)) ;;
  match values with
  | None => emit (listener_read (Listener.id l) None)
  | Some v =>
      r ← fresh;
      modify (upd_heap (<[r := v]>)) ;;
      emit (listener_read (Listener.id l) (Some r)) ;;
      fan_out r
  end.

Definition poll_all (names : list string) : Prog unit :=
  for_ names poll.

Definition iteration (changed : option Settings) : Prog unit :=
  emit interface_run ;;
  match changed with
  | Some settings => _update_settings settings
  | None => mret tt
  end ;;
  names ← gets (λ h, keys (_listeners h));
  poll_all names ;;
  emit sleep.

End hub.
End Steps.

Section loop.
Context `{Components}.

(** One iteration of the [while] loop, lines 80-103.  [changed] is the
    settings of the interface when [check_settings()] says they changed.
    [sigint] says when the signal arrives in the iteration, if it does:
    [Some None] before its first step, [Some (Some k)] after [k + 1] of
    its steps, and in the last of them, [time.sleep], when it has
    fewer. *)
Record tick := Tick {
  changed : option Settings;
  sigint : option (option nat)
}.

Definition iteration (t : tick) : M unit :=
  match sigint t with
  | None =>
      emit interface_run ;;
      match changed t with
      | Some settings => _update_settings settings
      | None => mret tt
      end ;;
      names ← gets (λ h, keys (_listeners h));
      poll_all names ;;
      emit sleep
  | Some pos =>
      interrupted_at (from_option S 0 pos) (Steps.iteration (changed t))
  end.

(** [run]: the loop, for the iterations the list describes. *)
Fixpoint run (ticks : list tick) : M unit :=
  stop ← gets _exit;
  if (stop : bool) then mret tt
  else match ticks with
       | [] => mret tt
       | t :: ticks' => iteration t ;; run ticks'
       end.

Definition close : M unit :=
  ls ← gets (λ h, map_to_list (_listeners h));
  for_ ls (λ item, emit (listener_close (Listener.id item.2))) ;;
  names ← gets (λ h, keys (_dispatchers h));
  for_ names set_stop ;;
  emit (log_info "Exiting hub...") ;;
  emit logging_shutdown.

(** [hub.run(); hub.close()] of the main program. *)
Definition main (ticks : list tick) : M unit :=
  run ticks ;; close.

End loop.

(** ** Test components

    A dispatcher class and a listener class to run the hub on.  Both
    reject [init_settings] that contain the key ["bad"], with their
    [InitError]; [set] writes the keyword arguments over the current
    settings.  The module [logging] is that of Python 2.7, with the root
    logger at its default level [WARNING]. *)

Definition test_dispatcher_class (name : string) (init : gmap string pyval)
    : exn + (gmap string pyval * list nat) :=
  if bool_decide (is_Some (init !! "bad"))
  then inl (EmonHubDispatcherInitError "bad init_settings")
  else inr (∅, []).

Definition test_listener_class (init : gmap string pyval)
    : exn + (gmap string pyval * list (option (list Z))) :=
  if bool_decide (is_Some (init !! "bad"))
  then inl (EmonHubListenerInitError "bad init_settings")
  else inr (∅, [Some [10; 20; 30]%Z; None; Some [11; 21; 31]%Z]).

(** The level constants of [logging], some of its functions, and the
    names that [setLevel] knows ([logging._levelNames]); [NOTSET] leaves
    the effective level to the root logger. *)
Definition test_logging_getattr (level : string) : option (option nat) :=
  if decide (level = "DEBUG") then Some (Some 10)
  else if decide (level = "INFO") then Some (Some 20)
  else if decide (level = "WARNING") then Some (Some 30)
  else if decide (level = "WARN") then Some (Some 30)
  else if decide (level = "ERROR") then Some (Some 40)
  else if decide (level = "CRITICAL") then Some (Some 50)
  else if decide (level = "FATAL") then Some (Some 50)
  else if decide (level = "NOTSET") then Some (Some 0)
  else if decide (level ∈ ["debug"; "info"; "warning"; "warn"; "error"; "critical";
                           "log"; "getLogger"; "shutdown"; "Logger"; "Handler"])
       then Some None
  else None.

Definition test_logging_setLevel (level : string) : option nat :=
  if decide (level = "DEBUG") then Some 10
  else if decide (level = "INFO") then Some 20
  else if decide (level = "WARNING") then Some 30
  else if decide (level = "WARN") then Some 30
  else if decide (level = "ERROR") then Some 40
  else if decide (level = "CRITICAL") then Some 50
  else if decide (level = "NOTSET") then Some 30
  else None.

Definition test_components : Components := {|
  ehd ty := if decide (ty = "EmonHubEmoncmsDispatcher")
            then Some test_dispatcher_class else None;
  ehd_set _ current kwargs := kwargs ∪ current;
  ehl ty := if decide (ty = "EmonHubJeeListener")
            then Some test_listener_class else None;
  ehl_set _ current kwargs := kwargs ∪ current;
  logging_getattr := test_logging_getattr;
  logging_setLevel := test_logging_setLevel
|}.

(** The test components at a later time, when the dispatcher class has
    come to accept every [init_settings] (the server it connects to is
    back, say). *)
Definition recovered_components : Components := {|
  ehd ty := if decide (ty = "EmonHubEmoncmsDispatcher")
            then Some (λ _ _, inr (∅, [])) else None;
  ehd_set _ current kwargs := kwargs ∪ current;
  ehl ty := if decide (ty = "EmonHubJeeListener")
            then Some test_listener_class else None;
  ehl_set _ current kwargs := kwargs ∪ current;
  logging_getattr := test_logging_getattr;
  logging_setLevel := test_logging_setLevel
|}.

Definition port (p : string) : gmap string pyval := {[ "com_port" := PStr p ]}.
Definition url (u : string) : gmap string pyval := {[ "url" := PStr u ]}.
Definition pause (v : string) : gmap string pyval := {[ "pause" := PStr v ]}.

Definition a_dispatcher (init runtime : gmap string pyval) : descriptor :=
  Descriptor (Some "EmonHubEmoncmsDispatcher") (Some init) (Some runtime).
Definition a_listener (init runtime : gmap string pyval) : descriptor :=
  Descriptor (Some "EmonHubJeeListener") (Some init) (Some runtime).

(** The hub after [__init__] on settings [s]. *)
Definition started (s : Settings) : EmonHub :=
  state_of (__init__ (H := test_components) s (new_hub 30 ∅)).

(** One listener and two dispatchers, the second paused. *)
Definition settings0 : Settings := {|
  hub_loglevel := "DEBUG";
  dispatchers := {[ "D1" := a_dispatcher (url "a") ∅;
                    "D2" := a_dispatcher (url "b") (pause "true") ]};
  listeners := {[ "L1" := a_listener (port "/dev/ttyAMA0") ∅ ]};
  nodes := None
|}.

(** The hub started on [settings0], once its dispatcher D1 has retained
    two records. *)
Definition hub_buffered : EmonHub :=
  upd_dispatchers (alter (Dispatcher.with_data_buffer [7; 8]) "D1") (started settings0).

(** [settings0] with another url for D1. *)
Definition settings_moved : Settings := {|
  hub_loglevel := "DEBUG";
  dispatchers := {[ "D1" := a_dispatcher (url "c") ∅;
                    "D2" := a_dispatcher (url "b") (pause "true") ]};
  listeners := listeners settings0;
  nodes := None
|}.

(** [settings0] with [init_settings] for D1 that its class rejects. *)
Definition settings_rejected : Settings := {|
  hub_loglevel := "DEBUG";
  dispatchers := {[ "D1" := a_dispatcher {[ "bad" := PStr "yes" ]} ∅;
                    "D2" := a_dispatcher (url "b") (pause "true") ]};
  listeners := listeners settings0;
  nodes := None
|}.

(** [settings0] with another url for D1 and a type for D2 that the module
    [emonhub_dispatcher] does not have. *)
Definition settings_unknown : Settings := {|
  hub_loglevel := "DEBUG";
  dispatchers := {[ "D1" := a_dispatcher (url "c") ∅;
                    "D2" := Descriptor (Some "NoSuchDispatcher") (Some (url "d")) (Some ∅) ]};
  listeners := listeners settings0;
  nodes := None
|}.

(** [settings0] without D2. *)
Definition settings_without_D2 : Settings := {|
  hub_loglevel := "DEBUG";
  dispatchers := {[ "D1" := a_dispatcher (url "a") ∅ ]};
  listeners := listeners settings0;
  nodes := None
|}.

(** [settings0] with the ['type'] of D2 and of L1 removed. *)
Definition settings_untyped : Settings := {|
  hub_loglevel := "DEBUG";
  dispatchers := {[ "D1" := a_dispatcher (url "a") ∅;
                    "D2" := Descriptor None (Some (url "b")) (Some (pause "true")) ]};
  listeners := {[ "L1" := Descriptor None (Some (port "/dev/ttyAMA0")) (Some ∅) ]};
  nodes := None
|}.

(** [settings0] with another port for L1. *)
Definition settings_port : Settings := {|
  hub_loglevel := "DEBUG";
  dispatchers := dispatchers settings0;
  listeners := {[ "L1" := a_listener (port "/dev/ttyUSB0") ∅ ]};
  nodes := None
|}.

(** [settings0] with both dispatchers taking input. *)
Definition settings_both : Settings := {|
  hub_loglevel := "DEBUG";
  dispatchers := {[ "D1" := a_dispatcher (url "a") ∅;
                    "D2" := a_dispatcher (url "b") ∅ ]};
  listeners := listeners settings0;
  nodes := None
|}.

(** A tick on the test components. *)
Abbreviation tick_on := (_update_settings (H := test_components)).

(** Two dispatchers that can be created, and a third one, [d3]. *)
Definition settings_three (d3 : descriptor) : Settings := {|
  hub_loglevel := "INFO";
  dispatchers := {[ "D1" := a_dispatcher (url "a") ∅;
                    "D2" := a_dispatcher (url "b") ∅;
                    "D3" := d3 ]};
  listeners := ∅;
  nodes := None
|}.

(** A descriptor whose type the module [emonhub_dispatcher] does not
    have, and one whose [init_settings] the class rejects. *)
Definition unknown_type : descriptor :=
  Descriptor (Some "NoSuchDispatcher") (Some (url "c")) (Some ∅).
Definition rejected_init : descriptor :=
  a_dispatcher {[ "bad" := PStr "yes" ]} ∅.

(** [settings0] with [init_settings] for L1 that its class rejects. *)
Definition settings_bad_listener : Settings := {|
  hub_loglevel := "DEBUG";
  dispatchers := dispatchers settings0;
  listeners := {[ "L1" := a_listener {[ "bad" := PStr "yes" ]} ∅ ]};
  nodes := None
|}.

(** [settings0] with the level name in lower case. *)
Definition settings_lowercase : Settings := {|
  hub_loglevel := "debug";
  dispatchers := dispatchers settings0;
  listeners := listeners settings0;
  nodes := None
|}.

(** ** Vocabulary of the properties *)

(** [preserves R m]: the hub that [m] leaves, whether it returns or
    raises, is related by [R] to the hub it started from. *)
Definition preserves {A} (R : relation EmonHub) (m : M A) : Prop :=
  ∀ h, R h (state_of (m h)).

(** The shared node table [ehc.nodelist] is the same in both hubs. *)
Definition same_nodelist : relation EmonHub :=
  λ h h', nodelist h' = nodelist h.

(** Every live dispatcher has an entry in [self._queue]. *)
Definition queues_present (h : EmonHub) : Prop :=
  dom (_dispatchers h) ⊆ dom (_queue h).

(** The value records that the listeners [names] hand out when each is
    read once, in that order. *)
Definition produced_by (ls : gmap string Listener.t) (names : list string)
    : list (list Z) :=
  omap (λ name, l ← ls !! name; (Listener.read l).1) names.

(** The value records of one pass of [run] over the listeners. *)
Definition produced (h : EmonHub) : list (list Z) :=
  produced_by (_listeners h) (keys (_listeners h)).

(** The queue of dispatcher [d] after the record [r] was fanned out. *)
Definition delivered (r : nat) (d : Dispatcher.t) (q : Queue) : Queue :=
  if paused (Dispatcher._settings d) then q else put r q.

(** What only ever grows while the hub runs: the object identities handed
    out, the trace, and the names that have a queue. *)
Definition extends : relation EmonHub := λ h h',
  next_id h ≤ next_id h' ∧
  (∃ t, trace h' = t ++ trace h) ∧
  dom (_queue h) ⊆ dom (_queue h').

(** Nothing the hub holds under [name] differs between the two hubs. *)
Definition untouched (name : string) : relation EmonHub := λ h h',
  _dispatchers h' !! name = _dispatchers h !! name ∧
  _queue h' !! name = _queue h !! name ∧
  temp_buffer h' !! name = temp_buffer h !! name ∧
  _listeners h' !! name = _listeners h !! name.

(** The dispatcher side of the hub is the same in both hubs. *)
Definition same_dispatchers : relation EmonHub := λ h h',
  _dispatchers h' = _dispatchers h ∧
  _queue h' = _queue h ∧
  temp_buffer h' = temp_buffer h.

(** The listener side of the hub is the same in both hubs. *)
Definition same_listeners : relation EmonHub := λ h h',
  _listeners h' = _listeners h.

(** What the second dispatcher loop of a tick from [h] to [h'] did for a
    descriptor [dis] named [name] that had no live dispatcher then, with
    [saved] the buffer backed up under that name, if any.  Without
    ['type'] nothing happens.  Otherwise a queue is made, and the class
    either rejects the [init_settings], or builds the dispatcher, which
    takes the saved buffer over. *)
Definition created_as `{Components} (name : string) (dis : descriptor)
    (saved : option (list nat)) (h h' : EmonHub) : Prop :=
  match desc_type dis with
  | None =>
      _dispatchers h' !! name = None ∧
      _queue h' !! name = _queue h !! name ∧
      temp_buffer h' !! name = saved
  | Some ty =>
      ∃ class init qid,
        ehd ty = Some class ∧
        desc_init_settings dis = Some init ∧
        next_id h ≤ qid ∧
        _queue h' !! name = Some (mkQueue qid []) ∧
        match class name init with
        | inl (EmonHubDispatcherInitError msg) =>
            _dispatchers h' !! name = None ∧
            temp_buffer h' !! name = saved ∧
            log_error ("Failed to create '" +:+ name +:+ "' dispatcher: " +:+ msg)
              ∈ trace h'
        | inl _ => False
        | inr (s, b) =>
            ∃ runtime,
              desc_runtime_settings dis = Some runtime ∧
              _dispatchers h' !! name =
              Some (Dispatcher.mk (S qid) ty init (ehd_set ty s runtime)
                      (default b saved) false) ∧
              temp_buffer h' !! name = None
        end
  end.

(** The buffer that the first dispatcher loop backs up for the live
    dispatcher [d] when the settings say [init]. *)
Definition backed_up (d : Dispatcher.t) (init : gmap string pyval) : option (list nat) :=
  if decide (Dispatcher.init_settings d = init) then None
  else if decide (Dispatcher._data_buffer d = []) then None
  else Some (Dispatcher._data_buffer d).

(** What the second listener loop of a tick from [h] to [h'] did for a
    descriptor [lis] named [name] that had no live listener then. *)
Definition listener_created_as `{Components} (name : string) (lis : descriptor)
    (h h' : EmonHub) : Prop :=
  match desc_type lis with
  | None => _listeners h' !! name = None
  | Some ty =>
      ∃ class init,
        ehl ty = Some class ∧
        desc_init_settings lis = Some init ∧
        match class init with
        | inl (EmonHubListenerInitError msg) =>
            _listeners h' !! name = None ∧
            log_error ("Failed to create '" +:+ name +:+ "' listener: " +:+ msg)
              ∈ trace h'
        | inl _ => False
        | inr (s, src) =>
            ∃ runtime id,
              desc_runtime_settings lis = Some runtime ∧
              next_id h ≤ id ∧
              _listeners h' !! name =
              Some (Listener.mk id ty (Some name) init (ehl_set ty s runtime) src)
        end
  end.

(** What the consumer of the queue of dispatcher [name] reads from it: the
    value records behind the references on the queue, oldest first. *)
Definition observed (name : string) (h : EmonHub) : option (list (list Z)) :=
  q ← _queue h !! name; Some (omap (λ r, heap h !! r) (q_items q)).

(** A dispatcher changing, in place, the value record it took from its
    queue. *)
Definition mutate (r : nat) (f : list Z → list Z) (h : EmonHub) : EmonHub :=
  upd_heap (alter f r) h.

(** [queues_present] is kept, and no name loses its queue. *)
Definition keeps_queues : relation EmonHub := λ h h',
  (queues_present h → queues_present h') ∧
  dom (_queue h) ⊆ dom (_queue h').

(** A dispatcher descriptor that the hub can process without an exception
    escaping: it has ['init_settings'] and ['runtime_settings'], and if it
    has a ['type'], the module has a class of that name, which builds the
    dispatcher or raises its [EmonHubDispatcherInitError]. *)
Definition dispatcher_descriptor_ok `{Components} (name : string) (dis : descriptor)
    : bool :=
  match desc_init_settings dis, desc_runtime_settings dis with
  | Some init, Some _ =>
      match desc_type dis with
      | None => true
      | Some ty =>
          match ehd ty with
          | Some class =>
              match class name init with
              | inl (EmonHubDispatcherInitError _) | inr _ => true
              | inl _ => false
              end
          | None => false
          end
      end
  | _, _ => false
  end.

(** The same for a listener descriptor. *)
Definition listener_descriptor_ok `{Components} (lis : descriptor) : bool :=
  match desc_init_settings lis, desc_runtime_settings lis with
  | Some init, Some _ =>
      match desc_type lis with
      | None => true
      | Some ty =>
          match ehl ty with
          | Some class =>
              match class init with
              | inl (EmonHubListenerInitError _) | inr _ => true
              | inl _ => false
              end
          | None => false
          end
      end
  | _, _ => false
  end.

(** A level name on which [_set_logging_level] returns: [logging] has no
    such attribute, or the attribute is the level of the logger, or
    [setLevel] knows the name. *)
Definition level_ok `{Components} (level : string) (h : EmonHub) : bool :=
  match logging_getattr level with
  | None => true
  | Some loglevel =>
      bool_decide (loglevel = Some (_log_level h))
      || bool_decide (is_Some (logging_setLevel level))
  end.

(** Settings with such a level name that list every live component and
    whose descriptors are all of this kind. *)
Definition settings_ok `{Components} (settings : Settings) (h : EmonHub) : Prop :=
  level_ok (hub_loglevel settings) h = true ∧
  dom (_dispatchers h) ⊆ dom (dispatchers settings) ∧
  dom (_listeners h) ⊆ dom (listeners settings) ∧
  map_Forall (λ name dis, dispatcher_descriptor_ok name dis = true)
             (dispatchers settings) ∧
  map_Forall (λ _ lis, listener_descriptor_ok lis = true) (listeners settings).

(** The tick keeps the live dispatcher of that name: the [init_settings]
    are those recorded and the descriptor has a type. *)
Definition kept_by (h : EmonHub) (name : string) (dis : descriptor) : bool :=
  match _dispatchers h !! name with
  | Some d =>
      bool_decide (desc_init_settings dis = Some (Dispatcher.init_settings d))
      && bool_decide (is_Some (desc_type dis))
  | None => false
  end.

(** The descriptor has a type whose class builds the dispatcher. *)
Definition accepted `{Components} (name : string) (dis : descriptor) : bool :=
  match desc_type dis, desc_init_settings dis with
  | Some ty, Some init =>
      match ehd ty with
      | Some class => if class name init is inr _ then true else false
      | None => false
      end
  | _, _ => false
  end.

(** The descriptors that have a dispatcher after the tick. *)
Definition established `{Components} (h : EmonHub) (item : string * descriptor) : bool :=
  kept_by h item.1 item.2 || accepted item.1 item.2.

(** [h1] is the hub [h0] in which, at some earlier time, the interrupt
    handler ran: the exit flag is set, the trace has the debug line of the
    handler somewhere, and nothing else differs. *)
Definition interrupted : relation EmonHub := λ h0 h1,
  _exit h1 = true ∧
  _log_level h1 = _log_level h0 ∧
  _dispatchers h1 = _dispatchers h0 ∧
  _listeners h1 = _listeners h0 ∧
  _queue h1 = _queue h0 ∧
  temp_buffer h1 = temp_buffer h0 ∧
  nodelist h1 = nodelist h0 ∧
  heap h1 = heap h0 ∧
  next_id h1 = next_id h0 ∧
  ∃ t1 t2, trace h0 = t1 ++ t2 ∧
           trace h1 = t1 ++ log_debug "SIGINT received." :: t2.

(** Two runs end the same way, in hubs related by [R]. *)
Definition same_outcome {A} (R : relation EmonHub) (o0 o1 : outcome A) : Prop :=
  match o0, o1 with
  | Ok a0 h0, Ok a1 h1 => a0 = a1 ∧ R h0 h1
  | Raise e0 h0, Raise e1 h1 => e0 = e1 ∧ R h0 h1
  | _, _ => False
  end.

(** [m] does the same from hubs related by [R]. *)
Definition respects {A} (R : relation EmonHub) (m : M A) : Prop :=
  ∀ h0 h1, R h0 h1 → same_outcome R (m h0) (m h1).

(** The run that ended in [o1] is the run that ended in [o0] with the
    interrupt arriving in between, unless it raised before the interrupt
    arrived. *)
Definition interrupted_run {A} (o0 o1 : outcome A) : Prop :=
  same_outcome interrupted o0 o1 ∨
  ∃ e h, o0 = Raise e h ∧ o1 = Raise e h.

(** The events of polling a listener. *)
Definition is_poll (e : event) : bool :=
  match e with
  | listener_run _ | listener_read _ _ => true
  | _ => false
  end.

(** No listener is polled between the two hubs. *)
Definition no_poll : relation EmonHub := λ h h',
  filter is_poll (trace h') = filter is_poll (trace h).

(** The steps of [p], run one after the other, are [m]. *)
Definition agrees {A} (p : Prog A) (m : M A) : Prop :=
  ∀ h, exec p h = m h.

(** A step that does the same whether or not the handler ran before it. *)
Definition respects_interrupt : ∀ B, M B → Prop :=
  λ B m, respects interrupted m.

(** [p] is [m] step by step, and the handler may run between any two of
    the steps. *)
Definition faithful {A} (p : Prog A) (m : M A) : Prop :=
  agrees p m ∧ all_steps respects_interrupt p.

(** [r] is a run in which the signal was due: it has not arrived yet and
    the outcome is [o], that of the run without it, or it has, and the
    outcomes differ by the handler only. *)
Definition arrived {A} (o : outcome A) (r : outcome A * option nat) : Prop :=
  (is_Some r.2 ∧ r.1 = o) ∨ (r.2 = None ∧ same_outcome interrupted o r.1).

(** The live dispatcher [d] is as the settings describe it under [name]:
    the descriptor has a type, its ['init_settings'] are those the
    dispatcher records, and the ['runtime_settings'] were handed to [set]. *)
Definition dispatcher_as_listed `{Components} (settings : Settings) (name : string)
    (d : Dispatcher.t) : Prop :=
  ∃ dis runtime current,
    dispatchers settings !! name = Some dis ∧
    is_Some (desc_type dis) ∧
    desc_init_settings dis = Some (Dispatcher.init_settings d) ∧
    desc_runtime_settings dis = Some runtime ∧
    Dispatcher._settings d = ehd_set (Dispatcher.cls d) current runtime.

(** The same for a live listener. *)
Definition listener_as_listed `{Components} (settings : Settings) (name : string)
    (l : Listener.t) : Prop :=
  ∃ lis runtime current,
    listeners settings !! name = Some lis ∧
    is_Some (desc_type lis) ∧
    desc_init_settings lis = Some (Listener.init_settings l) ∧
    desc_runtime_settings lis = Some runtime ∧
    Listener._settings l = ehl_set (Listener.cls l) current runtime.

(** The exit flag and the value records are the same in both hubs, and a
    queue of [h'] is the queue that [h] has under that name, or a new and
    empty one. *)
Definition queues_kept_or_new : relation EmonHub := λ h h',
  _exit h' = _exit h ∧
  heap h' = heap h ∧
  next_id h ≤ next_id h' ∧
  ∀ name q', _queue h' !! name = Some q' →
             _queue h !! name = Some q' ∨ (q_items q' = [] ∧ next_id h ≤ q_id q').

(** The tick keeps the live listener of that name. *)
Definition listener_kept_by (h : EmonHub) (name : string) (lis : descriptor) : bool :=
  match _listeners h !! name with
  | Some l =>
      bool_decide (desc_init_settings lis = Some (Listener.init_settings l))
      && bool_decide (is_Some (desc_type lis))
  | None => false
  end.

(** The descriptor has a type whose class builds the listener. *)
Definition listener_accepted `{Components} (lis : descriptor) : bool :=
  match desc_type lis, desc_init_settings lis with
  | Some ty, Some init =>
      match ehl ty with
      | Some class => if class init is inr _ then true else false
      | None => false
      end
  | _, _ => false
  end.

(** The descriptors that have a listener after the tick. *)
Definition listener_established `{Components} (h : EmonHub) (item : string * descriptor)
    : bool :=
  listener_kept_by h item.1 item.2 || listener_accepted item.2.

(** The exit flag is the same in both hubs. *)
Definition same_exit : relation EmonHub := λ h h',
  _exit h' = _exit h.

(** Logging was not shut down between the two hubs. *)
Definition not_closed : relation EmonHub := λ h h',
  logging_shutdown ∈ trace h' → logging_shutdown ∈ trace h.

(** No live dispatcher has been told to stop. *)
Definition all_running (h : EmonHub) : Prop :=
  map_Forall (λ _ d, Dispatcher.stop d = false) (_dispatchers h).

(** [all_running] is kept. *)
Definition keeps_running : relation EmonHub := λ h h',
  all_running h → all_running h'.

(** What [close] leaves alone: everything but the dispatchers it holds,
    of which there are no new ones, and the trace. *)
Definition closes : relation EmonHub := λ h h',
  dom (_dispatchers h') ⊆ dom (_dispatchers h) ∧
  _exit h' = _exit h ∧
  _log_level h' = _log_level h ∧
  _listeners h' = _listeners h ∧
  _queue h' = _queue h ∧
  temp_buffer h' = temp_buffer h ∧
  nodelist h' = nodelist h ∧
  heap h' = heap h ∧
  next_id h' = next_id h.

(** A call that the hub makes on the listener with that identity. *)
Inductive listener_call :=
| Run (id : nat)                      (* l.run() *)
| Read (id : nat).                    (* l.read() *)

Definition call_of (e : event) : option listener_call :=
  match e with
  | listener_run id => Some (Run id)
  | listener_read id _ => Some (Read id)
  | _ => None
  end.

(** The calls made on listeners in a trace, oldest first. *)
Definition listener_calls (t : list event) : list listener_call :=
  omap call_of (rev t).

(** One pass over the listeners [names] of [ls]: [run()] and then [read()]
    on each, in that order. *)
Definition polled (ls : gmap string Listener.t) (names : list string)
    : list listener_call :=
  flat_map (λ name, match ls !! name with
                    | Some l => [Run (Listener.id l); Read (Listener.id l)]
                    | None => []
                    end) names.

(** The same calls were made on listeners in both hubs. *)
Definition same_calls : relation EmonHub := λ h h',
  listener_calls (trace h') = listener_calls (trace h).

(** * Properties *)

(** ** Reasoning about the hub monad *)

Lemma bind_unfold {A B} (m : M A) (f : A → M B) h :
  (m ≫= f) h = match m h with
               | Ok a h' => f a h'
               | Raise e h' => Raise e h'
               end.
Proof. reflexivity. Qed.

Lemma bind_Ok {A B} (m : M A) (f : A → M B) h b h' :
  (m ≫= f) h = Ok b h' ↔ ∃ a h1, m h = Ok a h1 ∧ f a h1 = Ok b h'.
Proof.
  rewrite bind_unfold. split.
  - destruct (m h) as [a h1|e h1]; [eauto | discriminate].
  - intros (a & h1 & -> & Hf). exact Hf.
Qed.

Lemma bind_Raise {A B} (m : M A) (f : A → M B) h e h' :
  (m ≫= f) h = Raise e h' ↔
  m h = Raise e h' ∨ ∃ a h1, m h = Ok a h1 ∧ f a h1 = Raise e h'.
Proof.
  rewrite bind_unfold. split.
  - destruct (m h) as [a h1|e1 h1]; [eauto | intros [= -> ->]; auto].
  - intros [-> | (a & h1 & -> & Hf)]; auto.
Qed.

Lemma for_nil {A} (body : A → M unit) h : for_ [] body h = Ok tt h.
Proof. reflexivity. Qed.

Lemma for_cons {A} (x : A) xs (body : A → M unit) :
  for_ (x :: xs) body = (body x ;; for_ xs body).
Proof. reflexivity. Qed.

Lemma for_app_Ok {A} (xs ys : list A) (body : A → M unit) h h' :
  for_ (xs ++ ys) body h = Ok tt h' ↔
  ∃ h1, for_ xs body h = Ok tt h1 ∧ for_ ys body h1 = Ok tt h'.
Proof.
  revert h. induction xs as [|x xs IH]; intros h; simpl.
  - split; [eauto | intros (h1 & [= <-] & Hys); exact Hys].
  - rewrite bind_Ok. split.
    + intros ([] & h1 & Hx & Hrest). apply IH in Hrest as (h2 & Hxs & Hys).
      exists h2. split; [|exact Hys]. apply bind_Ok. eauto.
    + intros (h2 & Hxs & Hys). apply bind_Ok in Hxs as ([] & h1 & Hx & Hxs).
      exists tt, h1. split; [exact Hx|]. apply IH. eauto.
Qed.

Section preserves.
Context (R : relation EmonHub) `{!PreOrder R}.

Lemma preserves_ret {A} (a : A) : preserves R (mret a).
Proof. intros h. simpl. reflexivity. Qed.

Lemma preserves_raise {A} e : preserves R (raise (A:=A) e).
Proof. intros h. simpl. reflexivity. Qed.

Lemma preserves_gets {A} (f : EmonHub → A) : preserves R (gets f).
Proof. intros h. simpl. reflexivity. Qed.

Lemma preserves_modify f : (∀ h, R h (f h)) → preserves R (modify f).
Proof. intros Hf h. apply Hf. Qed.

Lemma preserves_emit e : (∀ h, R h (upd_trace (cons e) h)) → preserves R (emit e).
Proof. apply preserves_modify. Qed.

Lemma preserves_fresh :
  (∀ h, R h (set_next_id (S (next_id h)) h)) → preserves R fresh.
Proof. intros Hf h. apply Hf. Qed.

Lemma preserves_bind {A B} (m : M A) (f : A → M B) :
  preserves R m → (∀ a, preserves R (f a)) → preserves R (m ≫= f).
Proof.
  intros Hm Hf h. rewrite bind_unfold. specialize (Hm h).
  destruct (m h) as [a h1|e h1]; simpl in *; [|exact Hm].
  etrans; [exact Hm | apply Hf].
Qed.

Lemma preserves_fmap {A B} (g : A → B) (m : M A) :
  preserves R m → preserves R (g <$> m).
Proof.
  intros Hm h. specialize (Hm h). unfold fmap, M_fmap.
  destruct (m h); exact Hm.
Qed.

Lemma preserves_try {A} (body : M A) handler :
  preserves R body →
  (∀ e k, handler e = Some k → preserves R k) →
  preserves R (try_except body handler).
Proof.
  intros Hb Hh h. specialize (Hb h). unfold try_except.
  destruct (body h) as [a h1|e h1]; simpl in *; [exact Hb|].
  destruct (handler e) as [k|] eqn:Hk; [|exact Hb].
  etrans; [exact Hb | eapply Hh, Hk].
Qed.

Lemma preserves_for {A} (xs : list A) (body : A → M unit) :
  (∀ x, x ∈ xs → preserves R (body x)) → preserves R (for_ xs body).
Proof.
  induction xs as [|x xs IH]; intros Hbody.
  - apply preserves_ret.
  - rewrite for_cons. apply preserves_bind.
    + apply Hbody. left.
    + intros _. apply IH. intros y Hy. apply Hbody. by right.
Qed.

Lemma preserves_getitem {V} (d : gmap string V) key : preserves R (getitem d key).
Proof. unfold getitem. destruct (d !! key); [apply preserves_ret | apply preserves_raise]. Qed.

Lemma preserves_getkey {V} key (field : option V) : preserves R (getkey key field).
Proof. unfold getkey. destruct field; [apply preserves_ret | apply preserves_raise]. Qed.

Lemma preserves_call {A} (r : exn + A) : preserves R (call r).
Proof. unfold call. destruct r; [apply preserves_raise | apply preserves_ret]. Qed.

Lemma preserves_Ok {A} (m : M A) h a h' : preserves R m → m h = Ok a h' → R h h'.
Proof. intros Hm Hh. specialize (Hm h). by rewrite Hh in Hm. Qed.

Lemma preserves_Raise {A} (m : M A) h e h' : preserves R m → m h = Raise e h' → R h h'.
Proof. intros Hm Hh. specialize (Hm h). by rewrite Hh in Hm. Qed.
End preserves.

(** Breaks [preserves R m] down along the structure of [m]; what remains
    are the state changes of [m], one goal [∀ h, R h (f h)] each. *)
Ltac preserves_step :=
  lazymatch goal with
  | |- PreOrder _ => typeclasses eauto
  | |- ∀ e k, _ = Some k → preserves _ _ => intros [] ? ?; simplify_eq
  | |- ∀ _, _ ∈ _ → preserves _ _ => intros ? ?
  | |- ∀ _, preserves _ _ => intros ?
  | |- preserves _ (mret _) => apply preserves_ret
  | |- preserves _ (raise _) => apply preserves_raise
  | |- preserves _ (gets _) => apply preserves_gets
  | |- preserves _ (getitem _ _) => apply preserves_getitem
  | |- preserves _ (getkey _ _) => apply preserves_getkey
  | |- preserves _ (call _) => apply preserves_call
  | |- preserves _ (_ ≫= _) => apply preserves_bind
  | |- preserves _ (_ <$> _) => apply preserves_fmap
  | |- preserves _ (for_ _ _) => apply preserves_for
  | |- preserves _ (try_except _ _) => apply preserves_try
  | |- preserves _ (emit _) => apply preserves_emit; intros ?
  | |- preserves _ (modify _) => apply preserves_modify; intros ?
  | |- preserves _ fresh => apply preserves_fresh; intros ?
  | |- preserves _ (match ?x with _ => _ end) => destruct x
  end.

Ltac preserves_tac := repeat preserves_step.

Ltac unfold_hub :=
  unfold _set_logging_level, check_dispatcher, create_dispatcher, build_dispatcher,
    set_dispatcher, delete_dispatcher, set_stop, check_listener, create_listener,
    build_listener, set_listener, delete_listener, dispatcher_at, listener_at,
    queue_at, _sigint_handler, fan_out, fan_out_one.

(** Runs the monadic operations of the goal up to the next lookup. *)
Ltac mrun :=
  unfold mbind, M_bind, mret, M_ret, emit, modify, gets, fresh, raise,
    getitem, getkey, call; simpl.

(** Turns the boolean tests among the hypotheses into propositions. *)
Ltac bool_facts :=
  repeat match goal with
  | Hb : bool_decide _ = true |- _ => apply bool_decide_eq_true in Hb
  | Hb : bool_decide _ = false |- _ => apply bool_decide_eq_false in Hb
  | Hb : _ && _ = true |- _ => apply andb_true_iff in Hb as [? ?]
  | Hb : _ && _ = false |- _ => apply andb_false_iff in Hb as [?|?]
  end.

Ltac unfold_hub_in Hrun :=
  unfold _set_logging_level, check_dispatcher, create_dispatcher, build_dispatcher,
    set_dispatcher, delete_dispatcher, set_stop, check_listener, create_listener,
    build_listener, set_listener, delete_listener, dispatcher_at, listener_at,
    queue_at, _sigint_handler, fan_out, fan_out_one in Hrun.

Ltac mrun_in Hrun :=
  unfold mbind, M_bind, mret, M_ret, emit, modify, gets, fresh, raise,
    getitem, getkey, call in Hrun; simpl in Hrun.

Section properties.
Context `{Components}.

(** ** The node table *)

#[local] Instance same_nodelist_preorder : PreOrder same_nodelist.
Proof. split; [done | intros h1 h2 h3; unfold same_nodelist; congruence]. Qed.

Lemma reconcile_steps_nodelist (settings : Settings) :
  preserves same_nodelist (_set_logging_level (hub_loglevel settings)) ∧
  (∀ name, preserves same_nodelist (check_dispatcher settings name)) ∧
  (∀ name dis, preserves same_nodelist (create_dispatcher name dis)) ∧
  (∀ name, preserves same_nodelist (check_listener settings name)) ∧
  (∀ name lis, preserves same_nodelist (create_listener name lis)).
Proof.
  split_and!; intros; unfold_hub; preserves_tac; done.
Qed.

(** C10. A tick whose settings have no ['nodes'] section leaves the
    shared node table as it was, also when the tick raises; the table is
    overwritten, with the ['nodes'] section, exactly by the ticks that
    carry one and run to their last statement. *)
Theorem nodelist_written_only_with_nodes (settings : Settings) (h : EmonHub) :
  nodelist (state_of (_update_settings settings h)) =
  match nodes settings, _update_settings settings h with
  | Some n, Ok _ _ => n
  | _, _ => nodelist h
  end.
Proof.
  destruct (reconcile_steps_nodelist settings) as (Hlog & Hcd & Hnd & Hcl & Hnl).
  assert (∀ o : outcome unit, match nodes settings, o with
                              | Some _, Ok _ _ | _, _ => nodelist h end = nodelist h)
    as Hsame by (intros []; by destruct (nodes settings)).
  unfold _update_settings.
  repeat match goal with
  | |- context [(?m ≫= ?f) ?h1] =>
      rewrite (bind_unfold m f h1);
      let E := fresh "E" in
      destruct (m h1) as [? ?|? ?] eqn:E;
      [ apply (preserves_Ok same_nodelist) in E; [|preserves_tac; done]
      | apply (preserves_Raise same_nodelist) in E; [|preserves_tac; done];
        simpl; unfold same_nodelist in *; destruct (nodes settings); congruence ]
  end.
  unfold same_nodelist in *.
  destruct (nodes settings); simpl; congruence.
Qed.

(** ** The fan-out pass *)

Lemma keys_NoDup {V} (d : gmap string V) : NoDup (keys d).
Proof. apply NoDup_fst_map_to_list. Qed.

Lemma elem_of_keys {V} (d : gmap string V) name : name ∈ keys d ↔ is_Some (d !! name).
Proof.
  unfold keys. rewrite list_elem_of_fmap. split.
  - intros ([k v] & -> & Hin). apply elem_of_map_to_list in Hin. eauto.
  - intros [v Hv]. exists (name, v). split; [done|]. by apply elem_of_map_to_list.
Qed.

Lemma paused_false (s : gmap string pyval) :
  paused s = false ↔
  s !! "pause" = None ∨ ∃ v, s !! "pause" = Some v ∧ v ∉ pause_in.
Proof.
  unfold paused. destruct (s !! "pause") as [v|] eqn:Hv; simpl.
  - rewrite bool_decide_eq_false. split.
    + intros Hn. right. eauto.
    + intros [|(v' & [= <-] & Hn)]; done.
  - split; [auto | done].
Qed.

Lemma fan_out_one_spec r name h d q :
  _dispatchers h !! name = Some d →
  _queue h !! name = Some q →
  fan_out_one r name h =
  Ok tt (if paused (Dispatcher._settings d) then h
         else upd_queue (<[name := put r q]>) h).
Proof.
  intros Hd Hq. unfold fan_out_one, dispatcher_at, queue_at.
  rewrite !bind_unfold. simpl. unfold getitem. rewrite Hd. simpl.
  destruct (paused _); [done|].
  rewrite !bind_unfold. simpl. by rewrite Hq.
Qed.

Lemma upd_queue_id h : upd_queue (λ _, _queue h) h = h.
Proof. by destruct h. Qed.

Lemma fan_out_names r names h :
  NoDup names →
  (∀ name, name ∈ names →
           is_Some (_dispatchers h !! name) ∧ is_Some (_queue h !! name)) →
  ∃ qs, for_ names (fan_out_one r) h = Ok tt (upd_queue (λ _, qs) h) ∧
        ∀ name, qs !! name =
                if decide (name ∈ names)
                then d ← _dispatchers h !! name;
                     q ← _queue h !! name; Some (delivered r d q)
                else _queue h !! name.
Proof.
  revert h. induction names as [|name names IH]; intros h Hnd Hin.
  - exists (_queue h). rewrite for_nil, upd_queue_id. split; [done|].
    intros name. case_decide as Hel; [by apply elem_of_nil in Hel | done].
  - apply NoDup_cons in Hnd as [Hname Hnd].
    destruct (Hin name) as [[d Hd] [q Hq]]; [left|].
    set (h1 := upd_queue (<[name := delivered r d q]>) h).
    assert (fan_out_one r name h = Ok tt h1) as Hone.
    { rewrite (fan_out_one_spec r name h d q Hd Hq). unfold h1, delivered.
      destruct (paused _); [|done].
      destruct h; unfold upd_queue; simpl in *. by rewrite insert_id. }
    destruct (IH h1 Hnd) as (qs & Hfor & Hqs).
    { intros name' Hel. destruct (Hin name') as [Hd' Hq']; [by right|].
      split; [done|]. simpl.
      destruct (decide (name = name')) as [->|Hne];
        [rewrite lookup_insert_eq; eauto | by rewrite lookup_insert_ne]. }
    exists qs. split.
    + rewrite for_cons, bind_unfold, Hone. exact Hfor.
    + intros name'. rewrite Hqs. simpl.
      destruct (decide (name = name')) as [<-|Hne].
      * rewrite decide_False by done. rewrite decide_True by left.
        rewrite lookup_insert_eq, Hd, Hq. done.
      * rewrite lookup_insert_ne by done.
        destruct (decide (name' ∈ names)) as [Hel|Hel].
        -- rewrite decide_True by (by right). done.
        -- rewrite decide_False; [done|]. by intros [->|?]%elem_of_cons.
Qed.

Lemma fan_out_spec r h :
  queues_present h →
  ∃ qs, fan_out r h = Ok tt (upd_queue (λ _, qs) h) ∧
        (∀ name d, _dispatchers h !! name = Some d →
                   ∃ q, _queue h !! name = Some q ∧
                        qs !! name = Some (delivered r d q)) ∧
        (∀ name, _dispatchers h !! name = None → qs !! name = _queue h !! name).
Proof.
  intros Hq.
  destruct (fan_out_names r (keys (_dispatchers h)) h) as (qs & Hfor & Hqs).
  { apply keys_NoDup. }
  { intros name Hel. apply elem_of_keys in Hel. split; [done|].
    apply elem_of_dom, Hq, elem_of_dom, Hel. }
  exists qs. split; [exact Hfor|]. split.
  - intros name d Hd.
    assert (is_Some (_queue h !! name)) as [q Hqn].
    { apply elem_of_dom, Hq, elem_of_dom. eauto. }
    exists q. split; [done|]. rewrite Hqs.
    rewrite decide_True by (apply elem_of_keys; eauto).
    by rewrite Hd, Hqn.
  - intros name Hd. rewrite Hqs. rewrite decide_False; [done|].
    rewrite elem_of_keys, Hd. by intros [? ?].
Qed.

Lemma poll_spec name h l :
  _listeners h !! name = Some l →
  queues_present h →
  ∃ h', poll name h = Ok tt h' ∧
        _dispatchers h' = _dispatchers h ∧
        _listeners h' = <[name := (Listener.read l).2]> (_listeners h) ∧
        queues_present h' ∧
        match (Listener.read l).1 with
        | None => next_id h' = next_id h ∧ heap h' = heap h ∧ _queue h' = _queue h
        | Some v =>
            next_id h' = S (next_id h) ∧
            heap h' = <[next_id h := v]> (heap h) ∧
            ∀ name d, _dispatchers h !! name = Some d →
                      ∃ q, _queue h !! name = Some q ∧
                           _queue h' !! name = Some (delivered (next_id h) d q)
        end.
Proof.
  intros Hl Hq. unfold poll, listener_at.
  rewrite !bind_unfold. simpl. unfold getitem. rewrite Hl. simpl.
  destruct (Listener.read l) as [[v|] l']; mrun.
  - match goal with
    | |- context [fan_out ?r ?h1] =>
        destruct (fan_out_spec r h1) as (qs & Hfan & Hlive & _); [exact Hq|];
        rewrite Hfan
    end.
    eexists. split; [reflexivity|]. simpl. repeat split; try done.
    intros n Hn. apply elem_of_dom in Hn as [d Hd].
    destruct (Hlive n d Hd) as (q & _ & Hqs). apply elem_of_dom. simpl. eauto.
  - eexists. split; [reflexivity|]. simpl. done.
Qed.

Lemma produced_by_cons ls name names :
  produced_by ls (name :: names) =
  match l ← ls !! name; (Listener.read l).1 with
  | Some v => v :: produced_by ls names
  | None => produced_by ls names
  end.
Proof. reflexivity. Qed.

Lemma produced_by_ext ls ls' names :
  (∀ name, name ∈ names → ls' !! name = ls !! name) →
  produced_by ls' names = produced_by ls names.
Proof.
  induction names as [|name names IH]; intros Hext; [done|].
  rewrite !produced_by_cons, Hext by left.
  rewrite IH; [done|]. intros n Hn. apply Hext. by right.
Qed.

Lemma poll_all_spec names h :
  NoDup names →
  (∀ name, name ∈ names → is_Some (_listeners h !! name)) →
  queues_present h →
  ∃ h', poll_all names h = Ok tt h' ∧
        _dispatchers h' = _dispatchers h ∧
        queues_present h' ∧
        next_id h' = next_id h + length (produced_by (_listeners h) names) ∧
        (∀ i v, produced_by (_listeners h) names !! i = Some v →
                heap h' !! (next_id h + i) = Some v) ∧
        (∀ r, r < next_id h → heap h' !! r = heap h !! r) ∧
        (∀ name, name ∉ names → _listeners h' !! name = _listeners h !! name) ∧
        (∀ name d, _dispatchers h !! name = Some d →
           ∃ q, _queue h !! name = Some q ∧
                _queue h' !! name =
                Some (mkQueue (q_id q)
                        (q_items q ++
                         if paused (Dispatcher._settings d) then []
                         else seq (next_id h)
                                  (length (produced_by (_listeners h) names))))).
Proof.
  unfold poll_all.
  revert h. induction names as [|name names IH]; intros h Hnd Hin Hq.
  - exists h. simpl. repeat split; try done.
    intros name d Hd.
    assert (is_Some (_queue h !! name)) as [q Hqn]
      by (apply elem_of_dom, Hq, elem_of_dom; eauto).
    exists q. split; [done|]. rewrite Hqn. destruct q. simpl.
    by destruct (paused _); rewrite app_nil_r.
  - apply NoDup_cons in Hnd as [Hname Hnd].
    destruct (Hin name) as [l Hl]; [left|].
    destruct (poll_spec name h l Hl Hq) as (h1 & Hpoll & Hd1 & Hl1 & Hq1 & Hv).
    destruct (IH h1 Hnd) as (h' & Hrest & Hd' & Hq' & Hn' & Hheap & Hold & Hls & Hqs);
      [|exact Hq1|].
    { intros n Hn. rewrite Hl1. rewrite lookup_insert_ne by (by intros ->).
      apply Hin. by right. }
    assert (produced_by (_listeners h1) names = produced_by (_listeners h) names)
      as Hprod.
    { apply produced_by_ext. intros n Hn. rewrite Hl1.
      by rewrite lookup_insert_ne by (by intros ->). }
    rewrite Hprod in *.
    assert (produced_by (_listeners h) (name :: names) =
            match (Listener.read l).1 with
            | Some v => v :: produced_by (_listeners h) names
            | None => produced_by (_listeners h) names
            end) as Hcons.
    { rewrite produced_by_cons, Hl. done. }
    rewrite Hcons. clear Hcons Hprod.
    exists h'. split; [by rewrite for_cons, bind_unfold, Hpoll|].
    split; [congruence|]. split; [done|].
    assert (∀ n, n ∉ name :: names → _listeners h' !! n = _listeners h !! n) as Hframe.
    { intros n Hn. apply not_elem_of_cons in Hn as [Hne Hn].
      rewrite Hls by done. rewrite Hl1. by rewrite lookup_insert_ne. }
    destruct (Listener.read l).1 as [v|].
    + destruct Hv as (Hn1 & Hh1 & Hqv). simpl. rewrite Hn', Hn1.
      repeat split; [lia | | | done |].
      * intros [|i] w Hw; simpl in Hw.
        -- injection Hw as ->. rewrite Nat.add_0_r, Hold by lia.
           rewrite Hh1. apply lookup_insert_eq.
        -- rewrite <- (Hheap i w Hw). f_equal. lia.
      * intros r Hr. rewrite Hold by lia. rewrite Hh1.
        apply lookup_insert_ne. lia.
      * intros n d Hd. destruct (Hqv n d Hd) as (q & Hqn & Hq1n).
        destruct (Hqs n d) as (q1 & Hq1n' & Hfin); [by rewrite Hd1|].
        exists q. split; [done|]. rewrite Hfin. f_equal.
        rewrite Hq1n in Hq1n'. injection Hq1n' as <-.
        unfold delivered, put. rewrite Hn1.
        destruct (paused _); simpl; [done|].
        by rewrite <- app_assoc.
    + destruct Hv as (Hn1 & Hh1 & Hqv). rewrite Hn', Hn1.
      repeat split; [ | | done | ].
      * intros i w Hw. rewrite <- Hn1. by apply Hheap.
      * intros r Hr. rewrite Hold by lia. by rewrite Hh1.
      * intros n d Hd. rewrite <- Hqv, <- Hn1. apply Hqs. by rewrite Hd1.
Qed.

(** C3. In one pass of the main loop over the listeners, the records the
    listeners produce are stored under consecutive references, and the
    queue of each live dispatcher receives all of them, in produced order,
    when the dispatcher is not paused, and none of them when it is.  A
    dispatcher is not paused exactly when its settings have no ['pause']
    or a ['pause'] outside the ten listed spellings; ['truE'] and ['OUT']
    do not pause. *)
Theorem fan_out_follows_pause (h : EmonHub) :
  queues_present h →
  ∃ h', iteration (Tick None None) h = Ok tt h' ∧
        (∀ i v, produced h !! i = Some v →
                heap h' !! (next_id h + i) = Some v) ∧
        (∀ name d, _dispatchers h !! name = Some d →
           ∃ q, _queue h !! name = Some q ∧
                _queue h' !! name =
                Some (mkQueue (q_id q)
                        (q_items q ++
                         if paused (Dispatcher._settings d) then []
                         else seq (next_id h) (length (produced h))))) ∧
        (∀ s : gmap string pyval,
           paused s = false ↔
           s !! "pause" = None ∨
           ∃ v, s !! "pause" = Some v ∧
                v ∉ [PStr "i"; PStr "I"; PStr "in"; PStr "In"; PStr "IN";
                     PStr "t"; PStr "T"; PStr "true"; PStr "True"; PStr "TRUE"]) ∧
        paused {[ "pause" := PStr "truE" ]} = false ∧
        paused {[ "pause" := PStr "OUT" ]} = false.
Proof.
  intros Hq.
  destruct (poll_all_spec (keys (_listeners h)) (upd_trace (cons interface_run) h))
    as (h1 & Hpass & Hd & _ & _ & Hheap & _ & _ & Hqs).
  { apply keys_NoDup. }
  { intros name Hname. by apply elem_of_keys in Hname. }
  { exact Hq. }
  exists (upd_trace (cons sleep) h1). split; [|split; [|split; [|split]]].
  - unfold iteration. mrun. unfold mbind, M_bind in Hpass. by rewrite Hpass.
  - exact Hheap.
  - exact Hqs.
  - exact paused_false.
  - split; reflexivity.
Qed.

(** ** What the steps of a reconcile tick leave alone *)

#[local] Instance extends_preorder : PreOrder extends.
Proof.
  split.
  - intros h. split; [done|]. split; [by exists [] | done].
  - intros h1 h2 h3 (Hn1 & [t1 Ht1] & Hq1) (Hn2 & [t2 Ht2] & Hq2).
    split; [lia|]. split; [|set_solver].
    exists (t2 ++ t1). by rewrite Ht2, Ht1, app_assoc.
Qed.

#[local] Instance untouched_preorder name : PreOrder (untouched name).
Proof.
  split; [done|].
  intros h1 h2 h3 (?&?&?&?) (?&?&?&?). unfold untouched. naive_solver congruence.
Qed.

#[local] Instance same_dispatchers_preorder : PreOrder same_dispatchers.
Proof.
  split; [done|].
  intros h1 h2 h3 (?&?&?) (?&?&?). unfold same_dispatchers. naive_solver congruence.
Qed.

#[local] Instance same_listeners_preorder : PreOrder same_listeners.
Proof. split; [done|]. intros h1 h2 h3. unfold same_listeners. congruence. Qed.

Ltac extends_leaf :=
  unfold extends; simpl;
  split; [lia|]; split;
  [ first [by exists [] | by eexists [_] ]
  | rewrite ?dom_insert_L; set_solver ].

Lemma reconcile_steps_extend (settings : Settings) :
  preserves extends (_set_logging_level (hub_loglevel settings)) ∧
  (∀ name, preserves extends (check_dispatcher settings name)) ∧
  (∀ name dis, preserves extends (create_dispatcher name dis)) ∧
  (∀ name, preserves extends (check_listener settings name)) ∧
  (∀ name lis, preserves extends (create_listener name lis)).
Proof.
  split_and!; intros; unfold_hub; preserves_tac; extends_leaf.
Qed.

Ltac untouched_leaf :=
  unfold untouched; simpl;
  rewrite ?lookup_insert_ne, ?lookup_delete_ne by done; done.

Lemma reconcile_steps_untouched (settings : Settings) (name : string) :
  preserves (untouched name) (_set_logging_level (hub_loglevel settings)) ∧
  (∀ other, other ≠ name → preserves (untouched name) (check_dispatcher settings other)) ∧
  (∀ other dis, other ≠ name → preserves (untouched name) (create_dispatcher other dis)) ∧
  (∀ other, other ≠ name → preserves (untouched name) (check_listener settings other)) ∧
  (∀ other lis, other ≠ name → preserves (untouched name) (create_listener other lis)).
Proof.
  split_and!; intros; unfold_hub; preserves_tac; untouched_leaf.
Qed.

Lemma dispatcher_steps_same_listeners (settings : Settings) :
  preserves same_listeners (_set_logging_level (hub_loglevel settings)) ∧
  (∀ name, preserves same_listeners (check_dispatcher settings name)) ∧
  (∀ name dis, preserves same_listeners (create_dispatcher name dis)).
Proof.
  split_and!; intros; unfold_hub; preserves_tac; done.
Qed.

Lemma listener_steps_same_dispatchers (settings : Settings) :
  preserves same_dispatchers (_set_logging_level (hub_loglevel settings)) ∧
  (∀ name, preserves same_dispatchers (check_listener settings name)) ∧
  (∀ name lis, preserves same_dispatchers (create_listener name lis)).
Proof.
  split_and!; intros; unfold_hub; preserves_tac; done.
Qed.

(** A loop that returns, seen from one of its elements [x]: the other
    elements are related by [F] (and all of them by [G]), so the body
    ran on [x] in a hub [F]-related to the first one, and the last hub
    is [F]-related to the one the body left. *)
Lemma for_Ok_at {A} (F G : relation EmonHub) `{!PreOrder F, !PreOrder G}
    (xs : list A) (body : A → M unit) (x : A) h h' :
  NoDup xs → x ∈ xs →
  (∀ y, y ∈ xs → y ≠ x → preserves F (body y)) →
  (∀ y, y ∈ xs → preserves G (body y)) →
  for_ xs body h = Ok tt h' →
  ∃ ha hb, F h ha ∧ G h ha ∧ body x ha = Ok tt hb ∧ F hb h' ∧ G hb h'.
Proof.
  intros Hnd Hx HF HG Hfor.
  apply list_elem_of_split in Hx as (xs1 & xs2 & ->).
  apply NoDup_app in Hnd as (Hnd1 & Hdisj & [Hx2 Hnd2]%NoDup_cons).
  apply for_app_Ok in Hfor as (ha & H1 & H2).
  rewrite for_cons in H2. apply bind_Ok in H2 as ([] & hb & Hbody & H2).
  exists ha, hb. split_and!; [| |done| |].
  - eapply (preserves_Ok F); [|exact H1]. apply preserves_for; [done|].
    intros y Hy. apply HF; [set_solver|]. intros ->. by apply (Hdisj x); [|left].
  - eapply (preserves_Ok G); [|exact H1]. apply preserves_for; [done|].
    intros y Hy. apply HG. set_solver.
  - eapply (preserves_Ok F); [|exact H2]. apply preserves_for; [done|].
    intros y Hy. apply HF; [set_solver|]. by intros ->.
  - eapply (preserves_Ok G); [|exact H2]. apply preserves_for; [done|].
    intros y Hy. apply HG. set_solver.
Qed.

(** A loop that returns, seen from a name that is none of its elements. *)
Lemma for_Ok_frame {A} (F : relation EmonHub) `{!PreOrder F}
    (xs : list A) (body : A → M unit) h h' :
  (∀ y, y ∈ xs → preserves F (body y)) →
  for_ xs body h = Ok tt h' → F h h'.
Proof.
  intros HF Hfor. eapply (preserves_Ok F); [|exact Hfor].
  by apply preserves_for.
Qed.

(** The stages of a reconcile tick that returns. *)
Lemma update_settings_stages settings h h' :
  _update_settings settings h = Ok tt h' →
  ∃ hl h1 h2 h3 h4,
    _set_logging_level (hub_loglevel settings) h = Ok tt hl ∧
    for_ (keys (_dispatchers hl)) (check_dispatcher settings)
         (upd_temp_buffer (λ _, ∅) hl) = Ok tt h1 ∧
    for_ (map_to_list (dispatchers settings))
         (λ item, create_dispatcher item.1 item.2) h1 = Ok tt h2 ∧
    for_ (keys (_listeners h2)) (check_listener settings) h2 = Ok tt h3 ∧
    for_ (map_to_list (listeners settings))
         (λ item, create_listener item.1 item.2) h3 = Ok tt h4 ∧
    h' = match nodes settings with
         | Some n => set_nodelist n h4
         | None => h4
         end.
Proof.
  unfold _update_settings. intros Hrun.
  apply bind_Ok in Hrun as ([] & hl & Hlog & Hrun).
  apply bind_Ok in Hrun as ([] & ? & [= <-] & Hrun).
  apply bind_Ok in Hrun as (? & ? & [= <- <-] & Hrun).
  apply bind_Ok in Hrun as ([] & h1 & Hloop1 & Hrun).
  apply bind_Ok in Hrun as ([] & h2 & Hloop2 & Hrun).
  apply bind_Ok in Hrun as (? & ? & [= <- <-] & Hrun).
  apply bind_Ok in Hrun as ([] & h3 & Hloop3 & Hrun).
  apply bind_Ok in Hrun as ([] & h4 & Hloop4 & Hrun).
  exists hl, h1, h2, h3, h4. split_and!; try done.
  destruct (nodes settings); by injection Hrun.
Qed.

(** ** The steps of the dispatcher loops *)

(** Runs a step of the hub on the hub of hypothesis [Hrun], splitting on
    every test the step makes. *)
Ltac mexec_in Hrun :=
  unfold_hub_in Hrun;
  repeat first
    [ progress (unfold try_except, fmap, M_fmap in Hrun; mrun_in Hrun)
    | match type of Hrun with
      | context [match ?x with _ => _ end] =>
          lazymatch x with
          | context [match _ with _ => _ end] => fail
          | _ => destruct x eqn:?; simplify_eq/=
          end
      end ];
  simplify_eq/=.

Lemma check_dispatcher_Ok settings name h h' d :
  _dispatchers h !! name = Some d →
  check_dispatcher settings name h = Ok tt h' →
  ∃ dis init,
    dispatchers settings !! name = Some dis ∧
    desc_init_settings dis = Some init ∧
    _queue h' = _queue h ∧ next_id h' = next_id h ∧
    if decide (Dispatcher.init_settings d = init) then
      temp_buffer h' = temp_buffer h ∧
      match desc_type dis with
      | Some _ => _dispatchers h' = _dispatchers h
      | None => _dispatchers h' = delete name (_dispatchers h) ∧
                dispatcher_stop (Dispatcher.id d) ∈ trace h'
      end
    else
      _dispatchers h' = delete name (_dispatchers h) ∧
      dispatcher_stop (Dispatcher.id d) ∈ trace h' ∧
      temp_buffer h' = if decide (Dispatcher._data_buffer d = [])
                       then temp_buffer h
                       else <[name := Dispatcher._data_buffer d]> (temp_buffer h).
Proof.
  intros Hd Hrun. mexec_in Hrun.
  all: eexists _, _; split_and!; try done.
  all: repeat case_decide; simplify_eq/=; try done.
  all: rewrite ?lookup_insert_eq in *; simplify_eq/=.
  all: rewrite ?delete_insert_eq; split_and?; try done; try set_solver.
  all: bool_facts; destruct (desc_type _); simpl in *.
  all: try (exfalso; naive_solver).
  all: try done.
  all: split; [done | set_solver].
Qed.

Lemma extends_trace h h' e : extends h h' → e ∈ trace h → e ∈ trace h'.
Proof. intros (_ & [t ->] & _) He. apply elem_of_app. by right. Qed.

(** The first dispatcher loop, seen from one name. *)
Lemma check_dispatchers_at settings h h1 name :
  for_ (keys (_dispatchers h)) (check_dispatcher settings) h = Ok tt h1 →
  extends h h1 ∧
  match _dispatchers h !! name with
  | None => untouched name h h1
  | Some d =>
      ∃ dis init,
        dispatchers settings !! name = Some dis ∧
        desc_init_settings dis = Some init ∧
        _queue h1 !! name = _queue h !! name ∧
        if decide (Dispatcher.init_settings d = init) then
          temp_buffer h1 !! name = temp_buffer h !! name ∧
          match desc_type dis with
          | Some _ => _dispatchers h1 !! name = Some d
          | None => _dispatchers h1 !! name = None ∧
                    dispatcher_stop (Dispatcher.id d) ∈ trace h1
          end
        else
          _dispatchers h1 !! name = None ∧
          dispatcher_stop (Dispatcher.id d) ∈ trace h1 ∧
          temp_buffer h1 !! name =
          if decide (Dispatcher._data_buffer d = [])
          then temp_buffer h !! name
          else Some (Dispatcher._data_buffer d)
  end.
Proof.
  intros Hloop.
  destruct (reconcile_steps_extend settings) as (_ & Hext & _).
  destruct (reconcile_steps_untouched settings name) as (_ & Hunt & _).
  split; [by eapply (for_Ok_frame extends), Hloop|].
  destruct (_dispatchers h !! name) as [d|] eqn:Hd.
  - destruct (for_Ok_at (untouched name) extends (keys (_dispatchers h))
                (check_dispatcher settings) name h h1 (keys_NoDup _))
      as (ha & hb & Ha & _ & Hstep & Hb & Hbx); try done.
    { apply elem_of_keys. eauto. }
    { intros y _ Hy. by apply Hunt. }
    destruct Ha as (Had & Haq & Hat & _). destruct Hb as (Hbd & Hbq & Hbt & _).
    rewrite Hd in Had.
    destruct (check_dispatcher_Ok _ _ _ _ _ Had Hstep)
      as (dis & init & Hdis & Hinit & Hq & _ & Hcases).
    exists dis, init. split_and!; try done.
    { by rewrite Hbq, Hq, Haq. }
    rewrite Hbd, Hbt. case_decide.
    + destruct Hcases as [-> Hcases]. split; [done|].
      destruct (desc_type dis).
      * by rewrite Hcases.
      * destruct Hcases as [-> Hstop]. rewrite lookup_delete_eq.
        split; [done|]. by eapply extends_trace.
    + destruct Hcases as (-> & Hstop & ->). rewrite lookup_delete_eq.
      split_and!; [done | by eapply extends_trace |].
      case_decide; [done|]. by rewrite lookup_insert_eq.
  - eapply (for_Ok_frame (untouched name)), Hloop.
    intros y Hy. apply Hunt. intros ->.
    apply elem_of_keys in Hy as [? Hy]. by rewrite Hy in Hd.
Qed.

Lemma create_dispatcher_Ok name dis h h' :
  create_dispatcher name dis h = Ok tt h' →
  match _dispatchers h !! name with
  | Some d =>
      ∃ runtime,
        desc_runtime_settings dis = Some runtime ∧
        _dispatchers h' !! name =
        Some (Dispatcher.with_settings
                (ehd_set (Dispatcher.cls d) (Dispatcher._settings d) runtime) d) ∧
        _queue h' !! name = _queue h !! name ∧
        temp_buffer h' !! name = temp_buffer h !! name
  | None =>
      match desc_type dis with
      | None => h' = h
      | Some ty =>
          ∃ class init,
            ehd ty = Some class ∧
            desc_init_settings dis = Some init ∧
            _queue h' !! name = Some (mkQueue (next_id h) []) ∧
            match class name init with
            | inl (EmonHubDispatcherInitError msg) =>
                _dispatchers h' !! name = None ∧
                temp_buffer h' !! name = temp_buffer h !! name ∧
                log_error ("Failed to create '" +:+ name +:+ "' dispatcher: " +:+ msg)
                  ∈ trace h'
            | inl _ => False
            | inr (s, b) =>
                ∃ runtime,
                  desc_runtime_settings dis = Some runtime ∧
                  _dispatchers h' !! name =
                  Some (Dispatcher.mk (S (next_id h)) ty init (ehd_set ty s runtime)
                          (default b (temp_buffer h !! name)) false) ∧
                  temp_buffer h' !! name = None
            end
      end
  end.
Proof.
  intros Hrun. mexec_in Hrun.
  all: repeat match goal with |- ∃ _, _ => eexists end.
  all: split_and?; try done.
  all: repeat match goal with
       | Hc : ?x = _ |- context [match ?x with _ => _ end] => rewrite Hc
       end.
  all: rewrite ?lookup_insert_eq, ?lookup_delete_eq in *; simplify_eq/=.
  all: repeat match goal with |- ∃ _, _ => eexists end.
  all: split_and?; try done; try set_solver.
  all: rewrite ?lookup_insert_eq, ?lookup_delete_eq in *; simplify_eq/=.
Qed.

(** A loop over the items of a settings section, seen from one name. *)
Lemma for_items_at (body : string → descriptor → M unit)
    (section : gmap string descriptor) name h h' :
  (∀ other dis, other ≠ name → preserves (untouched name) (body other dis)) →
  (∀ other dis, preserves extends (body other dis)) →
  for_ (map_to_list section) (λ item, body item.1 item.2) h = Ok tt h' →
  extends h h' ∧
  match section !! name with
  | None => untouched name h h'
  | Some dis =>
      ∃ ha hb, untouched name h ha ∧ extends h ha ∧
               body name dis ha = Ok tt hb ∧
               untouched name hb h' ∧ extends hb h'
  end.
Proof.
  intros Hunt Hext Hloop.
  split; [eapply (for_Ok_frame extends), Hloop; intros y _; apply Hext|].
  destruct (section !! name) as [dis|] eqn:Hdis.
  - destruct (for_Ok_at (untouched name) extends (map_to_list section)
                (λ item, body item.1 item.2) (name, dis) h h')
      as (ha & hb & Ha & Hax & Hstep & Hb & Hbx);
      [apply NoDup_map_to_list | by apply elem_of_map_to_list | | | exact Hloop |].
    { intros [other dis'] Hy Hne. apply Hunt. simpl. intros ->.
      apply elem_of_map_to_list in Hy. simplify_eq. }
    { intros y _. apply Hext. }
    by exists ha, hb.
  - eapply (for_Ok_frame (untouched name)), Hloop.
    intros [other dis'] Hy. apply Hunt. simpl. intros ->.
    apply elem_of_map_to_list in Hy. simplify_eq/=.
Qed.

(** The second dispatcher loop, seen from one name. *)
Lemma create_dispatchers_at settings h h' name :
  for_ (map_to_list (dispatchers settings))
       (λ item, create_dispatcher item.1 item.2) h = Ok tt h' →
  extends h h' ∧
  match dispatchers settings !! name with
  | None => untouched name h h'
  | Some dis =>
      ∃ ha hb, untouched name h ha ∧ extends h ha ∧
               create_dispatcher name dis ha = Ok tt hb ∧
               untouched name hb h' ∧ extends hb h'
  end.
Proof.
  destruct (reconcile_steps_extend settings) as (_ & _ & Hext & _).
  destruct (reconcile_steps_untouched settings name) as (_ & _ & Hunt & _).
  by apply for_items_at.
Qed.

(** ** The steps of the listener loops *)

Lemma check_listener_Ok settings name h h' l :
  _listeners h !! name = Some l →
  check_listener settings name h = Ok tt h' →
  ∃ lis init,
    listeners settings !! name = Some lis ∧
    desc_init_settings lis = Some init ∧
    if decide (Listener.init_settings l = init ∧ is_Some (desc_type lis)) then
      h' = h
    else
      _listeners h' = delete name (_listeners h) ∧
      listener_close (Listener.id l) ∈ trace h'.
Proof.
  intros Hl Hrun. mexec_in Hrun.
  all: eexists _, _; split_and!; try done.
  all: bool_facts.
  all: destruct (decide (_ ∧ _)) as [[? ?]|Hn]; try done.
  all: try (exfalso; naive_solver).
  all: split; [done | set_solver].
Qed.

Lemma create_listener_Ok name lis h h' :
  create_listener name lis h = Ok tt h' →
  match _listeners h !! name with
  | Some l =>
      ∃ runtime,
        desc_runtime_settings lis = Some runtime ∧
        _listeners h' !! name =
        Some (Listener.with_settings
                (ehl_set (Listener.cls l) (Listener._settings l) runtime) l)
  | None =>
      match desc_type lis with
      | None => h' = h
      | Some ty =>
          ∃ class init,
            ehl ty = Some class ∧
            desc_init_settings lis = Some init ∧
            match class init with
            | inl (EmonHubListenerInitError msg) =>
                _listeners h' !! name = None ∧
                log_error ("Failed to create '" +:+ name +:+ "' listener: " +:+ msg)
                  ∈ trace h'
            | inl _ => False
            | inr (s, src) =>
                ∃ runtime,
                  desc_runtime_settings lis = Some runtime ∧
                  _listeners h' !! name =
                  Some (Listener.mk (next_id h) ty (Some name) init
                          (ehl_set ty s runtime) src)
            end
      end
  end.
Proof.
  intros Hrun. mexec_in Hrun.
  all: repeat match goal with |- ∃ _, _ => eexists end.
  all: split_and?; try done.
  all: repeat match goal with
       | Hc : ?x = _ |- context [match ?x with _ => _ end] => rewrite Hc
       end.
  all: rewrite ?lookup_insert_eq, ?lookup_delete_eq in *; simplify_eq/=.
  all: repeat match goal with |- ∃ _, _ => eexists end.
  all: split_and?; try done; try set_solver.
Qed.

(** The first listener loop, seen from one name. *)
Lemma check_listeners_at settings h h1 name :
  for_ (keys (_listeners h)) (check_listener settings) h = Ok tt h1 →
  extends h h1 ∧
  match _listeners h !! name with
  | None => untouched name h h1
  | Some l =>
      ∃ lis init,
        listeners settings !! name = Some lis ∧
        desc_init_settings lis = Some init ∧
        if decide (Listener.init_settings l = init ∧ is_Some (desc_type lis)) then
          _listeners h1 !! name = Some l
        else
          _listeners h1 !! name = None ∧
          listener_close (Listener.id l) ∈ trace h1
  end.
Proof.
  intros Hloop.
  destruct (reconcile_steps_extend settings) as (_ & _ & _ & Hext & _).
  destruct (reconcile_steps_untouched settings name) as (_ & _ & _ & Hunt & _).
  split; [by eapply (for_Ok_frame extends), Hloop|].
  destruct (_listeners h !! name) as [l|] eqn:Hl.
  - destruct (for_Ok_at (untouched name) extends (keys (_listeners h))
                (check_listener settings) name h h1 (keys_NoDup _))
      as (ha & hb & Ha & _ & Hstep & Hb & Hbx); try done.
    { apply elem_of_keys. eauto. }
    { intros y _ Hy. by apply Hunt. }
    destruct Ha as (_ & _ & _ & Hal). destruct Hb as (_ & _ & _ & Hbl).
    rewrite Hl in Hal.
    destruct (check_listener_Ok _ _ _ _ _ Hal Hstep) as (lis & init & Hlis & Hinit & Hcases).
    exists lis, init. split_and!; try done.
    rewrite Hbl. case_decide.
    + by subst hb.
    + destruct Hcases as [-> Hclose]. rewrite lookup_delete_eq.
      split; [done|]. by eapply extends_trace.
  - eapply (for_Ok_frame (untouched name)), Hloop.
    intros y Hy. apply Hunt. intros ->.
    apply elem_of_keys in Hy as [? Hy]. by rewrite Hy in Hl.
Qed.

(** The second listener loop, seen from one name. *)
Lemma create_listeners_at settings h h' name :
  for_ (map_to_list (listeners settings))
       (λ item, create_listener item.1 item.2) h = Ok tt h' →
  extends h h' ∧
  match listeners settings !! name with
  | None => untouched name h h'
  | Some lis =>
      ∃ ha hb, untouched name h ha ∧ extends h ha ∧
               create_listener name lis ha = Ok tt hb ∧
               untouched name hb h' ∧ extends hb h'
  end.
Proof.
  destruct (reconcile_steps_extend settings) as (_ & _ & _ & _ & Hext).
  destruct (reconcile_steps_untouched settings name) as (_ & _ & _ & _ & Hunt).
  by apply for_items_at.
Qed.

(** ** A reconcile tick, seen from one dispatcher name *)

Lemma created_as_later name dis saved h h2 h' :
  created_as name dis saved h h2 →
  same_dispatchers h2 h' → extends h2 h' →
  created_as name dis saved h h'.
Proof.
  unfold created_as. intros Hc (Hd & Hq & Ht) Hext. rewrite Hd, Hq, Ht.
  destruct (desc_type dis) as [ty|]; [|done].
  destruct Hc as (class & init & qid & Hclass & Hinit & Hqid & Hqueue & Hc).
  exists class, init, qid. split_and!; try done.
  destruct (class name init) as [[]|[s b]]; try done.
  destruct Hc as (? & ? & Hlog). split_and!; try done. by eapply extends_trace.
Qed.

(** The second dispatcher loop for a name without live dispatcher. *)
Lemma created_in_loop settings h h1 h2 name dis saved :
  for_ (map_to_list (dispatchers settings))
       (λ item, create_dispatcher item.1 item.2) h1 = Ok tt h2 →
  dispatchers settings !! name = Some dis →
  _dispatchers h1 !! name = None →
  temp_buffer h1 !! name = saved →
  _queue h1 !! name = _queue h !! name →
  next_id h ≤ next_id h1 →
  created_as name dis saved h h2.
Proof.
  intros Hloop Hdis Hd Ht Hq Hn.
  destruct (create_dispatchers_at _ _ _ name Hloop) as [_ Hat]. rewrite Hdis in Hat.
  destruct Hat as (ha & hb & (Had & Haq & Hat & _) & (Han & _) & Hstep
                      & (Hbd & Hbq & Hbt & _) & Hbx).
  apply create_dispatcher_Ok in Hstep. rewrite Had, Hd in Hstep.
  unfold created_as. rewrite Hbd, Hbq, Hbt. destruct (desc_type dis) as [ty|].
  - destruct Hstep as (class & init & Hclass & Hinit & Hqueue & Hstep).
    exists class, init, (next_id ha). split_and!; try done; [lia|].
    rewrite Hat, Ht in Hstep.
    destruct (class name init) as [[]|[s b]]; try done.
    destruct Hstep as (? & ? & Hlog). split_and!; try done. by eapply extends_trace.
  - subst hb. by rewrite Had, Haq, Hat, Hd, Hq, Ht.
Qed.

(** The first statements of a tick. *)
Lemma update_settings_head settings h hl name :
  _set_logging_level (hub_loglevel settings) h = Ok tt hl →
  extends h (upd_temp_buffer (λ _, ∅) hl) ∧
  _dispatchers hl = _dispatchers h ∧
  _listeners hl = _listeners h ∧
  _queue hl !! name = _queue h !! name.
Proof.
  intros Hlog.
  destruct (reconcile_steps_extend settings) as (Hext & _).
  destruct (reconcile_steps_untouched settings name) as (Hunt & _).
  destruct (dispatcher_steps_same_listeners settings) as (Hl & _).
  destruct (listener_steps_same_dispatchers settings) as (Hd & _).
  pose proof (preserves_Ok _ _ _ _ _ Hext Hlog) as Hx.
  pose proof (preserves_Ok _ _ _ _ _ Hunt Hlog) as (_ & Hq & _).
  pose proof (preserves_Ok _ _ _ _ _ Hl Hlog) as Hls.
  pose proof (preserves_Ok _ _ _ _ _ Hd Hlog) as (Hds & _).
  split_and!; try done.
Qed.

(** The listener loops and the last statement of a tick. *)
Lemma update_settings_tail settings h2 h3 h4 :
  for_ (keys (_listeners h2)) (check_listener settings) h2 = Ok tt h3 →
  for_ (map_to_list (listeners settings))
       (λ item, create_listener item.1 item.2) h3 = Ok tt h4 →
  let h' := match nodes settings with
            | Some n => set_nodelist n h4
            | None => h4
            end in
  same_dispatchers h2 h' ∧ extends h2 h'.
Proof.
  intros H3 H4.
  destruct (reconcile_steps_extend settings) as (_ & _ & _ & Hx1 & Hx2).
  destruct (listener_steps_same_dispatchers settings) as (_ & Hd1 & Hd2).
  assert (same_dispatchers h2 h4 ∧ extends h2 h4) as [Hd Hx].
  { split.
    - etrans; [eapply (for_Ok_frame same_dispatchers), H3; intros ? _; apply Hd1
              |eapply (for_Ok_frame same_dispatchers), H4; intros ? _; apply Hd2].
    - etrans; [eapply (for_Ok_frame extends), H3; intros ? _; apply Hx1
              |eapply (for_Ok_frame extends), H4; intros ? _; apply Hx2]. }
  by destruct (nodes settings).
Qed.

Lemma reconciled_dispatcher settings h h' name :
  _update_settings settings h = Ok tt h' →
  extends h h' ∧
  match _dispatchers h !! name with
  | Some d =>
      ∃ dis init,
        dispatchers settings !! name = Some dis ∧
        desc_init_settings dis = Some init ∧
        if decide (Dispatcher.init_settings d = init ∧ is_Some (desc_type dis)) then
          ∃ runtime,
            desc_runtime_settings dis = Some runtime ∧
            _dispatchers h' !! name =
            Some (Dispatcher.with_settings
                    (ehd_set (Dispatcher.cls d) (Dispatcher._settings d) runtime) d) ∧
            _queue h' !! name = _queue h !! name
        else
          dispatcher_stop (Dispatcher.id d) ∈ trace h' ∧
          created_as name dis (backed_up d init) h h'
  | None =>
      match dispatchers settings !! name with
      | None => _dispatchers h' !! name = None ∧
                _queue h' !! name = _queue h !! name
      | Some dis => created_as name dis None h h'
      end
  end.
Proof.
  intros Hrun.
  apply update_settings_stages in Hrun
    as (hl & h1 & h2 & h3 & h4 & Hlog & H1 & H2 & H3 & H4 & ->).
  destruct (update_settings_head _ _ _ name Hlog) as (Hx0 & Hd0 & _ & Hq0).
  destruct (update_settings_tail _ _ _ _ H3 H4) as [(Hd' & Hq' & Ht') Hx'].
  set (h0 := upd_temp_buffer (λ _, ∅) hl) in *.
  change (keys (_dispatchers hl)) with (keys (_dispatchers h0)) in H1.
  destruct (check_dispatchers_at _ _ _ name H1) as [Hx1 Hat1].
  destruct (create_dispatchers_at _ _ _ name H2) as [Hx2 Hat2].
  split; [by repeat (etrans; [eassumption|])|].
  change (_dispatchers h0) with (_dispatchers hl) in Hat1. rewrite Hd0 in Hat1.
  assert (next_id h ≤ next_id h1) as Hn1.
  { destruct Hx0 as [? _], Hx1 as [? _]. lia. }
  destruct (_dispatchers h !! name) as [d|] eqn:Hd.
  - destruct Hat1 as (dis & init & Hdis & Hinit & Hq1 & Hcases).
    exists dis, init. split_and!; try done.
    change (_queue h0) with (_queue hl) in Hq1. rewrite Hq0 in Hq1.
    change (temp_buffer h0 !! name) with (@None (list nat)) in Hcases.
    destruct (decide (Dispatcher.init_settings d = init)) as [Heq|Hne].
    + destruct Hcases as [Ht1 Hcases].
      destruct (desc_type dis) as [ty|] eqn:Hty.
      * rewrite decide_True by eauto. rewrite Hdis in Hat2.
        destruct Hat2 as (ha & hb & (Had & Haq & _) & _ & Hstep
                            & (Hbd & Hbq & _) & _).
        apply create_dispatcher_Ok in Hstep. rewrite Had, Hcases in Hstep.
        destruct Hstep as (runtime & Hrt & Hnew & Hq & _).
        exists runtime. split_and!; [done| |].
        -- by rewrite Hd', Hbd.
        -- by rewrite Hq', Hbq, Hq, Haq.
      * rewrite decide_False by (by intros [_ [? ?]]).
        destruct Hcases as [Hgone Hstop]. split.
        -- eapply extends_trace; [|exact Hstop]. by etrans.
        -- apply (created_as_later name dis _ h h2); [|done..].
           apply (created_in_loop settings h h1 h2 name dis _ H2 Hdis Hgone);
             [|done..].
           unfold backed_up. by rewrite decide_True.
    + rewrite decide_False by (by intros [? _]).
      destruct Hcases as (Hgone & Hstop & Ht1). split.
      * eapply extends_trace; [|exact Hstop]. by etrans.
      * apply (created_as_later name dis _ h h2); [|done..].
        apply (created_in_loop settings h h1 h2 name dis _ H2 Hdis Hgone);
          [|done..].
        unfold backed_up. rewrite decide_False by done. by case_decide.
  - destruct Hat1 as (Hd1 & Hq1 & Ht1 & _).
    change (_dispatchers h0) with (_dispatchers hl) in Hd1. rewrite Hd0, Hd in Hd1.
    change (_queue h0) with (_queue hl) in Hq1. rewrite Hq0 in Hq1.
    change (temp_buffer h0 !! name) with (@None (list nat)) in Ht1.
    destruct (dispatchers settings !! name) as [dis|] eqn:Hdis.
    + apply (created_as_later name dis _ h h2); [|done..].
      by apply (created_in_loop settings h h1 h2 name dis _ H2 Hdis Hd1).
    + destruct Hat2 as (Hd2 & Hq2 & _). by rewrite Hd', Hq', Hd2, Hq2.
Qed.

(** ** Rebuild of a dispatcher whose [init_settings] changed *)

(** C1, amended.  When the recorded [init_settings] of a live dispatcher
    differ from those of the settings and its retained buffer is not
    empty, and the descriptor has a type whose class accepts the new
    [init_settings], then a tick that returns has set the stop flag of the
    old dispatcher and holds, under the same name, a dispatcher made
    during the tick, with the new [init_settings] and the buffer of the old
    one, and a queue made during the tick, which is empty. *)
Theorem rebuild_keeps_buffer settings h h' name d dis init ty class s b :
  _dispatchers h !! name = Some d →
  dispatchers settings !! name = Some dis →
  desc_init_settings dis = Some init →
  Dispatcher.init_settings d ≠ init →
  Dispatcher._data_buffer d ≠ [] →
  desc_type dis = Some ty →
  ehd ty = Some class →
  class name init = inr (s, b) →
  _update_settings settings h = Ok tt h' →
  dispatcher_stop (Dispatcher.id d) ∈ trace h' ∧
  ∃ d' q,
    _dispatchers h' !! name = Some d' ∧
    next_id h ≤ Dispatcher.id d' ∧
    Dispatcher.init_settings d' = init ∧
    Dispatcher._data_buffer d' = Dispatcher._data_buffer d ∧
    Dispatcher.stop d' = false ∧
    _queue h' !! name = Some q ∧
    next_id h ≤ q_id q ∧
    q_items q = [].
Proof.
  intros Hd Hdis Hinit Hne Hbuf Hty Hclass Hcall Hrun.
  destruct (reconciled_dispatcher _ _ _ name Hrun) as [_ Hat].
  rewrite Hd in Hat. destruct Hat as (dis' & init' & Hdis' & Hinit' & Hat).
  simplify_eq. rewrite decide_False in Hat by (by intros [? _]).
  destruct Hat as [Hstop Hnew]. split; [done|].
  unfold created_as in Hnew. rewrite Hty in Hnew.
  destruct Hnew as (class' & init' & qid & Hclass' & Hinit' & Hqid & Hq & Hnew).
  simplify_eq. rewrite Hcall in Hnew.
  destruct Hnew as (runtime & _ & Hnew & _).
  eexists _, _. split; [exact Hnew|]. simpl. split_and!; try done; [lia|].
  unfold backed_up. rewrite !decide_False by done. done.
Qed.

(** C7, amended.  A tick that returns leaves the buffer of a live
    dispatcher alone when it keeps the dispatcher.  When it rebuilds the
    dispatcher because the [init_settings] changed, the buffer goes to the
    new dispatcher if the class accepts the new [init_settings]; if the
    class rejects them no dispatcher holds the buffer, which stays in
    [temp_buffer].  A later tick does not read that entry: a dispatcher it
    creates under the name has the buffer its class gave it. *)
Theorem buffer_kept_or_migrated settings h h' name d :
  _dispatchers h !! name = Some d →
  _update_settings settings h = Ok tt h' →
  ∃ dis init,
    dispatchers settings !! name = Some dis ∧
    desc_init_settings dis = Some init ∧
    (Dispatcher.init_settings d = init → is_Some (desc_type dis) →
     ∃ d', _dispatchers h' !! name = Some d' ∧
           Dispatcher.id d' = Dispatcher.id d ∧
           Dispatcher._data_buffer d' = Dispatcher._data_buffer d) ∧
    (Dispatcher.init_settings d ≠ init → Dispatcher._data_buffer d ≠ [] →
     ∀ ty, desc_type dis = Some ty →
     ∃ class,
       ehd ty = Some class ∧
       match class name init with
       | inr _ =>
           ∃ d', _dispatchers h' !! name = Some d' ∧
                 next_id h ≤ Dispatcher.id d' ∧
                 Dispatcher._data_buffer d' = Dispatcher._data_buffer d ∧
                 temp_buffer h' !! name = None
       | inl _ =>
           _dispatchers h' !! name = None ∧
           temp_buffer h' !! name = Some (Dispatcher._data_buffer d)
       end) ∧
    (∀ settings2 h'' d'',
       _dispatchers h' !! name = None →
       _update_settings settings2 h' = Ok tt h'' →
       _dispatchers h'' !! name = Some d'' →
       ∃ dis2 ty class init2 s b,
         dispatchers settings2 !! name = Some dis2 ∧
         desc_type dis2 = Some ty ∧
         ehd ty = Some class ∧
         desc_init_settings dis2 = Some init2 ∧
         class name init2 = inr (s, b) ∧
         Dispatcher._data_buffer d'' = b).
Proof.
  intros Hd Hrun.
  destruct (reconciled_dispatcher _ _ _ name Hrun) as [_ Hat].
  rewrite Hd in Hat. destruct Hat as (dis & init & Hdis & Hinit & Hat).
  exists dis, init. split_and!; try done.
  - intros Heq Hty. rewrite decide_True in Hat by done.
    destruct Hat as (runtime & _ & Hkept & _). eauto.
  - intros Hne Hbuf ty Hty. rewrite decide_False in Hat by (by intros [? _]).
    destruct Hat as [_ Hnew]. unfold created_as in Hnew. rewrite Hty in Hnew.
    destruct Hnew as (class & init' & qid & Hclass & Hinit' & Hqid & _ & Hnew).
    simplify_eq. exists class. split; [done|].
    unfold backed_up in Hnew. rewrite !decide_False in Hnew by done.
    destruct (class name init) as [[]|[s b]]; try done.
    + by destruct Hnew as (? & ? & _).
    + destruct Hnew as (runtime & _ & Hnew & Htemp).
      eexists. split; [exact Hnew|]. simpl. split_and!; [lia|done..].
  - intros settings2 h'' d'' Hgone Hrun2 Hd''.
    destruct (reconciled_dispatcher _ _ _ name Hrun2) as [_ Hat2].
    rewrite Hgone in Hat2.
    destruct (dispatchers settings2 !! name) as [dis2|] eqn:Hdis2;
      [|destruct Hat2; congruence].
    unfold created_as in Hat2. destruct (desc_type dis2) as [ty|] eqn:Hty2;
      [|destruct Hat2; congruence].
    destruct Hat2 as (class & init2 & qid & Hclass & Hinit2 & _ & _ & Hat2).
    destruct (class name init2) as [[]|[s b]] eqn:Hcall; try done.
    + destruct Hat2; congruence.
    + destruct Hat2 as (runtime & _ & Hnew & _).
      exists dis2, ty, class, init2, s, b. split_and!; try done.
      rewrite Hd'' in Hnew. by injection Hnew as ->.
Qed.

(** ** A reconcile tick, seen from one listener name *)

(** The statements of a tick before the listener loops. *)
Lemma update_settings_dispatcher_part settings h hl h1 h2 :
  _set_logging_level (hub_loglevel settings) h = Ok tt hl →
  for_ (keys (_dispatchers hl)) (check_dispatcher settings)
       (upd_temp_buffer (λ _, ∅) hl) = Ok tt h1 →
  for_ (map_to_list (dispatchers settings))
       (λ item, create_dispatcher item.1 item.2) h1 = Ok tt h2 →
  _listeners h2 = _listeners h ∧ extends h h2.
Proof.
  intros Hlog H1 H2.
  destruct (update_settings_head _ _ _ "" Hlog) as (Hx0 & _ & Hl0 & _).
  destruct (reconcile_steps_extend settings) as (_ & Hx1 & Hx2 & _).
  destruct (dispatcher_steps_same_listeners settings) as (_ & Hl1 & Hl2).
  split.
  - transitivity (_listeners h1).
    + eapply (for_Ok_frame same_listeners), H2. intros ? _. apply Hl2.
    + rewrite <- Hl0.
      eapply (for_Ok_frame same_listeners _ _ (upd_temp_buffer _ hl)), H1.
      intros ? _. apply Hl1.
  - etrans; [exact Hx0|]. etrans.
    + eapply (for_Ok_frame extends), H1. intros ? _. apply Hx1.
    + eapply (for_Ok_frame extends), H2. intros ? _. apply Hx2.
Qed.

Lemma reconciled_listener settings h h' name :
  _update_settings settings h = Ok tt h' →
  match _listeners h !! name with
  | Some l =>
      ∃ lis init,
        listeners settings !! name = Some lis ∧
        desc_init_settings lis = Some init ∧
        if decide (Listener.init_settings l = init ∧ is_Some (desc_type lis)) then
          ∃ runtime,
            desc_runtime_settings lis = Some runtime ∧
            _listeners h' !! name =
            Some (Listener.with_settings
                    (ehl_set (Listener.cls l) (Listener._settings l) runtime) l)
        else
          listener_close (Listener.id l) ∈ trace h' ∧
          listener_created_as name lis h h'
  | None =>
      match listeners settings !! name with
      | None => _listeners h' !! name = None
      | Some lis => listener_created_as name lis h h'
      end
  end.
Proof.
  intros Hrun.
  apply update_settings_stages in Hrun
    as (hl & h1 & h2 & h3 & h4 & Hlog & H1 & H2 & H3 & H4 & ->).
  destruct (update_settings_dispatcher_part _ _ _ _ _ Hlog H1 H2) as [Hl2 Hx2].
  destruct (check_listeners_at _ _ _ name H3) as [Hx3 Hat3].
  destruct (create_listeners_at _ _ _ name H4) as [Hx4 Hat4].
  assert (∀ h5, _listeners (match nodes settings with
                            | Some n => set_nodelist n h5
                            | None => h5
                            end) = _listeners h5) as Hl'
    by (intros; by destruct (nodes settings)).
  assert (∀ h5, trace (match nodes settings with
                       | Some n => set_nodelist n h5
                       | None => h5
                       end) = trace h5) as Ht'
    by (intros; by destruct (nodes settings)).
  assert (∀ lis, _listeners h3 !! name = None →
                 listeners settings !! name = Some lis →
                 listener_created_as name lis h
                   (match nodes settings with
                    | Some n => set_nodelist n h4
                    | None => h4
                    end)) as Hcreated.
  { intros lis Hgone Hlis. rewrite Hlis in Hat4.
    destruct Hat4 as (ha & hb & (_ & _ & _ & Hal) & Hax & Hstep & (_ & _ & _ & Hbl) & Hbx).
    apply create_listener_Ok in Hstep. rewrite Hal, Hgone in Hstep.
    unfold listener_created_as. rewrite Hl', Ht', Hbl.
    destruct (desc_type lis) as [ty|]; [|subst hb; by rewrite Hal].
    destruct Hstep as (class & init & Hclass & Hinit & Hstep).
    exists class, init. split_and!; try done.
    destruct (class init) as [[]|[s src]]; try done.
    - destruct Hstep as [? Hlog']. split; [done|]. by eapply extends_trace.
    - destruct Hstep as (runtime & Hrt & Hnew). exists runtime, (next_id ha).
      split_and!; try done.
      destruct Hx2 as [? _], Hx3 as [? _], Hax as [? _]. lia. }
  rewrite Hl2 in Hat3. destruct (_listeners h !! name) as [l|] eqn:Hl.
  - destruct Hat3 as (lis & init & Hlis & Hinit & Hcases).
    exists lis, init. split_and!; try done. case_decide.
    + rewrite Hlis in Hat4.
      destruct Hat4 as (ha & hb & (_ & _ & _ & Hal) & _ & Hstep & (_ & _ & _ & Hbl) & _).
      apply create_listener_Ok in Hstep. rewrite Hal, Hcases in Hstep.
      destruct Hstep as (runtime & Hrt & Hnew).
      exists runtime. split; [done|]. by rewrite Hl', Hbl.
    + destruct Hcases as [Hgone Hclose]. split.
      * rewrite Ht'. by eapply extends_trace.
      * by apply Hcreated.
  - destruct Hat3 as (_ & _ & _ & Hgone). rewrite Hl2, Hl in Hgone.
    destruct (listeners settings !! name) as [lis|] eqn:Hlis.
    + by apply Hcreated.
    + destruct Hat4 as (_ & _ & _ & Hsame). by rewrite Hl', Hsame.
Qed.

(** ** Listeners whose [init_settings] changed *)

(** C2, amended.  When the recorded [init_settings] of a live listener
    differ from those of the settings and the descriptor has a type, a
    tick that returns has closed the listener and dropped it, and has
    called the class of the type on the new [init_settings]: the hub
    holds, under the same name, a listener made during the tick when the
    class accepts them, and no listener when it rejects them. *)
Theorem listener_rebuilt_on_init_change settings h h' name l lis init ty :
  _listeners h !! name = Some l →
  listeners settings !! name = Some lis →
  desc_init_settings lis = Some init →
  Listener.init_settings l ≠ init →
  desc_type lis = Some ty →
  _update_settings settings h = Ok tt h' →
  listener_close (Listener.id l) ∈ trace h' ∧
  ∃ class,
    ehl ty = Some class ∧
    match class init with
    | inr (s, src) =>
        ∃ l', _listeners h' !! name = Some l' ∧
              next_id h ≤ Listener.id l' ∧
              Listener.init_settings l' = init ∧
              Listener.source l' = src
    | inl _ => _listeners h' !! name = None
    end.
Proof.
  intros Hl Hlis Hinit Hne Hty Hrun.
  pose proof (reconciled_listener _ _ _ name Hrun) as Hat. rewrite Hl in Hat.
  destruct Hat as (lis' & init' & Hlis' & Hinit' & Hat). simplify_eq.
  rewrite decide_False in Hat by (by intros [? _]).
  destruct Hat as [Hclose Hnew]. split; [done|].
  unfold listener_created_as in Hnew. rewrite Hty in Hnew.
  destruct Hnew as (class & init' & Hclass & Hinit' & Hnew). simplify_eq.
  exists class. split; [done|].
  destruct (class init) as [[]|[s src]]; try done.
  - by destruct Hnew.
  - destruct Hnew as (runtime & id & _ & Hid & Hnew). eauto.
Qed.

(** ** Names and types removed from the settings *)

(** C5.  The tick raises when a live dispatcher or a live listener has no
    entry in the settings. *)
Theorem unlisted_name_raises settings h name :
  (is_Some (_dispatchers h !! name) ∧ dispatchers settings !! name = None) ∨
  (is_Some (_listeners h !! name) ∧ listeners settings !! name = None) →
  ∃ e h', _update_settings settings h = Raise e h'.
Proof.
  intros Hlive. destruct (_update_settings settings h) as [[] h'|e h'] eqn:Hrun;
    [exfalso|eauto].
  destruct Hlive as [[[d Hd] Hnone]|[[l Hl] Hnone]].
  - destruct (reconciled_dispatcher _ _ _ name Hrun) as [_ Hat].
    rewrite Hd in Hat. destruct Hat as (? & ? & ? & _). congruence.
  - pose proof (reconciled_listener _ _ _ name Hrun) as Hat.
    rewrite Hl in Hat. destruct Hat as (? & ? & ? & _). congruence.
Qed.

(** A component whose descriptor lost its ['type'] is gone after a tick
    that returns. *)
Lemma untyped_component_dropped settings h h' name :
  _update_settings settings h = Ok tt h' →
  (∀ dis, dispatchers settings !! name = Some dis → desc_type dis = None →
          _dispatchers h' !! name = None) ∧
  (∀ lis, listeners settings !! name = Some lis → desc_type lis = None →
          _listeners h' !! name = None).
Proof.
  intros Hrun. split.
  - intros dis Hdis Hty.
    destruct (reconciled_dispatcher _ _ _ name Hrun) as [_ Hat].
    assert (∀ saved, created_as name dis saved h h' → _dispatchers h' !! name = None)
      as Hnone by (unfold created_as; rewrite Hty; by intros ? [? _]).
    rewrite Hdis in Hat. destruct (_dispatchers h !! name) as [d|]; [|eauto].
    destruct Hat as (? & init & ? & _ & Hat). simplify_eq.
    rewrite Hty, decide_False in Hat by (by intros [_ [? ?]]).
    destruct Hat as [_ Hat]. eauto.
  - intros lis Hlis Hty.
    pose proof (reconciled_listener _ _ _ name Hrun) as Hat.
    assert (listener_created_as name lis h h' → _listeners h' !! name = None)
      as Hnone by (unfold listener_created_as; by rewrite Hty).
    rewrite Hlis in Hat. destruct (_listeners h !! name) as [l|]; [|eauto].
    destruct Hat as (? & init & ? & _ & Hat). simplify_eq.
    rewrite Hty, decide_False in Hat by (by intros [_ [? ?]]).
    destruct Hat as [_ Hat]. eauto.
Qed.

(** ** Sharing of a fanned-out record *)

(** Every dispatcher that is not paused gets the reference [r] itself. *)
Lemma fan_out_same_reference r h name d :
  queues_present h →
  _dispatchers h !! name = Some d →
  paused (Dispatcher._settings d) = false →
  ∃ h' q, fan_out r h = Ok tt h' ∧
          _queue h !! name = Some q ∧
          _queue h' !! name = Some (put r q).
Proof.
  intros Hq Hd Hp. destruct (fan_out_spec r h Hq) as (qs & Hfan & Hlive & _).
  destruct (Hlive name d Hd) as (q & Hqn & Hqs).
  eexists _, q. split; [exact Hfan|]. split; [done|].
  simpl. rewrite Hqs. unfold delivered. by rewrite Hp.
Qed.

(** ** Queues and dispatchers *)

(** Runs a step of the hub in the goal, splitting on every test the step
    makes. *)
Ltac mexec :=
  unfold_hub;
  repeat first
    [ progress (unfold try_except, fmap, M_fmap; mrun)
    | match goal with
      | |- context [match ?x with _ => _ end] =>
          lazymatch x with
          | context [match _ with _ => _ end] => fail
          | _ => destruct x eqn:?; simplify_eq/=
          end
      end ].

#[local] Instance keeps_queues_preorder : PreOrder keeps_queues.
Proof.
  split; [done|].
  intros h1 h2 h3 [Hq1 Hd1] [Hq2 Hd2]. split; [tauto | set_solver].
Qed.

Ltac keeps_queues_leaf :=
  unfold keeps_queues, queues_present; simpl;
  repeat match goal with
         | Hl : _ !! _ = Some _ |- _ => apply elem_of_dom_2 in Hl
         end;
  rewrite ?dom_insert_L, ?dom_delete_L; set_solver.

Lemma reconcile_steps_keep_queues (settings : Settings) :
  preserves keeps_queues (_set_logging_level (hub_loglevel settings)) ∧
  (∀ name, preserves keeps_queues (check_dispatcher settings name)) ∧
  (∀ name dis, preserves keeps_queues (create_dispatcher name dis)) ∧
  (∀ name, preserves keeps_queues (check_listener settings name)) ∧
  (∀ name lis, preserves keeps_queues (create_listener name lis)).
Proof.
  split_and!; intros; intros h; mexec; keeps_queues_leaf.
Qed.

Lemma update_settings_keeps_queues settings :
  preserves keeps_queues (_update_settings settings).
Proof.
  destruct (reconcile_steps_keep_queues settings) as (Hlog & H1 & H2 & H3 & H4).
  unfold _update_settings. preserves_tac; try done.
  all: keeps_queues_leaf.
Qed.

(** C6, amended.  Every live dispatcher has a queue under its name: a tick
    keeps that true, whether it returns or raises, and [__init__]
    establishes it.  No tick removes a queue: a name keeps its queue when
    its dispatcher is deleted or could not be created. *)
Theorem queue_for_every_dispatcher settings h :
  (queues_present h → queues_present (state_of (_update_settings settings h))) ∧
  dom (_queue h) ⊆ dom (_queue (state_of (_update_settings settings h))) ∧
  queues_present (state_of (__init__ settings h)).
Proof.
  split_and!.
  - apply (update_settings_keeps_queues settings h).
  - apply (update_settings_keeps_queues settings h).
  - unfold __init__. mrun.
    destruct (_set_logging_level (hub_loglevel settings) (set_exit false (new_object h)))
      as [[] hl|e hl] eqn:Hlog; simpl.
    + apply update_settings_keeps_queues. unfold queues_present. simpl. set_solver.
    + destruct (reconcile_steps_keep_queues settings) as (Hl & _).
      destruct (preserves_Raise keeps_queues _ _ _ _ Hl Hlog) as [Hq _].
      apply Hq. unfold queues_present. simpl. set_solver.
Qed.

(** ** A tick on well-formed settings returns *)

Lemma for_returns {A} (xs : list A) (body : A → M unit) :
  (∀ x h, x ∈ xs → ∃ h', body x h = Ok tt h') →
  ∀ h, ∃ h', for_ xs body h = Ok tt h'.
Proof.
  induction xs as [|x xs IH]; intros Hbody h; [by exists h|].
  destruct (Hbody x h) as [h1 Hx]; [left|].
  destruct (IH (λ y h Hy, Hbody y h (list_elem_of_further _ _ _ Hy)) h1) as [h' Hxs].
  exists h'. rewrite for_cons. apply bind_Ok. eauto.
Qed.

Lemma for_returns_at {A} (P : A → EmonHub → Prop) (xs : list A) (body : A → M unit) :
  NoDup xs →
  (∀ x y h h', x ≠ y → P x h → body y h = Ok tt h' → P x h') →
  (∀ x h, x ∈ xs → P x h → ∃ h', body x h = Ok tt h') →
  ∀ h, (∀ x, x ∈ xs → P x h) → ∃ h', for_ xs body h = Ok tt h'.
Proof.
  intros Hnd Hframe. induction Hnd as [|x xs Hx Hnd IH]; intros Hbody h HP.
  - by exists h.
  - destruct (Hbody x h) as [h1 Hstep]; [left | apply HP; left |].
    destruct (IH (λ y h Hy, Hbody y h (list_elem_of_further _ _ _ Hy)) h1) as [h' Hxs].
    { intros y Hy. eapply Hframe; [|apply HP; by right|exact Hstep].
      intros ->. done. }
    exists h'. rewrite for_cons. apply bind_Ok. eauto.
Qed.

Lemma set_logging_level_returns level h :
  level_ok level h = true →
  ∃ h', _set_logging_level level h = Ok tt h'.
Proof.
  unfold level_ok, _set_logging_level.
  destruct (logging_getattr level) as [loglevel|]; [|intros _; eexists; reflexivity].
  intros Hok. mrun.
  destruct (decide (loglevel ≠ Some (_log_level h))) as [Hne|_]; [|eexists; reflexivity].
  destruct (logging_setLevel level) as [n|]; [eexists; reflexivity|].
  exfalso. apply orb_true_iff in Hok as [Hok|Hok]; apply bool_decide_eq_true in Hok.
  - done.
  - by destruct Hok.
Qed.

Lemma check_dispatcher_returns settings name h dis :
  is_Some (_dispatchers h !! name) →
  dispatchers settings !! name = Some dis →
  is_Some (desc_init_settings dis) →
  ∃ h', check_dispatcher settings name h = Ok tt h'.
Proof.
  intros [d Hd] Hdis [init Hinit]. mexec; eauto.
  all: rewrite ?lookup_insert_eq in *; simplify_eq.
Qed.

Lemma create_dispatcher_returns name dis h :
  dispatcher_descriptor_ok name dis = true →
  ∃ h', create_dispatcher name dis h = Ok tt h'.
Proof.
  unfold dispatcher_descriptor_ok. intros Hok. mexec; eauto.
  all: rewrite ?lookup_insert_eq in *; simplify_eq.
  all: repeat match goal with
       | Hc : ?x = _, Hm : context [match ?x with _ => _ end] |- _ =>
           rewrite Hc in Hm
       end; try done.
  all: repeat case_match; simplify_eq; done.
Qed.

Lemma check_listener_returns settings name h lis :
  is_Some (_listeners h !! name) →
  listeners settings !! name = Some lis →
  is_Some (desc_init_settings lis) →
  ∃ h', check_listener settings name h = Ok tt h'.
Proof.
  intros [l Hl] Hlis [init Hinit]. mexec; eauto.
Qed.

Lemma create_listener_returns name lis h :
  listener_descriptor_ok lis = true →
  ∃ h', create_listener name lis h = Ok tt h'.
Proof.
  unfold listener_descriptor_ok. intros Hok. mexec; eauto.
  all: rewrite ?lookup_insert_eq in *; simplify_eq.
  all: repeat match goal with
       | Hc : ?x = _, Hm : context [match ?x with _ => _ end] |- _ =>
           rewrite Hc in Hm
       end; try done.
  all: repeat case_match; simplify_eq; done.
Qed.

Lemma update_settings_returns settings h :
  settings_ok settings h →
  ∃ h', _update_settings settings h = Ok tt h'.
Proof.
  intros (Hlevel & Hdl & Hll & Hds & Hls).
  assert (∀ name dis, dispatchers settings !! name = Some dis →
                      is_Some (desc_init_settings dis)) as Hdinit.
  { intros name dis Hdis. specialize (Hds name dis Hdis).
    unfold dispatcher_descriptor_ok in Hds.
    destruct (desc_init_settings dis); [eauto | done]. }
  assert (∀ name lis, listeners settings !! name = Some lis →
                      is_Some (desc_init_settings lis)) as Hlinit.
  { intros name lis Hlis. specialize (Hls name lis Hlis).
    unfold listener_descriptor_ok in Hls.
    destruct (desc_init_settings lis); [eauto | done]. }
  destruct (set_logging_level_returns (hub_loglevel settings) h Hlevel) as [hl Hlog].
  destruct (update_settings_head _ _ _ "" Hlog) as (_ & Hd0 & Hl0 & _).
  set (h0 := upd_temp_buffer (λ _, ∅) hl).
  destruct (for_returns_at (λ name h, is_Some (_dispatchers h !! name))
              (keys (_dispatchers hl)) (check_dispatcher settings)
              (keys_NoDup _)) with (h := h0) as [h1 H1].
  { intros x y h5 h6 Hne Hx Hstep.
    destruct (reconcile_steps_untouched settings x) as (_ & Hunt & _).
    destruct (preserves_Ok _ _ _ _ _ (Hunt y (not_eq_sym Hne)) Hstep) as (-> & _).
    done. }
  { intros name h5 Hname Hlive. apply elem_of_keys in Hname. rewrite Hd0 in Hname.
    assert (is_Some (dispatchers settings !! name)) as [dis Hdis]
      by (apply elem_of_dom, Hdl, elem_of_dom, Hname).
    eapply check_dispatcher_returns; eauto. }
  { intros name Hname. by apply elem_of_keys in Hname. }
  destruct (for_returns (map_to_list (dispatchers settings))
              (λ item, create_dispatcher item.1 item.2)) with (h := h1) as [h2 H2].
  { intros [name dis] h5 Hin. apply elem_of_map_to_list in Hin.
    apply create_dispatcher_returns. by apply (Hds name dis). }
  destruct (update_settings_dispatcher_part _ _ _ _ _ Hlog H1 H2) as [Hl2 _].
  destruct (for_returns_at (λ name h, is_Some (_listeners h !! name))
              (keys (_listeners h2)) (check_listener settings)
              (keys_NoDup _)) with (h := h2) as [h3 H3].
  { intros x y h5 h6 Hne Hx Hstep.
    destruct (reconcile_steps_untouched settings x) as (_ & _ & _ & Hunt & _).
    destruct (preserves_Ok _ _ _ _ _ (Hunt y (not_eq_sym Hne)) Hstep) as (_ & _ & _ & ->).
    done. }
  { intros name h5 Hname Hlive. apply elem_of_keys in Hname. rewrite Hl2 in Hname.
    assert (is_Some (listeners settings !! name)) as [lis Hlis]
      by (apply elem_of_dom, Hll, elem_of_dom, Hname).
    eapply check_listener_returns; eauto. }
  { intros name Hname. by apply elem_of_keys in Hname. }
  destruct (for_returns (map_to_list (listeners settings))
              (λ item, create_listener item.1 item.2)) with (h := h3) as [h4 H4].
  { intros [name lis] h5 Hin. apply elem_of_map_to_list in Hin.
    apply create_listener_returns. by apply (Hls name lis). }
  exists (match nodes settings with
          | Some n => set_nodelist n h4
          | None => h4
          end).
  unfold _update_settings. rewrite bind_unfold, Hlog. mrun.
  fold h0. unfold mbind, M_bind in *. rewrite H1, H2. simpl. rewrite H3, H4.
  by destruct (nodes settings).
Qed.

(** ** Creation failures *)

Lemma created_as_live name dis saved h h' :
  created_as name dis saved h h' →
  is_Some (_dispatchers h' !! name) ↔ accepted name dis = true.
Proof.
  unfold created_as, accepted. destruct (desc_type dis) as [ty|].
  - intros (class & init & qid & -> & -> & _ & _ & Hcase).
    destruct (class name init) as [[]|[s b]]; try done.
    + destruct Hcase as (-> & _). split; [by intros [? ?] | done].
    + destruct Hcase as (runtime & _ & -> & _). split; eauto.
  - intros (-> & _). split; [by intros [? ?] | done].
Qed.

Lemma live_after_tick settings h h' name :
  _update_settings settings h = Ok tt h' →
  is_Some (_dispatchers h' !! name) ↔
  ∃ dis, dispatchers settings !! name = Some dis ∧ established h (name, dis) = true.
Proof.
  intros Hrun. destruct (reconciled_dispatcher _ _ _ name Hrun) as [_ Hat].
  unfold established, kept_by. simpl.
  destruct (_dispatchers h !! name) as [d|].
  - destruct Hat as (dis & init & Hdis & Hinit & Hat). rewrite Hdis.
    case_decide as Hkept.
    + destruct Hat as (runtime & _ & -> & _). split; [|eauto].
      intros _. exists dis. split; [done|]. apply orb_true_iff. left.
      destruct Hkept as [-> Hty]. apply andb_true_iff.
      by rewrite !bool_decide_eq_true.
    + destruct Hat as [_ Hat]. rewrite (created_as_live _ _ _ _ _ Hat).
      assert (bool_decide (desc_init_settings dis = Some (Dispatcher.init_settings d))
              && bool_decide (is_Some (desc_type dis)) = false) as Hb.
      { apply andb_false_iff. rewrite !bool_decide_eq_false.
        destruct (decide (is_Some (desc_type dis))); [left|by right].
        rewrite Hinit. intros [= ->]. by apply Hkept. }
      split.
      * intros Hacc. exists dis. split; [done|]. by rewrite Hb.
      * intros (dis' & [= <-] & Hest). by rewrite Hb in Hest.
  - destruct (dispatchers settings !! name) as [dis|].
    + rewrite (created_as_live _ _ _ _ _ Hat). split; [eauto|].
      by intros (dis' & [= <-] & ?).
    + destruct Hat as [-> _]. split; [by intros [? ?] | by intros (? & ? & _)].
Qed.

(** C4, amended.  When the level name of the settings is one on which
    [_set_logging_level] returns ([logging] has no such attribute, or the
    attribute is the level of the logger, or [setLevel] knows the name),
    the settings list every live component and every descriptor has
    ['init_settings'] and ['runtime_settings'] and, if it has a ['type'],
    one that names a class which builds the component or raises the
    [InitError] of its module, then the tick returns.  The live
    dispatchers are then those of the descriptors that are kept or that
    their class accepts, and as many.  For a descriptor with a type that is
    neither, no dispatcher is registered and the failure is logged, but the
    queue made for it during the tick stays in [_queue]. *)
Theorem creation_failure_is_isolated settings h :
  settings_ok settings h →
  ∃ h',
    _update_settings settings h = Ok tt h' ∧
    dom (_dispatchers h') = dom (filter (λ item, established h item = true)
                                        (dispatchers settings)) ∧
    size (_dispatchers h') = size (filter (λ item, established h item = true)
                                          (dispatchers settings)) ∧
    ∀ name dis,
      dispatchers settings !! name = Some dis →
      is_Some (desc_type dis) →
      established h (name, dis) = false →
      _dispatchers h' !! name = None ∧
      (∃ msg, log_error ("Failed to create '" +:+ name +:+ "' dispatcher: " +:+ msg)
                ∈ trace h') ∧
      ∃ q, _queue h' !! name = Some q ∧ next_id h ≤ q_id q ∧ q_items q = [].
Proof.
  intros Hok. destruct (update_settings_returns _ _ Hok) as [h' Hrun].
  exists h'. split; [done|].
  assert (dom (_dispatchers h') = dom (filter (λ item, established h item = true)
                                              (dispatchers settings))) as Hdom.
  { apply set_eq. intros name. rewrite !elem_of_dom.
    rewrite (live_after_tick _ _ _ name Hrun). unfold is_Some.
    setoid_rewrite map_lookup_filter_Some. naive_solver. }
  split; [done|]. split; [by rewrite <- !size_dom, Hdom|].
  intros name dis Hdis [ty Hty] Hest.
  destruct (reconciled_dispatcher _ _ _ name Hrun) as [_ Hat].
  unfold established, kept_by in Hest. simpl in Hest.
  apply orb_false_iff in Hest as [Hkept Hacc].
  assert (∀ saved, created_as name dis saved h h' →
            _dispatchers h' !! name = None ∧
            (∃ msg, log_error ("Failed to create '" +:+ name +:+ "' dispatcher: "
                               +:+ msg) ∈ trace h') ∧
            ∃ q, _queue h' !! name = Some q ∧ next_id h ≤ q_id q ∧ q_items q = [])
    as Hcreated.
  { intros saved Hc. unfold created_as in Hc. unfold accepted in Hacc.
    rewrite Hty in Hc, Hacc.
    destruct Hc as (class & init & qid & Hclass & Hinit & Hqid & Hq & Hcase).
    rewrite Hclass, Hinit in Hacc.
    destruct (class name init) as [[]|[s b]]; try done.
    destruct Hcase as (Hnone & _ & Hlog). split_and!; [done | eauto |].
    eexists. split; [exact Hq|]. done. }
  rewrite Hdis in Hat. destruct (_dispatchers h !! name) as [d|]; [|eauto].
  destruct Hat as (? & init & [= <-] & Hinit & Hat).
  rewrite decide_False in Hat; [destruct Hat; eauto|].
  intros [Heq Htype]. rewrite Hinit, Heq in Hkept.
  apply andb_false_iff in Hkept as [Hb|Hb]; apply bool_decide_eq_false in Hb; done.
Qed.

(** ** The interrupt *)

Section respects.
Context (R : relation EmonHub).

Lemma respects_ret {A} (a : A) : respects R (mret a).
Proof. by intros h0 h1 HR. Qed.

Lemma respects_raise {A} e : respects R (raise (A:=A) e).
Proof. by intros h0 h1 HR. Qed.

Lemma respects_gets {A} (f : EmonHub → A) :
  (∀ h0 h1, R h0 h1 → f h0 = f h1) → respects R (gets f).
Proof. intros Hf h0 h1 HR. split; [by apply Hf | done]. Qed.

Lemma respects_modify f :
  (∀ h0 h1, R h0 h1 → R (f h0) (f h1)) → respects R (modify f).
Proof. intros Hf h0 h1 HR. split; [done | by apply Hf]. Qed.

Lemma respects_emit e :
  (∀ h0 h1, R h0 h1 → R (upd_trace (cons e) h0) (upd_trace (cons e) h1)) →
  respects R (emit e).
Proof. apply respects_modify. Qed.

Lemma respects_fresh :
  (∀ h0 h1, R h0 h1 →
     next_id h0 = next_id h1 ∧
     R (set_next_id (S (next_id h0)) h0) (set_next_id (S (next_id h1)) h1)) →
  respects R fresh.
Proof. intros Hf h0 h1 HR. by apply Hf. Qed.

Lemma same_outcome_bind {A B} (m0 m1 : M A) (f : A → M B) h0 h1 :
  same_outcome R (m0 h0) (m1 h1) →
  (∀ a, respects R (f a)) →
  same_outcome R ((m0 ≫= f) h0) ((m1 ≫= f) h1).
Proof.
  intros Hm Hf. rewrite !bind_unfold.
  destruct (m0 h0) as [a0 h0'|e0 h0'], (m1 h1) as [a1 h1'|e1 h1']; try done.
  destruct Hm as [-> HR]. by apply Hf.
Qed.

Lemma respects_bind {A B} (m : M A) (f : A → M B) :
  respects R m → (∀ a, respects R (f a)) → respects R (m ≫= f).
Proof. intros Hm Hf h0 h1 HR. apply same_outcome_bind; [by apply Hm | done]. Qed.

Lemma respects_fmap {A B} (g : A → B) (m : M A) :
  respects R m → respects R (g <$> m).
Proof.
  intros Hm h0 h1 HR. specialize (Hm h0 h1 HR). unfold fmap, M_fmap.
  destruct (m h0), (m h1); try done. destruct Hm as [-> ?]. done.
Qed.

Lemma respects_try {A} (body : M A) handler :
  respects R body →
  (∀ e k, handler e = Some k → respects R k) →
  respects R (try_except body handler).
Proof.
  intros Hb Hh h0 h1 HR. specialize (Hb h0 h1 HR). unfold try_except.
  destruct (body h0) as [a0 h0'|e0 h0'], (body h1) as [a1 h1'|e1 h1']; try done.
  destruct Hb as [<- HR'].
  destruct (handler e0) as [k|] eqn:Hk; [by eapply Hh | done].
Qed.

Lemma respects_for {A} (xs : list A) (body : A → M unit) :
  (∀ x, x ∈ xs → respects R (body x)) → respects R (for_ xs body).
Proof.
  induction xs as [|x xs IH]; intros Hbody.
  - apply respects_ret.
  - rewrite for_cons. apply respects_bind.
    + apply Hbody. left.
    + intros _. apply IH. intros y Hy. apply Hbody. by right.
Qed.

Lemma respects_getitem {V} (d : gmap string V) key : respects R (getitem d key).
Proof. unfold getitem. destruct (d !! key); [apply respects_ret | apply respects_raise]. Qed.

Lemma respects_getkey {V} key (field : option V) : respects R (getkey key field).
Proof. unfold getkey. destruct field; [apply respects_ret | apply respects_raise]. Qed.

Lemma respects_call {A} (r : exn + A) : respects R (call r).
Proof. unfold call. destruct r; [apply respects_raise | apply respects_ret]. Qed.
End respects.

(** Breaks [respects R m] down along the structure of [m]. *)
Ltac respects_step :=
  lazymatch goal with
  | |- ∀ e k, _ = Some k → respects _ _ => intros [] ? ?; simplify_eq
  | |- ∀ _, _ ∈ _ → respects _ _ => intros ? ?
  | |- ∀ _, respects _ _ => intros ?
  | |- respects _ (mret _) => apply respects_ret
  | |- respects _ (raise _) => apply respects_raise
  | |- respects _ (gets _) => apply respects_gets
  | |- respects _ (getitem _ _) => apply respects_getitem
  | |- respects _ (getkey _ _) => apply respects_getkey
  | |- respects _ (call _) => apply respects_call
  | |- respects _ (_ ≫= _) => apply respects_bind
  | |- respects _ (_ <$> _) => apply respects_fmap
  | |- respects _ (for_ _ _) => apply respects_for
  | |- respects _ (try_except _ _) => apply respects_try
  | |- respects _ (emit _) => apply respects_emit
  | |- respects _ (modify _) => apply respects_modify
  | |- respects _ fresh => apply respects_fresh
  | |- respects _ (match ?x with _ => _ end) => destruct x
  end.

Ltac respects_tac := repeat respects_step.

Ltac interrupted_leaf :=
  intros ? ? (? & ? & ? & ? & ? & ? & ? & ? & ? & t1 & t2 & Ht0 & Ht1);
  unfold interrupted; simpl;
  first
    [ congruence
    | split_and!; try congruence;
      first [ by exists t1, t2
            | eexists (_ :: t1), t2; simpl; by rewrite Ht0, Ht1 ] ].

Lemma hub_steps_respect_interrupt :
  (∀ settings, respects interrupted (_update_settings settings)) ∧
  (∀ name, respects interrupted (poll name)).
Proof.
  split; intros; unfold _update_settings, poll; unfold_hub; respects_tac.
  all: unfold_hub; respects_tac.
  all: interrupted_leaf.
Qed.

Lemma sigint_handler_interrupts h :
  ∃ h1, _sigint_handler h = Ok tt h1 ∧ interrupted h h1.
Proof.
  eexists. split; [reflexivity|]. unfold interrupted. simpl.
  split_and!; try done. by exists [], (trace h).
Qed.

Lemma poll_all_respects_interrupt names :
  respects interrupted (poll_all names).
Proof.
  destruct hub_steps_respect_interrupt as [_ Hpoll].
  unfold poll_all. apply respects_for. intros name _. apply Hpoll.
Qed.

(** *** The steps, run with and without the signal *)

Lemma exec_sig_None {A} (p : Prog A) h : exec_sig p None h = (exec p h, None).
Proof.
  revert h. induction p as [A a|A B m k IH|A B body IHb handles handler IHh k IHk];
    intros h; simpl.
  - done.
  - rewrite bind_unfold. destruct (m h) as [b h'|e h']; [apply IH | done].
  - rewrite bind_unfold. unfold try_except. rewrite IHb.
    destruct (exec body h) as [b h'|e h']; [apply IHk|].
    destruct (handles e); [|done]. rewrite IHh.
    destruct (exec (handler e) h') as [b h''|e' h'']; [apply IHk | done].
Qed.

Lemma exec_respects {A} (p : Prog A) :
  all_steps respects_interrupt p → respects interrupted (exec p).
Proof.
  induction p as [A a|A B m k IH|A B body IHb handles handler IHh k IHk]; simpl.
  - intros _. apply respects_ret.
  - intros [Hm Hk]. apply respects_bind; [exact Hm|]. intros b. by apply IH.
  - intros (Hb & Hh & Hk). apply respects_bind; [|intros b; by apply IHk].
    apply respects_try; [by apply IHb|].
    intros e m He. destruct (handles e); [|done]. injection He as <-. by apply IHh.
Qed.

Lemma exec_sig_after {A} (p : Prog A) h0 h1 :
  all_steps respects_interrupt p →
  interrupted h0 h1 →
  arrived (exec p h0) (exec_sig p None h1).
Proof.
  intros Hp HR. right. rewrite exec_sig_None. split; [done|].
  by apply exec_respects.
Qed.

(** Wherever the signal arrives among the steps of [p], the run is the run
    without it up to the handler. *)
Lemma exec_sig_spec {A} (p : Prog A) c h :
  all_steps respects_interrupt p →
  arrived (exec p h) (exec_sig p (Some c) h).
Proof.
  revert c h.
  induction p as [A a|A B m k IH|A B body IHb handles handler IHh k IHk];
    intros c h; cbn [exec exec_sig all_steps].
  - intros _. left. split; [by eexists | done].
  - intros [Hm Hk]. rewrite bind_unfold. destruct c as [|c]; unfold arrive.
    + destruct (sigint_handler_interrupts h) as (h1 & Hsig & HR).
      rewrite Hsig. cbn [state_of]. specialize (Hm h h1 HR).
      destruct (m h) as [b h'|e h'], (m h1) as [b1 h1'|e1 h1']; try done.
      * destruct Hm as [<- HR']. by apply exec_sig_after.
      * right. done.
    + destruct (m h) as [b h'|e h']; [by apply IH|].
      left. split; [by eexists | done].
  - intros (Hb & Hh & Hk). rewrite bind_unfold. unfold try_except.
    destruct (IHb c h Hb) as [[[c' Hc'] Hsame]|[Hnone Hsame]].
    + destruct (exec_sig body (Some c) h) as [o cb]. simpl in *. subst.
      destruct (exec body h) as [b h'|e h']; [by apply IHk|].
      destruct (handles e); [|left; split; [by eexists | done]].
      destruct (IHh e c' h' (Hh e)) as [[[c'' Hc''] Hsame']|[Hnone' Hsame']].
      * destruct (exec_sig (handler e) (Some c') h') as [o ch]. simpl in *. subst.
        destruct (exec (handler e) h') as [b h''|e' h'']; [by apply IHk|].
        left. split; [by eexists | done].
      * destruct (exec_sig (handler e) (Some c') h') as [o ch]. simpl in *. subst.
        destruct (exec (handler e) h') as [b h''|e' h''], o as [b1 h1|e1 h1]; try done.
        -- destruct Hsame' as [<- HR]. by apply exec_sig_after.
        -- right. done.
    + destruct (exec_sig body (Some c) h) as [o cb]. simpl in *. subst.
      destruct (exec body h) as [b h'|e h'], o as [b1 h1|e1 h1]; try done.
      * destruct Hsame as [<- HR]. by apply exec_sig_after.
      * destruct Hsame as [<- HR]. destruct (handles e); [|right; done].
        pose proof (exec_sig_after (handler e) h' h1 (Hh e) HR) as [[[? ?] _]|[_ Hsame']].
        { by rewrite exec_sig_None in *. }
        rewrite exec_sig_None in *. simpl in *.
        destruct (exec (handler e) h') as [b h''|e' h''],
                 (exec (handler e) h1) as [b1 h1'|e1' h1']; try done.
        -- destruct Hsame' as [<- HR']. by apply exec_sig_after.
        -- right. done.
Qed.

Lemma interrupted_at_spec (p : Prog unit) c h :
  all_steps respects_interrupt p →
  interrupted_run (exec p h) (interrupted_at c p h).
Proof.
  intros Hp. unfold interrupted_at.
  destruct (exec_sig_spec p c h Hp) as [[[c' Hc'] Hsame]|[Hnone Hsame]].
  - destruct (exec_sig p (Some c) h) as [o cb]. simpl in *. subst.
    destruct (exec p h) as [[] h'|e h'].
    + left. destruct (sigint_handler_interrupts h') as (h1 & -> & HR). done.
    + right. by exists e, h'.
  - destruct (exec_sig p (Some c) h) as [o cb]. simpl in *. subst.
    left. by destruct o.
Qed.

(** *** The steps of an iteration are its code *)

Lemma exec_bind {A B} (p : Prog A) (k : A → Prog B) h :
  exec (p ≫= k) h = (exec p ≫= λ a, exec (k a)) h.
Proof.
  revert h. induction p as [A a|A C m k0 IH|A C body IHb handles handler IHh k0 IHk];
    intros h.
  - done.
  - change (exec (Do m k0 ≫= k) h) with ((m ≫= λ b, exec (k0 b ≫= k)) h).
    cbn [exec]. rewrite !bind_unfold. destruct (m h) as [b h'|e h']; [|done].
    rewrite IH. by rewrite bind_unfold.
  - change (exec (Try body handles handler k0 ≫= k) h)
      with ((try_except (exec body)
               (λ e, if handles e then Some (exec (handler e)) else None)
             ≫= λ b, exec (k0 b ≫= k)) h).
    cbn [exec]. rewrite !bind_unfold.
    destruct (try_except _ _ h) as [b h'|e h']; [|done].
    rewrite IHk. by rewrite bind_unfold.
Qed.

Lemma all_steps_bind P {A B} (p : Prog A) (k : A → Prog B) :
  all_steps P p → (∀ a, all_steps P (k a)) → all_steps P (p ≫= k).
Proof.
  induction p as [A a|A C m k0 IH|A C body IHb handles handler IHh k0 IHk];
    intros Hp Hk.
  - apply Hk.
  - destruct Hp as [Hm Hk0]. split; [done|]. intros b. by apply IH.
  - destruct Hp as (Hb & Hh & Hk0). split_and!; try done. intros b. by apply IHk.
Qed.

Lemma faithful_ret {A} (a : A) : faithful (mret a) (mret a).
Proof. by split. Qed.

Lemma faithful_atomic {A} (m : M A) :
  respects interrupted m → faithful (Steps.atomic m) m.
Proof.
  intros Hm. split; [|by split].
  intros h. simpl. rewrite bind_unfold. by destruct (m h).
Qed.

Lemma faithful_bind {A B} (p : Prog A) (m : M A) (k : A → Prog B) (f : A → M B) :
  faithful p m → (∀ a, faithful (k a) (f a)) → faithful (p ≫= k) (m ≫= f).
Proof.
  intros [Hp Hsp] Hk. split.
  - intros h. rewrite exec_bind, !bind_unfold, Hp.
    destruct (m h) as [a h'|e h']; [apply Hk | done].
  - apply all_steps_bind; [done|]. intros a. apply Hk.
Qed.

Lemma faithful_fmap {A B} (g : A → B) (p : Prog A) (m : M A) :
  faithful p m → faithful (g <$> p) (g <$> m).
Proof.
  intros [Hp Hsp]. split.
  - intros h. change (g <$> p) with (p ≫= λ a, mret (g a)).
    rewrite exec_bind, bind_unfold, Hp. unfold fmap, M_fmap.
    by destruct (m h).
  - by apply (all_steps_bind _ p).
Qed.

Lemma faithful_for {A} (xs : list A) (body : A → Prog unit) (body' : A → M unit) :
  (∀ x, faithful (body x) (body' x)) →
  faithful (Steps.for_ xs body) (for_ xs body').
Proof.
  intros Hbody. induction xs as [|x xs IH]; [apply faithful_ret|].
  apply (faithful_bind (body x)); [apply Hbody | by intros _].
Qed.

Lemma faithful_try {A} (body : Prog A) (m : M A) handler handler' :
  faithful body m →
  (∀ e, match handler e, handler' e with
        | Some p, Some m' => faithful p m'
        | None, None => True
        | _, _ => False
        end) →
  faithful (Steps.try_except body handler) (try_except m handler').
Proof.
  intros [Hb Hsb] Hh. split.
  - intros h. unfold Steps.try_except. cbn [exec]. rewrite bind_unfold.
    unfold try_except. rewrite Hb. destruct (m h) as [a h'|e h']; [done|].
    specialize (Hh e). destruct (handler e) as [p|], (handler' e) as [m'|]; try done.
    simpl. destruct Hh as [-> _]. by destruct (m' h').
  - unfold Steps.try_except. split_and!; [done| |done].
    intros e. specialize (Hh e).
    destruct (handler e) as [p|], (handler' e) as [m'|]; try done. apply Hh.
Qed.

Create HintDb steps discriminated.

(** Breaks [faithful p m] down along [p] and [m]; what remains are the
    operations, each to be shown to [respects interrupted]. *)
Ltac faithful_step :=
  lazymatch goal with
  | |- ∀ e : exn, match _ with _ => _ end => intros []; cbv beta iota
  | |- ∀ _, faithful _ _ => intros ?; cbv beta
  | |- True => exact I
  | |- faithful (mret _) _ => apply faithful_ret
  | |- faithful (Steps.atomic _) _ => apply faithful_atomic
  | |- faithful (_ ≫= _) _ => apply faithful_bind
  | |- faithful (_ <$> _) _ => apply faithful_fmap
  | |- faithful (Steps.for_ _ _) _ => apply faithful_for
  | |- faithful (Steps.try_except _ _) _ => apply faithful_try
  | |- faithful (match ?x with _ => _ end) _ => destruct x
  | |- faithful _ _ => solve [auto with steps]
  end.

Ltac faithful_tac :=
  unfold Steps.raise, Steps.gets, Steps.modify, Steps.emit, Steps.fresh,
    Steps.getitem, Steps.getkey, Steps.call;
  repeat faithful_step;
  try (respects_tac; interrupted_leaf).

Lemma set_logging_level_faithful level :
  faithful (Steps._set_logging_level level) (_set_logging_level level).
Proof. unfold Steps._set_logging_level, _set_logging_level. faithful_tac. Qed.

Lemma dispatcher_at_faithful name :
  faithful (Steps.dispatcher_at name) (dispatcher_at name).
Proof. unfold Steps.dispatcher_at, dispatcher_at. faithful_tac. Qed.

Lemma listener_at_faithful name :
  faithful (Steps.listener_at name) (listener_at name).
Proof. unfold Steps.listener_at, listener_at. faithful_tac. Qed.

Lemma queue_at_faithful name : faithful (Steps.queue_at name) (queue_at name).
Proof. unfold Steps.queue_at, queue_at. faithful_tac. Qed.

#[local] Hint Resolve set_logging_level_faithful dispatcher_at_faithful
  listener_at_faithful queue_at_faithful : steps.

Lemma set_stop_faithful name : faithful (Steps.set_stop name) (set_stop name).
Proof. unfold Steps.set_stop, set_stop. faithful_tac. Qed.

#[local] Hint Resolve set_stop_faithful : steps.

Lemma delete_dispatcher_faithful name :
  faithful (Steps.delete_dispatcher name) (delete_dispatcher name).
Proof. unfold Steps.delete_dispatcher, delete_dispatcher. faithful_tac. Qed.

Lemma set_dispatcher_faithful name dis :
  faithful (Steps.set_dispatcher name dis) (set_dispatcher name dis).
Proof. unfold Steps.set_dispatcher, set_dispatcher. faithful_tac. Qed.

Lemma build_dispatcher_faithful name ty dis :
  faithful (Steps.build_dispatcher name ty dis) (build_dispatcher name ty dis).
Proof. unfold Steps.build_dispatcher, build_dispatcher. faithful_tac. Qed.

#[local] Hint Resolve delete_dispatcher_faithful set_dispatcher_faithful
  build_dispatcher_faithful : steps.

Lemma check_dispatcher_faithful settings name :
  faithful (Steps.check_dispatcher settings name) (check_dispatcher settings name).
Proof. unfold Steps.check_dispatcher, check_dispatcher. faithful_tac. Qed.

Lemma create_dispatcher_faithful name dis :
  faithful (Steps.create_dispatcher name dis) (create_dispatcher name dis).
Proof. unfold Steps.create_dispatcher, create_dispatcher. faithful_tac. Qed.

Lemma delete_listener_faithful name :
  faithful (Steps.delete_listener name) (delete_listener name).
Proof. unfold Steps.delete_listener, delete_listener. faithful_tac. Qed.

Lemma set_listener_faithful name lis :
  faithful (Steps.set_listener name lis) (set_listener name lis).
Proof. unfold Steps.set_listener, set_listener. faithful_tac. Qed.

Lemma build_listener_faithful name ty lis :
  faithful (Steps.build_listener name ty lis) (build_listener name ty lis).
Proof. unfold Steps.build_listener, build_listener. faithful_tac. Qed.

#[local] Hint Resolve check_dispatcher_faithful create_dispatcher_faithful
  delete_listener_faithful set_listener_faithful build_listener_faithful : steps.

Lemma check_listener_faithful settings name :
  faithful (Steps.check_listener settings name) (check_listener settings name).
Proof. unfold Steps.check_listener, check_listener. faithful_tac. Qed.

Lemma create_listener_faithful name lis :
  faithful (Steps.create_listener name lis) (create_listener name lis).
Proof. unfold Steps.create_listener, create_listener. faithful_tac. Qed.

#[local] Hint Resolve check_listener_faithful create_listener_faithful : steps.

Lemma update_settings_faithful settings :
  faithful (Steps._update_settings settings) (_update_settings settings).
Proof. unfold Steps._update_settings, _update_settings. faithful_tac. Qed.

Lemma fan_out_one_faithful r name :
  faithful (Steps.fan_out_one r name) (fan_out_one r name).
Proof. unfold Steps.fan_out_one, fan_out_one. faithful_tac. Qed.

#[local] Hint Resolve update_settings_faithful fan_out_one_faithful : steps.

Lemma fan_out_faithful r : faithful (Steps.fan_out r) (fan_out r).
Proof. unfold Steps.fan_out, fan_out. faithful_tac. Qed.

#[local] Hint Resolve fan_out_faithful : steps.

Lemma poll_faithful name : faithful (Steps.poll name) (poll name).
Proof. unfold Steps.poll, poll. faithful_tac. Qed.

#[local] Hint Resolve poll_faithful : steps.

Lemma iteration_faithful c :
  faithful (Steps.iteration c) (iteration (Tick c None)).
Proof.
  unfold Steps.iteration, Steps.poll_all, iteration, poll_all. cbn [sigint changed].
  faithful_tac.
Qed.

(** An iteration of the main loop does the same work wherever the signal
    arrives in it. *)
Lemma iteration_interrupted c pos h :
  interrupted_run (iteration (Tick c None) h) (iteration (Tick c (Some pos)) h).
Proof.
  destruct (iteration_faithful c) as [Hagree Hsteps]. rewrite <- (Hagree h).
  apply (interrupted_at_spec (Steps.iteration c) (from_option S 0 pos) h Hsteps).
Qed.

(** ** Shutdown *)

#[local] Instance no_poll_preorder : PreOrder no_poll.
Proof. split; [done|]. intros h1 h2 h3. unfold no_poll. congruence. Qed.

Lemma close_no_poll : preserves no_poll close.
Proof. unfold close. unfold_hub. preserves_tac; done. Qed.

Lemma set_stop_frames :
  (∀ name, preserves extends (set_stop name)) ∧
  (∀ name other, other ≠ name → preserves (untouched name) (set_stop other)) ∧
  (∀ name, preserves same_listeners (set_stop name)).
Proof.
  split_and!; intros; unfold_hub; preserves_tac;
    first [done | extends_leaf | untouched_leaf].
Qed.

Lemma set_stop_Ok name h d :
  _dispatchers h !! name = Some d →
  ∃ h', set_stop name h = Ok tt h' ∧
        _dispatchers h' !! name = Some (Dispatcher.with_stop true d) ∧
        dispatcher_stop (Dispatcher.id d) ∈ trace h'.
Proof.
  intros Hd. eexists. unfold_hub. mrun. rewrite Hd. simpl.
  split; [reflexivity|]. simpl. rewrite lookup_insert_eq. split; [done | left].
Qed.

Lemma close_spec h :
  ∃ h', close h = Ok tt h' ∧
        no_poll h h' ∧
        (∀ name l, _listeners h !! name = Some l →
                   listener_close (Listener.id l) ∈ trace h') ∧
        (∀ name d, _dispatchers h !! name = Some d →
                   _dispatchers h' !! name = Some (Dispatcher.with_stop true d) ∧
                   dispatcher_stop (Dispatcher.id d) ∈ trace h').
Proof.
  destruct set_stop_frames as (Hsx & Hsu & Hsl).
  set (closing := λ item : string * Listener.t,
                    emit (listener_close (Listener.id item.2))).
  destruct (for_returns (map_to_list (_listeners h)) closing) with (h := h)
    as [h1 H1].
  { intros x h5 _. by eexists. }
  assert (∀ item, preserves extends (closing item)) as Hcx
    by (intros; unfold closing; preserves_tac; extends_leaf).
  assert (∀ item, preserves same_dispatchers (closing item)) as Hcd
    by (intros; unfold closing; preserves_tac; done).
  assert (same_dispatchers h h1) as (Hd1 & _).
  { eapply (for_Ok_frame same_dispatchers), H1. intros ? _. apply Hcd. }
  destruct (for_returns_at (λ name h, is_Some (_dispatchers h !! name))
              (keys (_dispatchers h1)) set_stop (keys_NoDup _)) with (h := h1)
    as [h2 H2].
  { intros x y h5 h6 Hne Hx Hstep.
    destruct (preserves_Ok _ _ _ _ _ (Hsu x y (not_eq_sym Hne)) Hstep) as (-> & _).
    done. }
  { intros name h5 _ [d Hd]. destruct (set_stop_Ok name h5 d Hd) as (h6 & ? & _).
    eauto. }
  { intros name Hname. by apply elem_of_keys in Hname. }
  set (h' := upd_trace (cons logging_shutdown)
               (upd_trace (cons (log_info "Exiting hub...")) h2)).
  assert (close h = Ok tt h') as Hclose.
  { unfold close. rewrite bind_unfold. simpl.
    rewrite (bind_unfold (for_ _ _)). fold closing. rewrite H1.
    rewrite bind_unfold. simpl. rewrite (bind_unfold (for_ _ _)), H2.
    reflexivity. }
  assert (extends h2 h') as Hx'.
  { unfold h', extends. simpl. split_and!; [lia | | done].
    by exists [logging_shutdown; log_info "Exiting hub..."]. }
  exists h'. split; [done|]. split_and!.
  - pose proof (close_no_poll h) as Hnp. by rewrite Hclose in Hnp.
  - intros name l Hl.
    destruct (for_Ok_at extends extends (map_to_list (_listeners h)) closing
                (name, l) h h1) as (ha & hb & _ & _ & Hstep & _ & Hbx);
      [apply NoDup_map_to_list | by apply elem_of_map_to_list
      | intros ? _ _; apply Hcx | intros ? _; apply Hcx | exact H1 |].
    injection Hstep as <-.
    eapply extends_trace; [exact Hx'|].
    eapply extends_trace.
    { eapply (for_Ok_frame extends), H2. intros ? _. apply Hsx. }
    eapply extends_trace; [exact Hbx|]. left.
  - intros name d Hd. rewrite <- Hd1 in Hd.
    destruct (for_Ok_at (untouched name) extends (keys (_dispatchers h1)) set_stop
                name h1 h2 (keys_NoDup _))
      as (ha & hb & (Had & _) & _ & Hstep & (Hbd & _) & Hbx);
      [apply elem_of_keys; eauto | intros y _ Hy; by apply Hsu
      | intros ? _; apply Hsx | exact H2 |].
    rewrite Hd in Had. destruct (set_stop_Ok name ha d Had) as (hb' & Hstep' & Hnew & Hev).
    rewrite Hstep in Hstep'. injection Hstep' as <-.
    split.
    + change (_dispatchers h') with (_dispatchers h2). by rewrite Hbd.
    + eapply extends_trace; [exact Hx'|]. by eapply extends_trace.
Qed.



(** * Further properties of the hub *)

(** ** What a tick that returns leaves behind *)

(** The entry of [temp_buffer] for a name whose dispatcher is kept, or that
    neither has a dispatcher nor is listed. *)
Lemma reconciled_temp_buffer settings h h' name :
  _update_settings settings h = Ok tt h' →
  match _dispatchers h !! name with
  | Some d =>
      ∀ dis, dispatchers settings !! name = Some dis →
             desc_init_settings dis = Some (Dispatcher.init_settings d) →
             is_Some (desc_type dis) →
             temp_buffer h' !! name = None
  | None => dispatchers settings !! name = None → temp_buffer h' !! name = None
  end.
Proof.
  intros Hrun.
  apply update_settings_stages in Hrun
    as (hl & h1 & h2 & h3 & h4 & Hlog & H1 & H2 & H3 & H4 & ->).
  destruct (update_settings_head _ _ _ name Hlog) as (_ & Hd0 & _ & _).
  destruct (update_settings_tail _ _ _ _ H3 H4) as [(_ & _ & ->) _].
  set (h0 := upd_temp_buffer (λ _, ∅) hl) in *.
  change (keys (_dispatchers hl)) with (keys (_dispatchers h0)) in H1.
  destruct (check_dispatchers_at _ _ _ name H1) as [_ Hat1].
  destruct (create_dispatchers_at _ _ _ name H2) as [_ Hat2].
  change (_dispatchers h0) with (_dispatchers hl) in Hat1. rewrite Hd0 in Hat1.
  destruct (_dispatchers h !! name) as [d|].
  - intros dis Hdis Hinit [ty Hty].
    destruct Hat1 as (dis' & init & Hdis' & Hinit' & _ & Hcases).
    rewrite Hdis in Hdis'. injection Hdis' as <-.
    rewrite Hinit in Hinit'. injection Hinit' as <-.
    rewrite decide_True, Hty in Hcases by done. destruct Hcases as [Ht1 Hd1].
    rewrite Hdis in Hat2.
    destruct Hat2 as (ha & hb & (Had & _ & Hat & _) & _ & Hstep & (_ & _ & Hbt & _) & _).
    apply create_dispatcher_Ok in Hstep. rewrite Had, Hd1 in Hstep.
    destruct Hstep as (_ & _ & _ & _ & Ht). by rewrite Hbt, Ht, Hat, Ht1.
  - intros Hdis. rewrite Hdis in Hat2.
    destruct Hat1 as (_ & _ & Ht1 & _). destruct Hat2 as (_ & _ & Ht2 & _).
    by rewrite Ht2, Ht1.
Qed.

(** X1.  What [temp_buffer] holds after a tick that returns was backed up
    during that tick: it is the buffer, not empty, of a dispatcher that was
    live before with other [init_settings] than those of the settings, and
    no dispatcher is live under that name afterwards. *)
Theorem temp_buffer_only_failed_rebuilds settings h h' name b :
  _update_settings settings h = Ok tt h' →
  temp_buffer h' !! name = Some b →
  _dispatchers h' !! name = None ∧
  ∃ d dis init,
    _dispatchers h !! name = Some d ∧
    dispatchers settings !! name = Some dis ∧
    desc_init_settings dis = Some init ∧
    Dispatcher.init_settings d ≠ init ∧
    Dispatcher._data_buffer d = b ∧
    b ≠ [].
Proof.
  intros Hrun Hb.
  pose proof (reconciled_temp_buffer _ _ _ name Hrun) as Htemp.
  destruct (reconciled_dispatcher _ _ _ name Hrun) as [_ Hat].
  assert (∀ dis saved, created_as name dis saved h h' →
                       _dispatchers h' !! name = None ∧ saved = Some b) as Hcreated.
  { intros dis saved Hc. unfold created_as in Hc.
    destruct (desc_type dis) as [ty|].
    - destruct Hc as (class & init & qid & _ & _ & _ & _ & Hc).
      destruct (class name init) as [[]|[s0 b0]]; try done.
      + destruct Hc as (? & ? & _). split; congruence.
      + destruct Hc as (? & _ & _ & ?). congruence.
    - destruct Hc as (? & _ & ?). split; congruence. }
  destruct (_dispatchers h !! name) as [d|].
  - destruct Hat as (dis & init & Hdis & Hinit & Hat). case_decide as Hkept.
    + destruct Hkept as [<- Hty]. rewrite (Htemp dis) in Hb; done.
    + destruct Hat as [_ Hc]. apply Hcreated in Hc as [Hnone Hsaved].
      split; [done|]. exists d, dis, init. unfold backed_up in Hsaved.
      repeat case_decide; simplify_eq. done.
  - destruct (dispatchers settings !! name) as [dis|].
    + apply Hcreated in Hat as [_ ?]. done.
    + rewrite Htemp in Hb; done.
Qed.

Lemma created_as_listed settings name dis saved h h' d' :
  dispatchers settings !! name = Some dis →
  created_as name dis saved h h' →
  _dispatchers h' !! name = Some d' →
  dispatcher_as_listed settings name d'.
Proof.
  intros Hdis Hc Hd'. unfold created_as in Hc.
  destruct (desc_type dis) as [ty|] eqn:Hty; [|destruct Hc; congruence].
  destruct Hc as (class & init & qid & _ & Hinit & _ & _ & Hc).
  destruct (class name init) as [[]|[s b]]; try done; [destruct Hc; congruence|].
  destruct Hc as (runtime & Hrt & Hnew & _). rewrite Hd' in Hnew.
  injection Hnew as ->. exists dis, runtime, s. rewrite Hty. eauto.
Qed.

Lemma listener_created_as_listed settings name lis h h' l' :
  listeners settings !! name = Some lis →
  listener_created_as name lis h h' →
  _listeners h' !! name = Some l' →
  listener_as_listed settings name l' ∧ Listener.name l' = Some name.
Proof.
  intros Hlis Hc Hl'. unfold listener_created_as in Hc.
  destruct (desc_type lis) as [ty|] eqn:Hty; [|congruence].
  destruct Hc as (class & init & _ & Hinit & Hc).
  destruct (class init) as [[]|[s src]]; try done; [destruct Hc; congruence|].
  destruct Hc as (runtime & id & Hrt & _ & Hnew). rewrite Hl' in Hnew.
  injection Hnew as ->. split; [|done]. exists lis, runtime, s. rewrite Hty. eauto.
Qed.

(** X2.  After a tick that returns, every live dispatcher is listed in the
    settings with a type, records the ['init_settings'] of the settings,
    and has had [set] called with the ['runtime_settings'] of the
    settings. *)
Theorem live_dispatchers_as_listed settings h h' name d' :
  _update_settings settings h = Ok tt h' →
  _dispatchers h' !! name = Some d' →
  dispatcher_as_listed settings name d'.
Proof.
  intros Hrun Hd'. destruct (reconciled_dispatcher _ _ _ name Hrun) as [_ Hat].
  destruct (_dispatchers h !! name) as [d|].
  - destruct Hat as (dis & init & Hdis & Hinit & Hat). case_decide as Hkept.
    + destruct Hat as (runtime & Hrt & Hnew & _). rewrite Hd' in Hnew.
      injection Hnew as ->. destruct Hkept as [<- Hty].
      exists dis, runtime, (Dispatcher._settings d). by split_and!.
    + destruct Hat as [_ Hc]. by eapply created_as_listed.
  - destruct (dispatchers settings !! name) as [dis|] eqn:Hdis.
    + by eapply created_as_listed.
    + destruct Hat. congruence.
Qed.

(** X3.  After a tick that returns, every live listener is listed in the
    settings with a type, records the ['init_settings'] of the settings,
    and has had [set] called with the ['runtime_settings'] of the settings;
    its [name] attribute is its name in the hub, provided this held of the
    listener that was live under that name before the tick, if any. *)
Theorem live_listeners_as_listed settings h h' name l' :
  _update_settings settings h = Ok tt h' →
  _listeners h' !! name = Some l' →
  listener_as_listed settings name l' ∧
  ((∀ l, _listeners h !! name = Some l → Listener.name l = Some name) →
   Listener.name l' = Some name).
Proof.
  intros Hrun Hl'. pose proof (reconciled_listener _ _ _ name Hrun) as Hat.
  destruct (_listeners h !! name) as [l|].
  - destruct Hat as (lis & init & Hlis & Hinit & Hat). case_decide as Hkept.
    + destruct Hat as (runtime & Hrt & Hnew). rewrite Hl' in Hnew.
      injection Hnew as ->. destruct Hkept as [<- Hty].
      split; [|intros Hname; exact (Hname l eq_refl)].
      exists lis, runtime, (Listener._settings l). by split_and!.
    + destruct Hat as [_ Hc].
      destruct (listener_created_as_listed _ _ _ _ _ _ Hlis Hc Hl'). done.
  - destruct (listeners settings !! name) as [lis|] eqn:Hlis; [|congruence].
    destruct (listener_created_as_listed _ _ _ _ _ _ Hlis Hat Hl'). done.
Qed.

(** X4.  A live component whose descriptor still has a type and the
    ['init_settings'] it records is re-configured in place by a tick that
    returns: the hub holds the same object, with the result of [set] on the
    ['runtime_settings'] as its settings; for a dispatcher the queue, with
    what is on it, is the same, and nothing is backed up. *)
Theorem runtime_settings_applied_in_place settings h h' name :
  _update_settings settings h = Ok tt h' →
  (∀ d dis,
     _dispatchers h !! name = Some d →
     dispatchers settings !! name = Some dis →
     desc_init_settings dis = Some (Dispatcher.init_settings d) →
     is_Some (desc_type dis) →
     ∃ runtime,
       desc_runtime_settings dis = Some runtime ∧
       _dispatchers h' !! name =
       Some (Dispatcher.with_settings
               (ehd_set (Dispatcher.cls d) (Dispatcher._settings d) runtime) d) ∧
       _queue h' !! name = _queue h !! name ∧
       temp_buffer h' !! name = None) ∧
  (∀ l lis,
     _listeners h !! name = Some l →
     listeners settings !! name = Some lis →
     desc_init_settings lis = Some (Listener.init_settings l) →
     is_Some (desc_type lis) →
     ∃ runtime,
       desc_runtime_settings lis = Some runtime ∧
       _listeners h' !! name =
       Some (Listener.with_settings
               (ehl_set (Listener.cls l) (Listener._settings l) runtime) l)).
Proof.
  intros Hrun. split.
  - intros d dis Hd Hdis Hinit Hty.
    destruct (reconciled_dispatcher _ _ _ name Hrun) as [_ Hat].
    pose proof (reconciled_temp_buffer _ _ _ name Hrun) as Htemp.
    rewrite Hd in Hat, Htemp.
    destruct Hat as (dis' & init & Hdis' & Hinit' & Hat).
    rewrite Hdis in Hdis'. injection Hdis' as <-.
    rewrite Hinit in Hinit'. injection Hinit' as <-.
    rewrite decide_True in Hat by done.
    destruct Hat as (runtime & Hrt & Hnew & Hq).
    exists runtime. split_and!; try done. by apply (Htemp dis).
  - intros l lis Hl Hlis Hinit Hty.
    pose proof (reconciled_listener _ _ _ name Hrun) as Hat. rewrite Hl in Hat.
    destruct Hat as (lis' & init & Hlis' & Hinit' & Hat).
    rewrite Hlis in Hlis'. injection Hlis' as <-.
    rewrite Hinit in Hinit'. injection Hinit' as <-.
    by rewrite decide_True in Hat.
Qed.

Lemma live_dispatcher_init settings h h' name d' :
  _update_settings settings h = Ok tt h' →
  _dispatchers h' !! name = Some d' →
  ∃ dis, dispatchers settings !! name = Some dis ∧
         is_Some (desc_type dis) ∧
         desc_init_settings dis = Some (Dispatcher.init_settings d').
Proof.
  intros Hrun Hd'. destruct (reconciled_dispatcher _ _ _ name Hrun) as [_ Hat].
  assert (∀ dis saved, dispatchers settings !! name = Some dis →
                       created_as name dis saved h h' →
                       is_Some (desc_type dis) ∧
                       desc_init_settings dis = Some (Dispatcher.init_settings d'))
    as Hcreated.
  { intros dis saved Hdis Hc.
    destruct (created_as_listed _ _ _ _ _ _ _ Hdis Hc Hd')
      as (dis' & _ & _ & Hdis' & ? & ? & _).
    rewrite Hdis in Hdis'. by injection Hdis' as <-. }
  destruct (_dispatchers h !! name) as [d|].
  - destruct Hat as (dis & init & Hdis & Hinit & Hat). exists dis.
    split; [done|]. case_decide as Hkept.
    + destruct Hat as (runtime & _ & Hnew & _). rewrite Hd' in Hnew.
      injection Hnew as ->. by destruct Hkept as [<- Hty].
    + destruct Hat as [_ Hc]. by eapply Hcreated.
  - destruct (dispatchers settings !! name) as [dis|] eqn:Hdis.
    + exists dis. split; [done|]. by eapply Hcreated.
    + destruct Hat. congruence.
Qed.

Lemma live_listener_init settings h h' name l' :
  _update_settings settings h = Ok tt h' →
  _listeners h' !! name = Some l' →
  ∃ lis, listeners settings !! name = Some lis ∧
         is_Some (desc_type lis) ∧
         desc_init_settings lis = Some (Listener.init_settings l').
Proof.
  intros Hrun Hl'. pose proof (reconciled_listener _ _ _ name Hrun) as Hat.
  assert (∀ lis, listeners settings !! name = Some lis →
                 listener_created_as name lis h h' →
                 is_Some (desc_type lis) ∧
                 desc_init_settings lis = Some (Listener.init_settings l'))
    as Hcreated.
  { intros lis Hlis Hc.
    destruct (listener_created_as_listed _ _ _ _ _ _ Hlis Hc Hl')
      as [(lis' & _ & _ & Hlis' & ? & ? & _) _].
    rewrite Hlis in Hlis'. by injection Hlis' as <-. }
  destruct (_listeners h !! name) as [l|].
  - destruct Hat as (lis & init & Hlis & Hinit & Hat). exists lis.
    split; [done|]. case_decide as Hkept.
    + destruct Hat as (runtime & _ & Hnew). rewrite Hl' in Hnew.
      injection Hnew as ->. by destruct Hkept as [<- Hty].
    + destruct Hat as [_ Hc]. by eapply Hcreated.
  - destruct (listeners settings !! name) as [lis|] eqn:Hlis; [|congruence].
    exists lis. split; [done|]. by eapply Hcreated.
Qed.

(** ** What a tick does to the queues *)

#[local] Instance queues_kept_or_new_preorder : PreOrder queues_kept_or_new.
Proof.
  split; [intros h; split_and!; [done | done | lia | by left]|].
  intros h1 h2 h3 (He1 & Hh1 & Hn1 & Hq1) (He2 & Hh2 & Hn2 & Hq2).
  split_and!; [congruence | congruence | lia |].
  intros name q' Hq3. destruct (Hq2 name q' Hq3) as [Hq|[? ?]]; [|right; split; [done|lia]].
  by apply Hq1.
Qed.

Ltac queues_leaf :=
  unfold queues_kept_or_new; simpl;
  split_and!; [done | done | lia |];
  let Hq := fresh "Hq" in
  intros ? ? Hq; rewrite ?lookup_insert_Some in Hq;
  first [ by left
        | destruct Hq as [[<- <-]|[_ ?]]; [right; simpl; split; [done|lia] | by left] ].

Lemma reconcile_steps_queues (settings : Settings) :
  preserves queues_kept_or_new (_set_logging_level (hub_loglevel settings)) ∧
  (∀ name, preserves queues_kept_or_new (check_dispatcher settings name)) ∧
  (∀ name dis, preserves queues_kept_or_new (create_dispatcher name dis)) ∧
  (∀ name, preserves queues_kept_or_new (check_listener settings name)) ∧
  (∀ name lis, preserves queues_kept_or_new (create_listener name lis)).
Proof.
  split_and!; intros; intros h; mexec; queues_leaf.
Qed.

(** X6.  A tick puts nothing on a queue and takes nothing off, whether it
    returns or raises: every queue the hub holds afterwards is the queue it
    held under that name before, or a queue made in the tick, which is
    empty.  The value records and the exit flag are as before. *)
Theorem tick_never_enqueues settings h :
  _exit (state_of (_update_settings settings h)) = _exit h ∧
  heap (state_of (_update_settings settings h)) = heap h ∧
  ∀ name q',
    _queue (state_of (_update_settings settings h)) !! name = Some q' →
    _queue h !! name = Some q' ∨ (q_items q' = [] ∧ next_id h ≤ q_id q').
Proof.
  destruct (reconcile_steps_queues settings) as (Hlog & H1 & H2 & H3 & H4).
  assert (preserves queues_kept_or_new (_update_settings settings)) as Htick.
  { unfold _update_settings. preserves_tac; try done. all: queues_leaf. }
  destruct (Htick h) as (? & ? & _ & ?). done.
Qed.

(** ** Components whose ['type'] was removed *)

(** X7.  Removing ['type'] from the descriptor of a live component deletes
    the component in a tick that returns: the dispatcher is stopped, its
    queue stays in [_queue] as it is, and its buffer is backed up only if
    the ['init_settings'] changed as well; the listener is closed.  No
    component is created under a name whose descriptor has no type. *)
Theorem untyped_component_is_deleted settings h h' name :
  _update_settings settings h = Ok tt h' →
  (∀ dis, dispatchers settings !! name = Some dis → desc_type dis = None →
     _dispatchers h' !! name = None ∧
     _queue h' !! name = _queue h !! name ∧
     ∀ d, _dispatchers h !! name = Some d →
          dispatcher_stop (Dispatcher.id d) ∈ trace h' ∧
          ∃ init, desc_init_settings dis = Some init ∧
                  temp_buffer h' !! name = backed_up d init) ∧
  (∀ lis, listeners settings !! name = Some lis → desc_type lis = None →
     _listeners h' !! name = None ∧
     ∀ l, _listeners h !! name = Some l →
          listener_close (Listener.id l) ∈ trace h').
Proof.
  intros Hrun. split.
  - intros dis Hdis Hty. destruct (reconciled_dispatcher _ _ _ name Hrun) as [_ Hat].
    rewrite Hdis in Hat. unfold created_as in Hat. rewrite Hty in Hat.
    destruct (_dispatchers h !! name) as [d|].
    + destruct Hat as (? & init & [= <-] & Hinit & Hat).
      rewrite decide_False in Hat by (rewrite Hty; intros [_ [? ?]]; done).
      rewrite Hty in Hat. destruct Hat as (Hstop & Hnone & Hq & Htemp).
      split_and!; try done. intros ? [= <-]. eauto.
    + destruct Hat as (Hnone & Hq & _). split_and!; done.
  - intros lis Hlis Hty. pose proof (reconciled_listener _ _ _ name Hrun) as Hat.
    rewrite Hlis in Hat. unfold listener_created_as in Hat. rewrite Hty in Hat.
    destruct (_listeners h !! name) as [l|]; [|done].
    destruct Hat as (? & init & [= <-] & Hinit & Hat).
    rewrite decide_False in Hat by (rewrite Hty; intros [_ [? ?]]; done).
    rewrite Hty in Hat. destruct Hat as [Hclose Hnone].
    split; [done|]. by intros ? [= <-].
Qed.

(** ** Listeners that cannot be created *)

Lemma listener_created_as_live name lis h h' :
  listener_created_as name lis h h' →
  is_Some (_listeners h' !! name) ↔ listener_accepted lis = true.
Proof.
  unfold listener_created_as, listener_accepted. destruct (desc_type lis) as [ty|].
  - intros (class & init & -> & -> & Hcase).
    destruct (class init) as [[]|[s src]]; try done.
    + destruct Hcase as (-> & _). split; [by intros [? ?] | done].
    + destruct Hcase as (runtime & id & _ & _ & ->). split; eauto.
  - intros ->. split; [by intros [? ?] | done].
Qed.

Lemma listener_kept_by_spec h name l lis :
  _listeners h !! name = Some l →
  listener_kept_by h name lis = true ↔
  (∃ init, desc_init_settings lis = Some init ∧ Listener.init_settings l = init)
  ∧ is_Some (desc_type lis).
Proof.
  intros Hl. unfold listener_kept_by. rewrite Hl.
  rewrite andb_true_iff, !bool_decide_eq_true. split.
  - intros [? ?]. eauto.
  - intros [(init & -> & <-) ?]. done.
Qed.

Lemma listeners_after_tick settings h h' name :
  _update_settings settings h = Ok tt h' →
  is_Some (_listeners h' !! name) ↔
  ∃ lis, listeners settings !! name = Some lis ∧
         listener_established h (name, lis) = true.
Proof.
  intros Hrun. pose proof (reconciled_listener _ _ _ name Hrun) as Hat.
  unfold listener_established. simpl.
  destruct (_listeners h !! name) as [l|] eqn:Hl.
  - destruct Hat as (lis & init & Hlis & Hinit & Hat). rewrite Hlis.
    case_decide as Hk.
    + destruct Hat as (runtime & _ & ->). split; [|eauto].
      intros _. exists lis. split; [done|]. apply orb_true_iff. left.
      apply (listener_kept_by_spec h name l lis Hl). destruct Hk. eauto.
    + destruct Hat as [_ Hat]. rewrite (listener_created_as_live _ _ _ _ Hat).
      assert (listener_kept_by h name lis = false) as Hb.
      { apply not_true_is_false. intros Hb%(listener_kept_by_spec h name l lis Hl).
        destruct Hb as [(init' & Hinit' & ?) ?]. apply Hk.
        rewrite Hinit in Hinit'. by injection Hinit' as <-. }
      split.
      * intros Hacc. exists lis. split; [done|]. by rewrite Hb.
      * intros (lis' & [= <-] & Hest). by rewrite Hb in Hest.
  - assert (∀ lis, listener_kept_by h name lis = false) as Hb
      by (intros; unfold listener_kept_by; by rewrite Hl).
    destruct (listeners settings !! name) as [lis|].
    + rewrite (listener_created_as_live _ _ _ _ Hat). split.
      * intros Hacc. exists lis. by rewrite Hb.
      * intros (lis' & [= <-] & Hest). by rewrite Hb in Hest.
    + rewrite Hat. split; [by intros [? ?] | by intros (? & ? & _)].
Qed.

(** X8.  On settings with a level name that [_set_logging_level] returns
    on, that list every live component and whose descriptors can all be
    processed, a tick returns, and the listeners that are live afterwards
    are those it kept and those whose class built them.  A listener whose
    class raises [EmonHubListenerInitError] is logged and left out; the
    others are not affected. *)
Theorem listener_failure_is_isolated settings h :
  settings_ok settings h →
  ∃ h',
    _update_settings settings h = Ok tt h' ∧
    (∀ name, is_Some (_listeners h' !! name) ↔
             ∃ lis, listeners settings !! name = Some lis ∧
                    listener_established h (name, lis) = true) ∧
    ∀ name lis,
      listeners settings !! name = Some lis →
      is_Some (desc_type lis) →
      listener_established h (name, lis) = false →
      _listeners h' !! name = None ∧
      ∃ msg, log_error ("Failed to create '" +:+ name +:+ "' listener: " +:+ msg)
               ∈ trace h'.
Proof.
  intros Hok. destruct (update_settings_returns settings h Hok) as [h' Hrun].
  exists h'. split; [done|]. split; [intros name; by apply listeners_after_tick|].
  intros name lis Hlis [ty Hty] Hest.
  unfold listener_established in Hest. simpl in Hest.
  apply orb_false_iff in Hest as [Hnk Hna].
  pose proof (reconciled_listener _ _ _ name Hrun) as Hat. rewrite Hlis in Hat.
  assert (listener_created_as name lis h h') as Hc.
  { destruct (_listeners h !! name) as [l|] eqn:Hl; [|done].
    destruct Hat as (? & init & [= <-] & Hinit & Hat).
    case_decide as Hk; [|by destruct Hat].
    exfalso. apply not_true_iff_false in Hnk. apply Hnk.
    apply (listener_kept_by_spec h name l lis Hl). destruct Hk. eauto. }
  unfold listener_created_as in Hc. unfold listener_accepted in Hna.
  rewrite Hty in Hc, Hna. destruct Hc as (class & init & Hclass & Hinit & Hc).
  rewrite Hinit, Hclass in Hna.
  destruct (class init) as [[]|[? ?]]; try done.
  destruct Hc. eauto.
Qed.

(** ** Invariants of the main loop *)

Lemma poll_all_preserves (R : relation EmonHub) `{!PreOrder R} names :
  (∀ name, preserves R (poll name)) →
  preserves R (poll_all names).
Proof.
  intros Hpoll. unfold poll_all. apply preserves_for; [done|].
  intros name _. apply Hpoll.
Qed.

Lemma iteration_preserves_quiet (R : relation EmonHub) `{!PreOrder R} c :
  (∀ settings, preserves R (_update_settings settings)) →
  (∀ name, preserves R (poll name)) →
  (∀ h, R h (upd_trace (cons interface_run) h)) →
  (∀ h, R h (upd_trace (cons sleep) h)) →
  preserves R (iteration (Tick c None)).
Proof.
  intros Htick Hpoll Hrun Hsleep. unfold iteration. cbn [sigint changed].
  preserves_tac; try done.
  by apply poll_all_preserves.
Qed.

(** What holds of an iteration without the signal holds of it with the
    signal, when the handler does not matter to it. *)
Lemma iteration_preserves (R : relation EmonHub) `{!PreOrder R} t :
  (∀ h h0 h1, R h h0 → interrupted h0 h1 → R h h1) →
  (∀ settings, preserves R (_update_settings settings)) →
  (∀ name, preserves R (poll name)) →
  (∀ h, R h (upd_trace (cons interface_run) h)) →
  (∀ h, R h (upd_trace (cons sleep) h)) →
  preserves R (iteration t).
Proof.
  intros Hint Htick Hpoll Hrun Hsleep.
  destruct t as [c [pos|]]; [|by apply iteration_preserves_quiet].
  intros h.
  pose proof (iteration_preserves_quiet R c Htick Hpoll Hrun Hsleep h) as Hq.
  destruct (iteration_interrupted c pos h) as [Hsame|(e & h' & E0 & E1)].
  - destruct (iteration (Tick c None) h) as [a0 h0|e0 h0],
             (iteration (Tick c (Some pos)) h) as [a1 h1|e1 h1]; try done.
    + destruct Hsame as [_ HR]. by apply (Hint h h0 h1).
    + destruct Hsame as [_ HR]. by apply (Hint h h0 h1).
  - rewrite E1. by rewrite E0 in Hq.
Qed.

Lemma run_preserves (R : relation EmonHub) `{!PreOrder R} ticks :
  (∀ t, t ∈ ticks → preserves R (iteration t)) →
  preserves R (run ticks).
Proof.
  induction ticks as [|t ticks IH]; intros Hit; simpl; preserves_tac; try done.
  - apply Hit. left.
  - apply IH. intros t' Ht'. apply Hit. by right.
Qed.

Lemma loop_steps_keep_queues :
  preserves keeps_queues _sigint_handler ∧
  (∀ name, preserves keeps_queues (poll name)) ∧
  (∀ name, preserves keeps_queues (set_stop name)).
Proof.
  split_and!; intros.
  - unfold_hub. preserves_tac; keeps_queues_leaf.
  - unfold poll. unfold_hub. preserves_tac.
    all: unfold_hub; preserves_tac.
    all: keeps_queues_leaf.
  - intros h. mexec; keeps_queues_leaf.
Qed.

(** X9.  The hub keeps a queue for every live dispatcher all the way:
    what [__init__] establishes is kept by every iteration of the loop, by
    [run], by [close] and by the two in sequence, whether they return or
    raise, and no name ever loses its queue. *)
Theorem queues_survive_the_loop ticks :
  (∀ t, preserves keeps_queues (iteration t)) ∧
  preserves keeps_queues (run ticks) ∧
  preserves keeps_queues close ∧
  preserves keeps_queues (main ticks).
Proof.
  destruct loop_steps_keep_queues as (Hsig & Hpoll & Hstop).
  assert (∀ t, preserves keeps_queues (iteration t)) as Hit.
  { pose proof update_settings_keeps_queues as Htick.
    assert (∀ e h, keeps_queues h (upd_trace (cons e) h)) as Hemit
      by (intros; keeps_queues_leaf).
    assert (∀ h h0 h1, keeps_queues h h0 → interrupted h0 h1 → keeps_queues h h1)
      as Hint.
    { intros h h0 h1 HR (_ & _ & Hds & _ & Hqs & _).
      unfold keeps_queues, queues_present in *. by rewrite Hds, Hqs. }
    intros t. apply iteration_preserves; [typeclasses eauto | done..]. }
  assert (preserves keeps_queues close) as Hclose.
  { unfold close. preserves_tac; try done. all: keeps_queues_leaf. }
  assert (∀ ts, preserves keeps_queues (run ts)) as Hrun.
  { intros ts. apply run_preserves; [typeclasses eauto|]. intros t _. apply Hit. }
  split_and!; try done.
  unfold main. apply preserves_bind; [typeclasses eauto | done | done].
Qed.

#[local] Instance same_exit_preorder : PreOrder same_exit.
Proof.
  split; [done|]. intros h1 h2 h3 H1 H2. unfold same_exit in *. congruence.
Qed.

Lemma reconcile_steps_same_exit (settings : Settings) :
  preserves same_exit (_set_logging_level (hub_loglevel settings)) ∧
  (∀ name, preserves same_exit (check_dispatcher settings name)) ∧
  (∀ name dis, preserves same_exit (create_dispatcher name dis)) ∧
  (∀ name, preserves same_exit (check_listener settings name)) ∧
  (∀ name lis, preserves same_exit (create_listener name lis)).
Proof.
  split_and!; intros; unfold_hub; preserves_tac; done.
Qed.

Lemma update_settings_same_exit settings :
  preserves same_exit (_update_settings settings).
Proof.
  destruct (reconcile_steps_same_exit settings) as (Hlog & H1 & H2 & H3 & H4).
  unfold _update_settings. preserves_tac; done.
Qed.



#[local] Instance not_closed_preorder : PreOrder not_closed.
Proof.
  split; [intros h Hin; exact Hin|]. intros h1 h2 h3 H1 H2 Hin. by apply H1, H2.
Qed.

#[local] Instance keeps_running_preorder : PreOrder keeps_running.
Proof.
  split; [intros h Hin; exact Hin|]. intros h1 h2 h3 H1 H2 Hin. by apply H2, H1.
Qed.

Ltac not_closed_leaf :=
  unfold not_closed; simpl; rewrite ?elem_of_cons; naive_solver.

Ltac running_leaf :=
  unfold keeps_running, all_running, map_Forall; simpl;
  let Hall := fresh "Hall" in
  intros Hall;
  rewrite ?lookup_insert_eq in *; simplify_eq/=;
  try done;
  let Hn := fresh "Hn" in
  intros ? ? Hn;
  rewrite ?lookup_delete_Some, ?lookup_insert_Some in Hn;
  naive_solver.

Lemma reconcile_steps_not_closed (settings : Settings) :
  preserves not_closed (_set_logging_level (hub_loglevel settings)) ∧
  (∀ name, preserves not_closed (check_dispatcher settings name)) ∧
  (∀ name dis, preserves not_closed (create_dispatcher name dis)) ∧
  (∀ name, preserves not_closed (check_listener settings name)) ∧
  (∀ name lis, preserves not_closed (create_listener name lis)).
Proof.
  split_and!; intros; unfold_hub; preserves_tac; not_closed_leaf.
Qed.

Lemma run_not_closed ticks : preserves not_closed (run ticks).
Proof.
  assert (preserves not_closed _sigint_handler) as Hsig
    by (unfold_hub; preserves_tac; not_closed_leaf).
  assert (∀ settings, preserves not_closed (_update_settings settings)) as Htick.
  { intros settings.
    destruct (reconcile_steps_not_closed settings) as (Hlog & H1 & H2 & H3 & H4).
    unfold _update_settings. preserves_tac; try done. all: not_closed_leaf. }
  assert (∀ name, preserves not_closed (poll name)) as Hpoll.
  { intros name. unfold poll. unfold_hub. preserves_tac.
    all: unfold_hub; preserves_tac.
    all: not_closed_leaf. }
  assert (∀ h, not_closed h (upd_trace (cons interface_run) h)) as Hrun
    by (intros; not_closed_leaf).
  assert (∀ h, not_closed h (upd_trace (cons sleep) h)) as Hsleep
    by (intros; not_closed_leaf).
  assert (∀ h h0 h1, not_closed h h0 → interrupted h0 h1 → not_closed h h1) as Hint.
  { intros h h0 h1 HR (_ & _ & _ & _ & _ & _ & _ & _ & _ & t1 & t2 & Ht0 & Ht1) Hin.
    apply HR. rewrite Ht0. rewrite Ht1 in Hin.
    rewrite elem_of_app, elem_of_cons in Hin. rewrite elem_of_app.
    naive_solver. }
  apply run_preserves; [typeclasses eauto|]. intros t _.
  apply iteration_preserves; [typeclasses eauto | done..].
Qed.

Lemma reconcile_steps_keep_running (settings : Settings) :
  preserves keeps_running (_set_logging_level (hub_loglevel settings)) ∧
  (∀ name, preserves keeps_running (check_dispatcher settings name)) ∧
  (∀ name dis, preserves keeps_running (create_dispatcher name dis)) ∧
  (∀ name, preserves keeps_running (check_listener settings name)) ∧
  (∀ name lis, preserves keeps_running (create_listener name lis)).
Proof.
  split_and!; intros; intros h; mexec; running_leaf.
Qed.

Lemma update_settings_keeps_running settings :
  preserves keeps_running (_update_settings settings).
Proof.
  destruct (reconcile_steps_keep_running settings) as (Hlog & H1 & H2 & H3 & H4).
  unfold _update_settings. preserves_tac; try done.
  all: intros Hall; exact Hall.
Qed.

Lemma run_keeps_running ticks : preserves keeps_running (run ticks).
Proof.
  assert (preserves keeps_running _sigint_handler) as Hsig
    by (unfold_hub; preserves_tac; intros Hall; exact Hall).
  pose proof update_settings_keeps_running as Htick.
  assert (∀ name, preserves keeps_running (poll name)) as Hpoll.
  { intros name. unfold poll. unfold_hub. preserves_tac.
    all: unfold_hub; preserves_tac.
    all: intros Hall; exact Hall. }
  assert (∀ e h, keeps_running h (upd_trace (cons e) h)) as Hemit
    by (intros e h Hall; exact Hall).
  assert (∀ h h0 h1, keeps_running h h0 → interrupted h0 h1 → keeps_running h h1)
    as Hint.
  { intros h h0 h1 HR (_ & _ & Hds & _) Hall.
    unfold keeps_running, all_running in *. rewrite Hds. by apply HR. }
  apply run_preserves; [typeclasses eauto|]. intros t _.
  apply iteration_preserves; [typeclasses eauto | done..].
Qed.

(** X11.  While the hub is set up and while the loop runs, no dispatcher
    that the hub holds has been told to stop: a tick sets the flag only on
    a dispatcher it deletes. *)
Theorem dispatchers_run_until_deleted settings ticks h :
  all_running h →
  all_running (state_of (_update_settings settings h)) ∧
  all_running (state_of (run ticks h)) ∧
  all_running (state_of (__init__ settings h)).
Proof.
  intros Hall. split_and!.
  - by apply update_settings_keeps_running.
  - by apply run_keeps_running.
  - unfold __init__. mrun.
    destruct (_set_logging_level (hub_loglevel settings) (set_exit false (new_object h)))
      as [[] hl|e hl] eqn:Hlog; simpl.
    + apply update_settings_keeps_running. unfold all_running. simpl.
      apply map_Forall_empty.
    + destruct (reconcile_steps_keep_running settings) as (Hl & _).
      apply (preserves_Raise keeps_running _ _ _ _ Hl Hlog).
      unfold all_running. simpl. apply map_Forall_empty.
Qed.

(** X12.  An exception that escapes the loop escapes the main program:
    [close] is not executed.  Logging is not shut down, and the
    dispatchers that are live when the exception is raised have not been
    told to stop. *)
Theorem exception_skips_close ticks h e h' :
  run ticks h = Raise e h' →
  main ticks h = Raise e h' ∧
  (logging_shutdown ∉ trace h → logging_shutdown ∉ trace h') ∧
  (all_running h → all_running h').
Proof.
  intros Hrun. split_and!.
  - unfold main. by rewrite bind_unfold, Hrun.
  - intros Hno Hin. apply Hno.
    by apply (preserves_Raise not_closed _ _ _ _ (run_not_closed ticks) Hrun).
  - apply (preserves_Raise keeps_running _ _ _ _ (run_keeps_running ticks) Hrun).
Qed.

(** ** What [close] leaves alone *)

#[local] Instance closes_preorder : PreOrder closes.
Proof.
  split; [by intros h; split_and!|].
  intros h1 h2 h3 H1 H2. unfold closes in *.
  destruct_and!. split_and!; [set_solver | congruence..].
Qed.

Lemma set_stop_closes name : preserves closes (set_stop name).
Proof.
  intros h. mexec; unfold closes; simpl; split_and!; try done.
  rewrite dom_insert_L.
  match goal with Hd : _ !! _ = Some _ |- _ => apply elem_of_dom_2 in Hd end.
  set_solver.
Qed.

(** X13.  [close] returns, and all it does to the hub is set the stop flag
    of every dispatcher: the listeners stay in [_listeners], and the queues
    keep what is on them, as do the buffers, the value records and the
    node table. *)
Theorem close_only_stops_dispatchers h :
  ∃ h', close h = Ok tt h' ∧
        _dispatchers h' = Dispatcher.with_stop true <$> _dispatchers h ∧
        _listeners h' = _listeners h ∧
        _queue h' = _queue h ∧
        temp_buffer h' = temp_buffer h ∧
        heap h' = heap h ∧
        nodelist h' = nodelist h ∧
        _exit h' = _exit h.
Proof.
  destruct (close_spec h) as (h' & Hclose & _ & _ & Hds). exists h'.
  split; [done|].
  assert (closes h h') as (Hdom & ? & ? & ? & ? & ? & ? & ? & ?).
  { eapply (preserves_Ok closes); [|exact Hclose].
    unfold close. preserves_tac; try done.
    apply set_stop_closes. }
  split_and!; try done.
  apply map_eq. intros name. rewrite lookup_fmap.
  destruct (_dispatchers h !! name) as [d|] eqn:Hd; simpl.
  - by destruct (Hds name d Hd).
  - apply not_elem_of_dom. apply not_elem_of_dom in Hd. set_solver.
Qed.

(** ** The logging level *)

Lemma level_ok_stable level h h' :
  level_ok level h = true →
  _set_logging_level level h = Ok tt h' →
  level_ok level h' = true.
Proof.
  unfold level_ok, _set_logging_level.
  destruct (logging_getattr level) as [loglevel|]; [|done].
  intros Hok. mrun.
  destruct (decide (loglevel ≠ Some (_log_level h))) as [Hne|Heq].
  - destruct (logging_setLevel level) as [n|]; [|done]. intros _.
    apply orb_true_iff. right. apply bool_decide_eq_true. by eexists.
  - intros [= <-]. exact Hok.
Qed.

(** X14.  What [_set_logging_level] does with a name.  When [logging] has
    no attribute of that name, it logs an error and leaves the level.
    When the attribute is the level of the logger, nothing happens.
    Otherwise [setLevel] is called with the name: if it knows the name, the
    level is set, and calling again changes nothing provided the attribute
    is that level; if it does not (as for [logging.debug]), its
    [ValueError] is not caught, and escapes the tick and [__init__] before
    anything is reconciled. *)
Theorem set_logging_level_settles settings level h :
  (logging_getattr level = None →
   _set_logging_level level h
   = Ok tt (upd_trace (cons (log_error ("Logging level " +:+ level +:+ " invalid"))) h)) ∧
  (logging_getattr level = Some (Some (_log_level h)) →
   _set_logging_level level h = Ok tt h) ∧
  (∀ loglevel n,
     logging_getattr level = Some loglevel →
     loglevel ≠ Some (_log_level h) →
     logging_setLevel level = Some n →
     ∃ h', _set_logging_level level h = Ok tt h' ∧
           _log_level h' = n ∧
           (loglevel = Some n → _set_logging_level level h' = Ok tt h')) ∧
  (∀ loglevel,
     logging_getattr level = Some loglevel →
     loglevel ≠ Some (_log_level h) →
     logging_setLevel level = None →
     _set_logging_level level h = Raise (ValueError ("Unknown level: '" +:+ level +:+ "'")) h ∧
     (hub_loglevel settings = level →
      _update_settings settings h = Raise (ValueError ("Unknown level: '" +:+ level +:+ "'")) h ∧
      __init__ settings h
      = Raise (ValueError ("Unknown level: '" +:+ level +:+ "'")) (set_exit false (new_object h)))).
Proof.
  split_and!.
  - intros Hattr. unfold _set_logging_level. by rewrite Hattr.
  - intros Hattr. unfold _set_logging_level. rewrite Hattr. mrun.
    by rewrite decide_False by (intros ?; done).
  - intros loglevel n Hattr Hne Hset. unfold _set_logging_level.
    rewrite Hattr, Hset. mrun. rewrite decide_True by done.
    eexists. split; [reflexivity|]. split; [done|]. intros ->. simpl.
    by rewrite decide_False by (intros ?; done).
  - intros loglevel Hattr Hne Hset.
    assert (∀ h0, _log_level h0 = _log_level h →
                  _set_logging_level level h0
                  = Raise (ValueError ("Unknown level: '" +:+ level +:+ "'")) h0) as Hraise.
    { intros h0 Hh0. unfold _set_logging_level. rewrite Hattr, Hset. mrun.
      rewrite Hh0. by rewrite decide_True by done. }
    split; [by apply Hraise|]. intros <-. split.
    + unfold _update_settings. rewrite bind_unfold. by rewrite Hraise.
    + unfold __init__. mrun. by rewrite Hraise.
Qed.

(** ** The hub after [__init__] *)

Lemma init_Ok settings h h' :
  __init__ settings h = Ok tt h' →
  ∃ h0, _update_settings settings h0 = Ok tt h' ∧
        _exit h0 = false ∧
        _dispatchers h0 = ∅ ∧
        _listeners h0 = ∅ ∧
        _queue h0 = ∅.
Proof.
  unfold __init__. intros Hrun. mrun_in Hrun.
  destruct (_set_logging_level (hub_loglevel settings) (set_exit false (new_object h)))
    as [[] hl|e hl] eqn:Hlog; [|done]. simpl in Hrun.
  eexists. split; [exact Hrun|]. simpl. split_and!; try done.
  destruct (reconcile_steps_same_exit settings) as (Hl & _).
  apply (preserves_Ok same_exit _ _ _ _ Hl Hlog).
Qed.

(** X15.  [__init__] builds the hub from nothing.  Since no component is
    live when it reconciles, it returns on any settings whose level name
    [_set_logging_level] returns on and whose descriptors can be
    processed.  When it returns, the exit flag is unset, the dispatchers
    and listeners are those whose descriptor has a type that built them,
    every queue is empty and belongs to a descriptor with a type, and no
    buffer is backed up. *)
Theorem init_starts_from_nothing settings h :
  (level_ok (hub_loglevel settings) h = true →
   map_Forall (λ name dis, dispatcher_descriptor_ok name dis = true)
              (dispatchers settings) →
   map_Forall (λ _ lis, listener_descriptor_ok lis = true) (listeners settings) →
   ∃ h', __init__ settings h = Ok tt h') ∧
  ∀ h', __init__ settings h = Ok tt h' →
    _exit h' = false ∧
    (∀ name, is_Some (_dispatchers h' !! name) ↔
             ∃ dis, dispatchers settings !! name = Some dis ∧
                    accepted name dis = true) ∧
    (∀ name, is_Some (_listeners h' !! name) ↔
             ∃ lis, listeners settings !! name = Some lis ∧
                    listener_accepted lis = true) ∧
    (∀ name q, _queue h' !! name = Some q →
               q_items q = [] ∧
               ∃ dis, dispatchers settings !! name = Some dis ∧
                      is_Some (desc_type dis)) ∧
    temp_buffer h' = ∅.
Proof.
  split.
  - intros Hlevel Hds Hls.
    destruct (set_logging_level_returns (hub_loglevel settings)
                (set_exit false (new_object h)) Hlevel) as [hl Hlog].
    pose proof (level_ok_stable _ (set_exit false (new_object h)) _ Hlevel Hlog)
      as Hlevel'.
    set (h0 := upd_queue (λ _, ∅)
                 (upd_listeners (λ _, ∅)
                    (upd_dispatchers (λ _, ∅)
                       (upd_trace (cons (log_info "Opening hub..."))
                          (upd_trace
                             (cons (log_info "EmonHub Pre-Release Development Version"))
                             hl))))).
    destruct (update_settings_returns settings h0) as [h' Hrun].
    { unfold settings_ok, h0. simpl.
      split_and!; [exact Hlevel' | set_solver | set_solver | done | done]. }
    exists h'. unfold __init__. mrun. rewrite Hlog. simpl. exact Hrun.
  - intros h' Hinit.
    destruct (init_Ok _ _ _ Hinit) as (h0 & Hrun & He0 & Hd0 & Hl0 & Hq0).
    split_and!.
    + rewrite <- He0. apply (preserves_Ok same_exit _ _ _ _
                               (update_settings_same_exit settings) Hrun).
    + intros name. rewrite (live_after_tick _ _ _ name Hrun).
      unfold established, kept_by. simpl. by rewrite Hd0, lookup_empty.
    + intros name. pose proof (reconciled_listener _ _ _ name Hrun) as Hat.
      rewrite Hl0, lookup_empty in Hat.
      destruct (listeners settings !! name) as [lis|].
      * rewrite (listener_created_as_live _ _ _ _ Hat). split; [eauto|].
        by intros (? & [= <-] & ?).
      * rewrite Hat. split; [by intros [? ?] | by intros (? & ? & _)].
    + intros name q Hq. destruct (reconciled_dispatcher _ _ _ name Hrun) as [_ Hat].
      rewrite Hd0, lookup_empty, Hq0, lookup_empty in Hat.
      destruct (dispatchers settings !! name) as [dis|];
        [|destruct Hat; congruence].
      unfold created_as in Hat. destruct (desc_type dis) as [ty|] eqn:Hty;
        [|destruct Hat as (_ & Hsame & _); rewrite Hq0, lookup_empty in Hsame;
          congruence].
      destruct Hat as (class & init & qid & _ & _ & _ & Hnew & _).
      rewrite Hq in Hnew. injection Hnew as ->. split; [done|].
      exists dis. rewrite Hty. eauto.
    + apply map_eq. intros name. rewrite lookup_empty.
      destruct (reconciled_dispatcher _ _ _ name Hrun) as [_ Hat].
      pose proof (reconciled_temp_buffer _ _ _ name Hrun) as Htemp.
      rewrite Hd0, lookup_empty in Hat, Htemp.
      destruct (dispatchers settings !! name) as [dis|]; [|by apply Htemp].
      unfold created_as in Hat. destruct (desc_type dis) as [ty|];
        [|by destruct Hat as (_ & _ & ?)].
      destruct Hat as (class & init & qid & _ & _ & _ & _ & Hcase).
      destruct (class name init) as [[]|[? ?]]; try done.
      * by destruct Hcase as (_ & ? & _).
      * by destruct Hcase as (? & _ & _ & ?).
Qed.

(** ** The calls on the listeners *)

#[local] Instance same_calls_preorder : PreOrder same_calls.
Proof.
  split; [done|]. intros h1 h2 h3 H1 H2. unfold same_calls in *. congruence.
Qed.

Lemma listener_calls_cons e t :
  listener_calls (e :: t) = listener_calls t ++ option_list (call_of e).
Proof.
  unfold listener_calls. simpl. rewrite omap_app. simpl.
  by destruct (call_of e).
Qed.

Ltac same_calls_leaf :=
  unfold same_calls; simpl; rewrite ?listener_calls_cons; simpl;
  rewrite ?app_nil_r; done.

Lemma reconcile_steps_same_calls (settings : Settings) :
  preserves same_calls (_set_logging_level (hub_loglevel settings)) ∧
  (∀ name, preserves same_calls (check_dispatcher settings name)) ∧
  (∀ name dis, preserves same_calls (create_dispatcher name dis)) ∧
  (∀ name, preserves same_calls (check_listener settings name)) ∧
  (∀ name lis, preserves same_calls (create_listener name lis)).
Proof.
  split_and!; intros; unfold_hub; preserves_tac; same_calls_leaf.
Qed.

Lemma update_settings_same_calls settings :
  preserves same_calls (_update_settings settings).
Proof.
  destruct (reconcile_steps_same_calls settings) as (Hlog & H1 & H2 & H3 & H4).
  unfold _update_settings. preserves_tac; try done. all: same_calls_leaf.
Qed.

Lemma fan_out_same_calls r :
  preserves same_calls (fan_out r) ∧ preserves same_listeners (fan_out r).
Proof.
  split; unfold_hub; preserves_tac.
  all: unfold_hub; preserves_tac.
  all: first [done | same_calls_leaf].
Qed.

Lemma poll_calls name h h' :
  poll name h = Ok tt h' →
  ∃ l, _listeners h !! name = Some l ∧
       _listeners h' = <[name := (Listener.read l).2]> (_listeners h) ∧
       listener_calls (trace h')
       = listener_calls (trace h) ++ [Run (Listener.id l); Read (Listener.id l)].
Proof.
  unfold poll, listener_at. intros Hrun. mrun_in Hrun.
  destruct (_listeners h !! name) as [l|] eqn:Hl; [|done]. simpl in Hrun.
  exists l. split; [done|].
  destruct (Listener.read l) as [[v|] l']; simpl in *.
  - destruct (fan_out_same_calls (next_id h)) as [Hcalls Hls].
    pose proof (preserves_Ok same_calls _ _ _ _ Hcalls Hrun) as Hc.
    pose proof (preserves_Ok same_listeners _ _ _ _ Hls Hrun) as Hl'.
    unfold same_calls, same_listeners in *. simpl in *.
    rewrite Hc, Hl', !listener_calls_cons. simpl. by rewrite <- app_assoc.
  - injection Hrun as <-. simpl. rewrite !listener_calls_cons. simpl.
    by rewrite <- app_assoc.
Qed.

Lemma read_keeps_id l : Listener.id (Listener.read l).2 = Listener.id l.
Proof. unfold Listener.read. by destruct (Listener.source l). Qed.

Lemma polled_ext (ls ls' : gmap string Listener.t) names :
  (∀ name, name ∈ names → ls' !! name = ls !! name) →
  polled ls' names = polled ls names.
Proof.
  induction names as [|name names IH]; intros Hext; [done|].
  unfold polled in *. simpl. rewrite (Hext name) by left.
  f_equal. apply IH. intros n Hn. apply Hext. by right.
Qed.

Lemma poll_all_calls names h h' :
  NoDup names →
  poll_all names h = Ok tt h' →
  listener_calls (trace h')
  = listener_calls (trace h) ++ polled (_listeners h) names.
Proof.
  intros Hnd. unfold poll_all. revert h.
  induction Hnd as [|name names Hname Hnd IH]; intros h Hrun.
  - injection Hrun as <-. unfold polled. simpl. by rewrite app_nil_r.
  - rewrite for_cons in Hrun. apply bind_Ok in Hrun as ([] & h1 & Hpoll & Hrest).
    destruct (poll_calls _ _ _ Hpoll) as (l & Hl & Hls & Hcalls).
    rewrite (IH _ Hrest), Hcalls, <- app_assoc. f_equal.
    unfold polled at 2. simpl. rewrite Hl. simpl. do 2 f_equal.
    apply polled_ext. intros n Hn. rewrite Hls.
    apply lookup_insert_ne. by intros ->.
Qed.

(** X16.  In an iteration in which no interrupt arrives and that returns,
    the hub calls [run()] and then [read()] on every listener, once, in the
    order of the keys of [_listeners]; when the settings changed, these are
    the listeners that the tick left.  The tick itself calls neither. *)
Theorem every_listener_polled_once c h h' :
  iteration (Tick c None) h = Ok tt h' →
  ∃ ls,
    match c with
    | Some settings =>
        ∃ hm, _update_settings settings (upd_trace (cons interface_run) h) = Ok tt hm ∧
              ls = _listeners hm
    | None => ls = _listeners h
    end ∧
    listener_calls (trace h')
    = listener_calls (trace h) ++ polled ls (keys ls).
Proof.
  unfold iteration. cbn [sigint changed]. intros Hrun.
  apply bind_Ok in Hrun as ([] & h1 & Hitf & Hrun).
  apply bind_Ok in Hrun as ([] & hm & Htick & Hrun).
  apply bind_Ok in Hrun as (? & ? & [= <- <-] & Hrun).
  apply bind_Ok in Hrun as ([] & h2 & Hpolls & [= <-]).
  injection Hitf as <-.
  apply poll_all_calls in Hpolls; [|apply keys_NoDup].
  exists (_listeners hm). split.
  - destruct c as [settings|]; [by exists hm|]. by injection Htick as <-.
  - simpl. rewrite listener_calls_cons. simpl. rewrite app_nil_r, Hpolls. f_equal.
    destruct c as [settings|].
    + pose proof (preserves_Ok same_calls _ _ _ _
                    (update_settings_same_calls settings) Htick) as Hc.
      unfold same_calls in Hc. simpl in Hc.
      rewrite Hc, listener_calls_cons. simpl. by rewrite app_nil_r.
    + injection Htick as <-. simpl. rewrite listener_calls_cons. simpl.
      by rewrite app_nil_r.
Qed.

(** ** Shutdown after the signal *)



End properties.

(** * Properties across ticks

    The classes are called again in every tick: the two ticks below each
    have their own instance of the imported modules. *)

(** X5.  A tick on the same settings keeps what the tick before left:
    when a tick returned, a second tick on the same settings that returns
    holds every dispatcher and every listener that was live after the
    first, as the same object, and leaves the queues of those dispatchers
    as they are; it deletes none.  A component that is live only after the
    second tick is one whose class did not build it in the first tick and
    built it in the second. *)
Theorem second_tick_rebuilds_nothing (H1 H2 : Components) settings h h' h'' :
  _update_settings (H := H1) settings h = Ok tt h' →
  _update_settings (H := H2) settings h' = Ok tt h'' →
  (∀ name d', _dispatchers h' !! name = Some d' →
     Dispatcher.id <$> _dispatchers h'' !! name = Some (Dispatcher.id d') ∧
     _queue h'' !! name = _queue h' !! name) ∧
  (∀ name l', _listeners h' !! name = Some l' →
     Listener.id <$> _listeners h'' !! name = Some (Listener.id l')) ∧
  (∀ name, _dispatchers h' !! name = None → is_Some (_dispatchers h'' !! name) →
     ∃ dis, dispatchers settings !! name = Some dis ∧
            accepted (H := H1) name dis = false ∧
            accepted (H := H2) name dis = true) ∧
  (∀ name, _listeners h' !! name = None → is_Some (_listeners h'' !! name) →
     ∃ lis, listeners settings !! name = Some lis ∧
            listener_accepted (H := H1) lis = false ∧
            listener_accepted (H := H2) lis = true).
Proof.
  intros Hrun1 Hrun2. split_and!.
  - intros name d' Hd'.
    destruct (live_dispatcher_init _ _ _ _ _ Hrun1 Hd') as (dis & Hdis & Hty & Hinit).
    destruct (reconciled_dispatcher _ _ _ name Hrun2) as [_ Hat].
    rewrite Hd' in Hat. destruct Hat as (dis' & init & Hdis' & Hinit' & Hat).
    rewrite Hdis in Hdis'. injection Hdis' as <-.
    rewrite Hinit in Hinit'. injection Hinit' as <-.
    rewrite decide_True in Hat by done.
    destruct Hat as (runtime & _ & -> & ->). done.
  - intros name l' Hl'.
    destruct (live_listener_init _ _ _ _ _ Hrun1 Hl') as (lis & Hlis & Hty & Hinit).
    pose proof (reconciled_listener _ _ _ name Hrun2) as Hat.
    rewrite Hl' in Hat. destruct Hat as (lis' & init & Hlis' & Hinit' & Hat).
    rewrite Hlis in Hlis'. injection Hlis' as <-.
    rewrite Hinit in Hinit'. injection Hinit' as <-.
    rewrite decide_True in Hat by done.
    by destruct Hat as (runtime & _ & ->).
  - intros name Hnone Hlive.
    apply (live_after_tick _ _ _ name Hrun2) in Hlive as (dis & Hdis & Hest).
    exists dis. split; [done|].
    unfold established, kept_by in Hest. simpl in Hest. rewrite Hnone in Hest.
    split; [|exact Hest].
    apply not_true_is_false. intros Hacc.
    assert (is_Some (_dispatchers h' !! name)) as [? ?]; [|congruence].
    apply (live_after_tick _ _ _ name Hrun1). exists dis. split; [done|].
    unfold established. simpl. rewrite Hacc. apply orb_true_r.
  - intros name Hnone Hlive.
    apply (listeners_after_tick _ _ _ name Hrun2) in Hlive as (lis & Hlis & Hest).
    exists lis. split; [done|].
    unfold listener_established, listener_kept_by in Hest. simpl in Hest.
    rewrite Hnone in Hest. split; [|exact Hest].
    apply not_true_is_false. intros Hacc.
    assert (is_Some (_listeners h' !! name)) as [? ?]; [|congruence].
    apply (listeners_after_tick _ _ _ name Hrun1). exists lis. split; [done|].
    unfold listener_established. simpl. rewrite Hacc. apply orb_true_r.
Qed.

(** * The properties on the test components *)

Lemma fan_out_follows_pause_witness :
  ∃ h', iteration (H:=test_components) (Tick None None) (started settings0) = Ok tt h' ∧
        _queue h' !! "D1" = Some (mkQueue 0 [5]) ∧
        _queue h' !! "D2" = Some (mkQueue 2 []).
Proof.
  destruct (fan_out_follows_pause (H:=test_components) (started settings0))
    as (h' & Hrun & _ & Hqs & _).
  { unfold queues_present. apply (bool_decide_unpack _). vm_compute. exact I. }
  exists h'. split; [exact Hrun|]. split.
  - destruct (Hqs "D1" (Dispatcher.mk 1 "EmonHubEmoncmsDispatcher" (url "a") ∅ [] false))
      as (q & Hq & ->); [reflexivity|].
    vm_compute in Hq. injection Hq as <-. reflexivity.
  - destruct (Hqs "D2" (Dispatcher.mk 3 "EmonHubEmoncmsDispatcher" (url "b")
                                      (pause "true") [] false))
      as (q & Hq & ->); [reflexivity|].
    vm_compute in Hq. injection Hq as <-. reflexivity.
Defined.

Lemma returned (o : outcome unit) :
  (if o is Ok _ _ then True else False) → o = Ok tt (state_of o).
Proof. by destruct o as [[] h|e h]. Qed.

(** A rebuild on the test components: D1 is moved to another url. *)
Lemma rebuild_keeps_buffer_witness :
  dispatcher_stop 1 ∈ trace (state_of (tick_on settings_moved hub_buffered)) ∧
  ∃ d' q,
    _dispatchers (state_of (tick_on settings_moved hub_buffered)) !! "D1" = Some d' ∧
    next_id hub_buffered ≤ Dispatcher.id d' ∧
    Dispatcher.init_settings d' = url "c" ∧
    Dispatcher._data_buffer d' = [7; 8] ∧
    Dispatcher.stop d' = false ∧
    _queue (state_of (tick_on settings_moved hub_buffered)) !! "D1" = Some q ∧
    next_id hub_buffered ≤ q_id q ∧
    q_items q = [].
Proof.
  apply (rebuild_keeps_buffer (H := test_components) settings_moved hub_buffered
           (state_of (tick_on settings_moved hub_buffered)) "D1"
           (Dispatcher.mk 1 "EmonHubEmoncmsDispatcher" (url "a") ∅ [7; 8] false)
           (a_dispatcher (url "c") ∅) (url "c")
           "EmonHubEmoncmsDispatcher" test_dispatcher_class ∅ []).
  - reflexivity.
  - reflexivity.
  - reflexivity.
  - apply (bool_decide_unpack _). vm_compute. exact I.
  - discriminate.
  - reflexivity.
  - reflexivity.
  - reflexivity.
  - apply returned. vm_compute. exact I.
Defined.

(** C1 as stated fails: the class of D1 rejects the new [init_settings],
    and the tick leaves no dispatcher under the name. *)
Lemma rebuild_keeps_buffer_counterexample :
  ∃ d dis init h',
    _dispatchers hub_buffered !! "D1" = Some d ∧
    dispatchers settings_rejected !! "D1" = Some dis ∧
    desc_init_settings dis = Some init ∧
    Dispatcher.init_settings d ≠ init ∧
    Dispatcher._data_buffer d ≠ [] ∧
    tick_on settings_rejected hub_buffered = Ok tt h' ∧
    _dispatchers h' !! "D1" = None.
Proof.
  exists (Dispatcher.mk 1 "EmonHubEmoncmsDispatcher" (url "a") ∅ [7; 8] false),
         (a_dispatcher {[ "bad" := PStr "yes" ]} ∅), {[ "bad" := PStr "yes" ]},
         (state_of (tick_on settings_rejected hub_buffered)).
  split_and!.
  - reflexivity.
  - reflexivity.
  - reflexivity.
  - apply (bool_decide_unpack _). vm_compute. exact I.
  - discriminate.
  - apply returned. vm_compute. exact I.
  - reflexivity.
Qed.

(** The buffer of D1 on the test components, when the class rejects the
    new [init_settings]. *)
Lemma buffer_kept_or_migrated_witness :
  _dispatchers (state_of (tick_on settings_rejected hub_buffered)) !! "D1" = None ∧
  temp_buffer (state_of (tick_on settings_rejected hub_buffered)) !! "D1" = Some [7; 8].
Proof.
  destruct (buffer_kept_or_migrated (H := test_components) settings_rejected hub_buffered
              (state_of (tick_on settings_rejected hub_buffered)) "D1"
              (Dispatcher.mk 1 "EmonHubEmoncmsDispatcher" (url "a") ∅ [7; 8] false))
    as (dis & init & Hdis & Hinit & _ & Hrebuilt & _).
  - reflexivity.
  - apply returned. vm_compute. exact I.
  - injection Hdis as <-. injection Hinit as <-.
    destruct (Hrebuilt) with (ty := "EmonHubEmoncmsDispatcher") as (class & Hclass & Hcase).
    + apply (bool_decide_unpack _). vm_compute. exact I.
    + discriminate.
    + reflexivity.
    + injection Hclass as <-. exact Hcase.
Defined.

(** C7 as stated fails: after a tick in which the class of D1 rejects the
    new [init_settings], no dispatcher holds the buffer [7; 8] of D1, and
    the dispatcher that the next tick creates for D1 starts empty. *)
Lemma buffer_kept_or_migrated_counterexample :
  ∃ d h1 h2,
    _dispatchers hub_buffered !! "D1" = Some d ∧
    Dispatcher._data_buffer d = [7; 8] ∧
    tick_on settings_rejected hub_buffered = Ok tt h1 ∧
    _dispatchers h1 !! "D1" = None ∧
    tick_on settings_moved h1 = Ok tt h2 ∧
    Dispatcher._data_buffer <$> _dispatchers h2 !! "D1" = Some [] ∧
    temp_buffer h2 = ∅.
Proof.
  exists (Dispatcher.mk 1 "EmonHubEmoncmsDispatcher" (url "a") ∅ [7; 8] false),
         (state_of (tick_on settings_rejected hub_buffered)),
         (state_of (tick_on settings_moved
                      (state_of (tick_on settings_rejected hub_buffered)))).
  split_and!.
  - reflexivity.
  - reflexivity.
  - apply returned. vm_compute. exact I.
  - reflexivity.
  - apply returned. vm_compute. exact I.
  - reflexivity.
  - apply (bool_decide_unpack _). vm_compute. exact I.
Qed.

(** A listener of the test components moved to another port. *)
Lemma listener_rebuilt_on_init_change_witness :
  listener_close 4 ∈ trace (state_of (tick_on settings_port (started settings0))) ∧
  ∃ class,
    ehl (Components := test_components) "EmonHubJeeListener" = Some class ∧
    match class (port "/dev/ttyUSB0") with
    | inr (s, src) =>
        ∃ l', _listeners (state_of (tick_on settings_port (started settings0))) !! "L1"
              = Some l' ∧
              next_id (started settings0) ≤ Listener.id l' ∧
              Listener.init_settings l' = port "/dev/ttyUSB0" ∧
              Listener.source l' = src
    | inl _ =>
        _listeners (state_of (tick_on settings_port (started settings0))) !! "L1" = None
    end.
Proof.
  apply (listener_rebuilt_on_init_change (H := test_components) settings_port
           (started settings0) _ "L1"
           (Listener.mk 4 "EmonHubJeeListener" (Some "L1") (port "/dev/ttyAMA0") ∅
              [Some [10; 20; 30]%Z; None; Some [11; 21; 31]%Z])
           (a_listener (port "/dev/ttyUSB0") ∅)).
  - reflexivity.
  - reflexivity.
  - reflexivity.
  - apply (bool_decide_unpack _). vm_compute. exact I.
  - reflexivity.
  - apply returned. vm_compute. exact I.
Defined.

(** C2 as stated fails: L1 keeps its type and gets another port; the tick
    closes the listener, and the listener it holds afterwards is another
    object. *)
Lemma listener_rebuilt_on_init_change_counterexample :
  ∃ l lis init h',
    _listeners (started settings0) !! "L1" = Some l ∧
    listeners settings_port !! "L1" = Some lis ∧
    desc_init_settings lis = Some init ∧
    Listener.init_settings l ≠ init ∧
    is_Some (desc_type lis) ∧
    tick_on settings_port (started settings0) = Ok tt h' ∧
    listener_close (Listener.id l) ∈ trace h' ∧
    Listener.id <$> _listeners h' !! "L1" = Some 5 ∧
    Listener.id l = 4.
Proof.
  exists (Listener.mk 4 "EmonHubJeeListener" (Some "L1") (port "/dev/ttyAMA0") ∅
            [Some [10; 20; 30]%Z; None; Some [11; 21; 31]%Z]),
         (a_listener (port "/dev/ttyUSB0") ∅), (port "/dev/ttyUSB0"),
         (state_of (tick_on settings_port (started settings0))).
  split_and!.
  - reflexivity.
  - reflexivity.
  - reflexivity.
  - apply (bool_decide_unpack _). vm_compute. exact I.
  - by eexists.
  - apply returned. vm_compute. exact I.
  - apply (bool_decide_unpack _). vm_compute. exact I.
  - reflexivity.
  - reflexivity.
Qed.

(** The dispatcher D2 of the test components, dropped from the settings. *)
Lemma unlisted_name_raises_witness :
  ∃ e h', tick_on settings_without_D2 hub_buffered = Raise e h'.
Proof.
  apply (unlisted_name_raises (H := test_components) settings_without_D2
           hub_buffered "D2").
  left. split.
  - exists (Dispatcher.mk 3 "EmonHubEmoncmsDispatcher" (url "b") (pause "true") [] false).
    reflexivity.
  - reflexivity.
Defined.

Lemma raised (o : outcome unit) (e : exn) :
  (if o is Raise e' _ then e' = e else False) → o = Raise e (state_of o).
Proof. destruct o as [[] h|e' h]; [done | by intros ->]. Qed.

(** The exception is the [KeyError] of [settings['dispatchers'][name]], and
    D2 is still live when it is raised. *)
Example unlisted_name_raises_KeyError :
  ∃ h', tick_on settings_without_D2 hub_buffered = Raise (KeyError "D2") h' ∧
        is_Some (_dispatchers h' !! "D2").
Proof.
  exists (state_of (tick_on settings_without_D2 hub_buffered)). split.
  - apply raised. vm_compute. reflexivity.
  - apply (bool_decide_unpack _). vm_compute. exact I.
Qed.

(** C9 on the test components, with both dispatchers taking input: after
    one pass of the loop the queues of D1 and D2 hold the same reference to
    the one record that L1 produced, so that a change made to the record
    through that reference is what the consumer of the other queue
    reads. *)
Theorem fanned_out_record_is_shared :
  ∃ h', iteration (H := test_components) (Tick None None) (started settings_both)
        = Ok tt h' ∧
        q_items <$> _queue h' !! "D1" = Some [5] ∧
        q_items <$> _queue h' !! "D2" = Some [5] ∧
        observed "D2" h' = Some [[10; 20; 30]%Z] ∧
        observed "D2" (mutate 5 (λ _, [0%Z]) h') = Some [[0%Z]].
Proof.
  exists (state_of (iteration (H := test_components) (Tick None None)
                      (started settings_both))).
  split_and!.
  - apply returned. vm_compute. exact I.
  - vm_compute. reflexivity.
  - vm_compute. reflexivity.
  - vm_compute. reflexivity.
  - vm_compute. reflexivity.
Qed.

(** The invariant on the test components, after a tick in which a
    creation failed. *)
Lemma queue_for_every_dispatcher_witness :
  queues_present (state_of (tick_on settings_rejected hub_buffered)).
Proof.
  destruct (queue_for_every_dispatcher (H := test_components) settings_rejected
              hub_buffered) as (Hkept & _ & _).
  apply Hkept. unfold queues_present. apply (bool_decide_unpack _). vm_compute. exact I.
Defined.

(** C6 as stated fails in both directions it names: the queue of D2 is
    still in [_queue] after D2 was deleted, and the queue made for the
    replacement of D1, whose creation failed, is in [_queue] although D1 has
    no dispatcher. *)
Lemma queue_for_every_dispatcher_counterexample :
  (∃ h', tick_on settings_untyped hub_buffered = Ok tt h' ∧
         _dispatchers h' !! "D2" = None ∧
         _queue h' !! "D2" = Some (mkQueue 2 [])) ∧
  (∃ h', tick_on settings_rejected hub_buffered = Ok tt h' ∧
         _dispatchers h' !! "D1" = None ∧
         _queue h' !! "D1" = Some (mkQueue 5 []) ∧
         next_id hub_buffered = 5).
Proof.
  split.
  - exists (state_of (tick_on settings_untyped hub_buffered)). split_and!.
    + apply returned. vm_compute. exact I.
    + vm_compute. reflexivity.
    + vm_compute. reflexivity.
  - exists (state_of (tick_on settings_rejected hub_buffered)). split_and!.
    + apply returned. vm_compute. exact I.
    + vm_compute. reflexivity.
    + vm_compute. reflexivity.
    + vm_compute. reflexivity.
Qed.

(** Three descriptors on a new hub; the class rejects the third. *)
Lemma creation_failure_is_isolated_witness :
  ∃ h', tick_on (settings_three rejected_init) (new_hub 30 ∅) = Ok tt h' ∧
        size (_dispatchers h') = 2 ∧
        _dispatchers h' !! "D3" = None ∧
        is_Some (_queue h' !! "D3").
Proof.
  destruct (creation_failure_is_isolated (H := test_components)
              (settings_three rejected_init) (new_hub 30 ∅))
    as (h' & Hrun & _ & Hsize & Hrejected).
  { unfold settings_ok. split_and!; apply (bool_decide_unpack _); vm_compute; exact I. }
  exists h'. split; [exact Hrun|].
  destruct (Hrejected "D3" rejected_init) as (Hnone & _ & q & Hq & _).
  { vm_compute. reflexivity. }
  { exists "EmonHubEmoncmsDispatcher". reflexivity. }
  { vm_compute. reflexivity. }
  split_and!.
  - rewrite Hsize. vm_compute. reflexivity.
  - exact Hnone.
  - exists q. exact Hq.
Defined.

(** C4 as stated fails.  With a third descriptor of unknown type the tick
    raises [AttributeError], and here before any dispatcher was created.
    With a third descriptor that the class rejects, the tick returns and
    two dispatchers are live, but the queue made for the third one is left
    in [_queue]. *)
Lemma creation_failure_is_isolated_counterexample :
  (∃ h', tick_on (settings_three unknown_type) (new_hub 30 ∅)
         = Raise (AttributeError "NoSuchDispatcher") h' ∧
         _dispatchers h' = ∅) ∧
  (∃ h', tick_on (settings_three rejected_init) (new_hub 30 ∅) = Ok tt h' ∧
         size (_dispatchers h') = 2 ∧
         _dispatchers h' !! "D3" = None ∧
         _queue h' !! "D3" = Some (mkQueue 0 [])).
Proof.
  split.
  - exists (state_of (tick_on (settings_three unknown_type) (new_hub 30 ∅))). split.
    + apply raised. vm_compute. reflexivity.
    + apply (bool_decide_unpack _). vm_compute. exact I.
  - exists (state_of (tick_on (settings_three rejected_init) (new_hub 30 ∅))). split_and!.
    + apply returned. vm_compute. exact I.
    + vm_compute. reflexivity.
    + vm_compute. reflexivity.
    + vm_compute. reflexivity.
Qed.


(** ** The further properties on the test components *)

(** The buffer of D1 on the test components, left in [temp_buffer] by a
    tick in which the class rejects the new [init_settings]. *)
Lemma temp_buffer_only_failed_rebuilds_witness :
  _dispatchers (state_of (tick_on settings_rejected hub_buffered)) !! "D1" = None ∧
  ∃ d dis init,
    _dispatchers hub_buffered !! "D1" = Some d ∧
    dispatchers settings_rejected !! "D1" = Some dis ∧
    desc_init_settings dis = Some init ∧
    Dispatcher.init_settings d ≠ init ∧
    Dispatcher._data_buffer d = [7; 8] ∧
    [7; 8] ≠ [].
Proof.
  apply (temp_buffer_only_failed_rebuilds (H := test_components) settings_rejected
           hub_buffered (state_of (tick_on settings_rejected hub_buffered)) "D1" [7; 8]).
  - apply returned. vm_compute. exact I.
  - vm_compute. reflexivity.
Defined.

(** D1 of the test components after it was moved to another url. *)
Lemma live_dispatchers_as_listed_witness :
  dispatcher_as_listed (H := test_components) settings_moved "D1"
    (Dispatcher.mk 6 "EmonHubEmoncmsDispatcher" (url "c") ∅ [7; 8] false).
Proof.
  apply (live_dispatchers_as_listed (H := test_components) settings_moved hub_buffered
           (state_of (tick_on settings_moved hub_buffered)) "D1").
  - apply returned. vm_compute. exact I.
  - vm_compute. reflexivity.
Defined.

(** L1 of the test components after it was moved to another port. *)
Lemma live_listeners_as_listed_witness :
  listener_as_listed (H := test_components) settings_port "L1"
    (Listener.mk 5 "EmonHubJeeListener" (Some "L1") (port "/dev/ttyUSB0") ∅
       [Some [10; 20; 30]%Z; None; Some [11; 21; 31]%Z]) ∧
  ((∀ l, _listeners (started settings0) !! "L1" = Some l →
         Listener.name l = Some "L1") →
   Listener.name (Listener.mk 5 "EmonHubJeeListener" (Some "L1") (port "/dev/ttyUSB0") ∅
                    [Some [10; 20; 30]%Z; None; Some [11; 21; 31]%Z]) = Some "L1").
Proof.
  apply (live_listeners_as_listed (H := test_components) settings_port
           (started settings0) (state_of (tick_on settings_port (started settings0)))
           "L1").
  - apply returned. vm_compute. exact I.
  - vm_compute. reflexivity.
Defined.

(** The settings whose D1 the class rejects, applied to the test
    components and again once the class has recovered: D2 is the same
    object, and D1, which the first tick did not build, is live. *)
Lemma second_tick_rebuilds_nothing_witness :
  Dispatcher.id <$> _dispatchers
    (state_of (_update_settings (H := recovered_components) settings_rejected
                 (state_of (tick_on settings_rejected hub_buffered))))
    !! "D2" = Some 3 ∧
  ∃ dis, dispatchers settings_rejected !! "D1" = Some dis ∧
         accepted (H := test_components) "D1" dis = false ∧
         accepted (H := recovered_components) "D1" dis = true.
Proof.
  destruct (second_tick_rebuilds_nothing test_components recovered_components
              settings_rejected hub_buffered
              (state_of (tick_on settings_rejected hub_buffered))
              (state_of (_update_settings (H := recovered_components) settings_rejected
                           (state_of (tick_on settings_rejected hub_buffered)))))
    as (Hds & _ & Hnew & _).
  - apply returned. vm_compute. exact I.
  - apply returned. vm_compute. exact I.
  - split.
    + destruct (Hds "D2" (Dispatcher.mk 3 "EmonHubEmoncmsDispatcher" (url "b")
                            (pause "true") [] false)) as [Hid _]; [|exact Hid].
      vm_compute. reflexivity.
    + apply (Hnew "D1").
      * vm_compute. reflexivity.
      * apply (bool_decide_unpack _). vm_compute. exact I.
Defined.

(** D2 of the test components un-paused. *)
Lemma runtime_settings_applied_in_place_witness :
  ∃ runtime,
    desc_runtime_settings (a_dispatcher (url "b") ∅) = Some runtime ∧
    _dispatchers (state_of (tick_on settings_both (started settings0))) !! "D2" =
    Some (Dispatcher.with_settings
            (ehd_set (Components := test_components) "EmonHubEmoncmsDispatcher"
               (pause "true") runtime)
            (Dispatcher.mk 3 "EmonHubEmoncmsDispatcher" (url "b") (pause "true") []
               false)) ∧
    _queue (state_of (tick_on settings_both (started settings0))) !! "D2"
    = _queue (started settings0) !! "D2" ∧
    temp_buffer (state_of (tick_on settings_both (started settings0))) !! "D2" = None.
Proof.
  destruct (runtime_settings_applied_in_place (H := test_components) settings_both
              (started settings0) (state_of (tick_on settings_both (started settings0)))
              "D2") as [Hd _].
  - apply returned. vm_compute. exact I.
  - apply (Hd (Dispatcher.mk 3 "EmonHubEmoncmsDispatcher" (url "b") (pause "true") []
                 false) (a_dispatcher (url "b") ∅)).
    + vm_compute. reflexivity.
    + vm_compute. reflexivity.
    + reflexivity.
    + exists "EmonHubEmoncmsDispatcher". reflexivity.
Defined.

(** The queue of D1 on the test components after D1 was moved to another
    url: a new one. *)
Lemma tick_never_enqueues_witness :
  _queue hub_buffered !! "D1" = Some (mkQueue 5 []) ∨
  (q_items (mkQueue 5 []) = [] ∧ next_id hub_buffered ≤ q_id (mkQueue 5 [])).
Proof.
  destruct (tick_never_enqueues (H := test_components) settings_moved hub_buffered)
    as (_ & _ & Hqs).
  apply (Hqs "D1"). vm_compute. reflexivity.
Defined.

(** D2 and L1 of the test components with their ['type'] removed. *)
Lemma untyped_component_is_deleted_witness :
  _dispatchers (state_of (tick_on settings_untyped hub_buffered)) !! "D2" = None ∧
  _listeners (state_of (tick_on settings_untyped hub_buffered)) !! "L1" = None.
Proof.
  destruct (untyped_component_is_deleted (H := test_components) settings_untyped
              hub_buffered (state_of (tick_on settings_untyped hub_buffered)) "D2")
    as [Hd _].
  { apply returned. vm_compute. exact I. }
  destruct (untyped_component_is_deleted (H := test_components) settings_untyped
              hub_buffered (state_of (tick_on settings_untyped hub_buffered)) "L1")
    as [_ Hl].
  { apply returned. vm_compute. exact I. }
  split.
  - apply (Hd (Descriptor None (Some (url "b")) (Some (pause "true")))); reflexivity.
  - apply (Hl (Descriptor None (Some (port "/dev/ttyAMA0")) (Some ∅))); reflexivity.
Defined.

(** L1 of the test components with [init_settings] that its class
    rejects. *)
Lemma listener_failure_is_isolated_witness :
  ∃ h', tick_on settings_bad_listener (started settings0) = Ok tt h' ∧
        _listeners h' !! "L1" = None ∧
        ∃ msg, log_error ("Failed to create '" +:+ "L1" +:+ "' listener: " +:+ msg)
                 ∈ trace h'.
Proof.
  destruct (listener_failure_is_isolated (H := test_components) settings_bad_listener
              (started settings0)) as (h' & Hrun & _ & Hrejected).
  { unfold settings_ok. split_and!; apply (bool_decide_unpack _); vm_compute; exact I. }
  exists h'. split; [exact Hrun|].
  apply (Hrejected "L1" (a_listener {[ "bad" := PStr "yes" ]} ∅)).
  - reflexivity.
  - exists "EmonHubJeeListener". reflexivity.
  - vm_compute. reflexivity.
Defined.

(** The invariant on the test components, through two iterations and
    [close]. *)
Lemma queues_survive_the_loop_witness :
  queues_present (state_of (main (H := test_components)
                              [Tick (Some settings_rejected) None; Tick None None]
                              (started settings0))).
Proof.
  destruct (queues_survive_the_loop (H := test_components)
              [Tick (Some settings_rejected) None; Tick None None])
    as (_ & _ & _ & Hmain).
  apply (Hmain (started settings0)).
  unfold queues_present. apply (bool_decide_unpack _). vm_compute. exact I.
Defined.


(** The dispatchers of the test components after D1 was moved. *)
Lemma dispatchers_run_until_deleted_witness :
  all_running (state_of (tick_on settings_moved (started settings0))).
Proof.
  destruct (dispatchers_run_until_deleted (H := test_components) settings_moved []
              (started settings0)) as (Htick & _ & _).
  - unfold all_running. apply (bool_decide_unpack _). vm_compute. exact I.
  - exact Htick.
Defined.

(** D2 of the test components dropped from the settings while the loop
    runs. *)
Lemma exception_skips_close_witness :
  main (H := test_components) [Tick (Some settings_without_D2) None]
       (started settings0)
  = Raise (KeyError "D2")
      (state_of (run (H := test_components) [Tick (Some settings_without_D2) None]
                   (started settings0))).
Proof.
  apply (exception_skips_close (H := test_components)).
  apply raised. vm_compute. reflexivity.
Defined.

(** The level name in lower case on the test components, where
    [logging.debug] is a function and [setLevel] does not know the name. *)
Lemma set_logging_level_settles_witness :
  tick_on settings_lowercase (started settings0)
  = Raise (ValueError "Unknown level: 'debug'") (started settings0).
Proof.
  destruct (set_logging_level_settles (H := test_components) settings_lowercase "debug"
              (started settings0)) as (_ & _ & _ & Hraise).
  destruct (Hraise None) as (_ & Htick); [reflexivity | discriminate | reflexivity |].
  destruct Htick as [Htick _]; [reflexivity|]. exact Htick.
Defined.

(** The hub of the test components started on three descriptors, of which
    the class rejects the third. *)
Lemma init_starts_from_nothing_witness :
  ∃ h', __init__ (H := test_components) (settings_three rejected_init) (new_hub 30 ∅)
        = Ok tt h' ∧
        _exit h' = false ∧
        temp_buffer h' = ∅.
Proof.
  destruct (init_starts_from_nothing (H := test_components)
              (settings_three rejected_init) (new_hub 30 ∅)) as [Hreturns Hpost].
  destruct Hreturns as [h' Hinit].
  { vm_compute. reflexivity. }
  { apply (bool_decide_unpack _). vm_compute. exact I. }
  { apply (bool_decide_unpack _). vm_compute. exact I. }
  exists h'. destruct (Hpost h' Hinit) as (He & _ & _ & _ & Htemp).
  split_and!; [exact Hinit | exact He | exact Htemp].
Defined.

(** One iteration on the test components: L1 is run and read. *)
Lemma every_listener_polled_once_witness :
  ∃ ls, ls = _listeners (started settings0) ∧
        listener_calls (trace (state_of (iteration (H := test_components)
                                           (Tick None None) (started settings0))))
        = listener_calls (trace (started settings0)) ++ polled ls (keys ls).
Proof.
  apply (every_listener_polled_once (H := test_components) None (started settings0)).
  apply returned. vm_compute. exact I.
Defined.
